(** * Sensor data read and processing (Contiki process [sensor_reading_process])

    A shallow embedding of [sensor.c]: the numeric helpers [d1], [d2] and
    [sqrt], the calibration functions, [printArray], [getMedian] and one
    iteration of the sampling loop (FIFO buffers, activity measurement,
    aggregation, Theil-Sen regression), followed by the properties of the
    design document that concern them.

    Modelling conventions.
    - The C type [float] is IEEE 754 binary32 and [double] is binary64, both
      with round-to-nearest-even, as specified by [SpecFloat] of the standard
      library ([prec = 24], [emax = 128], resp. [prec = 53], [emax = 1024]).
      Floating constants of the source are [double], so an expression that
      mentions one is evaluated in binary64 and rounded when it is stored in
      a [float] variable.
    - [int] values are integers of [Z].  Apart from the results of [d1] every
      integer of the program is an index or a counter bounded by 144.
    - An array is a list of fixed length; every access is checked and an
      access outside the array stops the run with [OutOfBounds].
    - [printf] appends the call (format string and arguments) to the output;
      [render] turns a call into the text that is printed. *)

From Stdlib Require Import ZArith Lia List String Ascii Bool.
From Stdlib Require Import Floats.SpecFloat.
From Stdlib Require Import DecimalString.
From Stdlib Require Import QArith Qabs.
From stdpp Require Import list sorting.

Open Scope Z_scope.

(** ** Floating-point numbers *)

Definition float := spec_float.
Definition double := spec_float.

Declare Scope f32_scope.
Delimit Scope f32_scope with f32.

Definition fadd : float -> float -> float := SFadd 24 128.
Definition fsub : float -> float -> float := SFsub 24 128.
Definition fmul : float -> float -> float := SFmul 24 128.
Definition fdiv : float -> float -> float := SFdiv 24 128.
Definition fneg : float -> float := SFopp.
Definition flt : float -> float -> bool := SFltb.
Definition fle : float -> float -> bool := SFleb.
Definition feq : float -> float -> bool := SFeqb.
(** [a > b] and [a != b] of C. *)
Definition fgt (a b : float) : bool := SFltb b a.
Definition fne (a b : float) : bool := negb (SFeqb a b).

Infix "+" := fadd : f32_scope.
Infix "-" := fsub : f32_scope.
Infix "*" := fmul : f32_scope.
Infix "/" := fdiv : f32_scope.

(** Conversion of an [int] to [float] and to [double]. *)
Definition float_of_int (z : Z) : float := binary_normalize 24 128 z 0 false.
Definition double_of_int (z : Z) : double := binary_normalize 53 1024 z 0 false.

(** Conversions between the two formats: exact towards [double], rounded
    towards [float]. *)
Definition round_to (prec emax : Z) (x : spec_float) : spec_float :=
  match x with
  | S754_finite s m e => binary_normalize prec emax (cond_Zopp s (Zpos m)) e s
  | _ => x
  end.
Definition double_of_float : float -> double := round_to 53 1024.
Definition float_of_double : double -> float := round_to 24 128.

Definition dadd : double -> double -> double := SFadd 53 1024.
Definition dsub : double -> double -> double := SFsub 53 1024.
Definition dmul : double -> double -> double := SFmul 53 1024.
Definition ddiv : double -> double -> double := SFdiv 53 1024.

(** A decimal constant [n/d] of the source is the binary64 number nearest to
    it, which is what the correctly rounded quotient of the two integers is. *)
Definition dconst (n d : Z) : double := ddiv (double_of_int n) (double_of_int d).

(** Conversion of a [float] to an integer type: the fractional part is
    discarded.  C leaves the conversion of a NaN or an infinity undefined;
    the model yields 0 there. *)
Definition int_of_float (f : float) : Z :=
  match f with
  | S754_finite s m e =>
      cond_Zopp s
        match e with
        | Zneg p => Z.shiftr (Zpos m) (Zpos p)
        | _ => Z.shiftl (Zpos m) e
        end
  | _ => 0
  end.

Definition is_nan (f : float) : bool :=
  match f with S754_nan => true | _ => false end.

Definition is_zero (f : float) : bool :=
  match f with S754_zero _ => true | _ => false end.

(** ** Numeric helpers *)

(** [int d1(float f)]: integer part. *)
Definition d1 (f : float) : Z := int_of_float f.

(** [unsigned int d2(float f)]: fractional part, up to 3 positions. *)
Definition d2 (f : float) : Z :=
  if fgt f (float_of_int 0)
  then int_of_float (float_of_int 1000 * (f - float_of_int (d1 f)))%f32
  else int_of_float (float_of_int 1000 * (float_of_int (d1 f) - f))%f32.

(** [float getTemperature(void)], as a function of the value read from the
    SHT11 sensor. *)
Definition getTemperature (tempADC : Z) : float :=
  float_of_double (dsub (dmul (dconst 4 100) (double_of_int tempADC)) (dconst 396 10)).

(** [float getLight(void)], as a function of the value read from the light
    sensor. *)
Definition getLight (lightADC : Z) : float :=
  let V_sensor :=
    float_of_double (ddiv (dmul (dconst 3 2) (double_of_int lightADC)) (double_of_int 4096)) in
  let I := (V_sensor / float_of_int 100000)%f32 in
  float_of_double
    (dmul (dmul (dmul (dconst 5 8) (double_of_int 1000000)) (double_of_float I))
          (double_of_int 1000)).

(** [float sqrt(float S)]: Newton iteration from the guess 10.0, at most 50
    rounds, left as soon as [|x*x - S| < 0.001]. *)
Definition sqrt_error : float := float_of_double (dconst 1 1000).
Definition sqrt_guess : float := float_of_double (double_of_int 10).

Definition sqrt_next (S x : float) : float :=
  float_of_double (dmul (dconst 1 2) (double_of_float (x + S / x)%f32)).

Definition sqrt_difference (S x : float) : float :=
  let difference := (x * x - S)%f32 in
  if flt difference (float_of_int 0) then fneg difference else difference.

(** The loop [for (i=0; i<50; i++)] with [rounds] rounds left; the result is
    the value of [x] and the number of rounds that were run. *)
Fixpoint sqrt_loop (rounds : nat) (S x : float) (done : Z) : float * Z :=
  match rounds with
  | O => (x, done)
  | Datatypes.S rounds' =>
      let x := sqrt_next S x in
      let difference := sqrt_difference S x in
      if flt difference sqrt_error then (x, done + 1)
      else sqrt_loop rounds' S x (done + 1)
  end.

Definition sqrt (S : float) : float := fst (sqrt_loop 50 S sqrt_guess 0).

(** ** Runs over a state that may stop at an invalid array access *)

Inductive error := OutOfBounds (i : Z).

(** A run ends normally with a result, or stops at an error; in both cases
    the state reached is kept. *)
Inductive outcome (St A : Type) :=
  | Done (a : A) (s : St)
  | Fault (e : error) (s : St).
Arguments Done {St A} a s.
Arguments Fault {St A} e s.

Definition M (St A : Type) : Type := St -> outcome St A.

Definition ret {St A} (a : A) : M St A := fun s => Done a s.

Definition bind {St A B} (c : M St A) (k : A -> M St B) : M St B :=
  fun s => match c s with
           | Done a s' => k a s'
           | Fault e s' => Fault e s'
           end.

Definition get {St} : M St St := fun s => Done s s.
Definition modify {St} (f : St -> St) : M St unit := fun s => Done tt (f s).

Declare Scope prog_scope.
Delimit Scope prog_scope with prog.
Notation "x <- c ;; k" := (bind c (fun x => k))
  (at level 100, c at next level, right associativity) : prog_scope.
Notation "c ;; k" := (bind c (fun _ => k))
  (at level 100, right associativity) : prog_scope.
Open Scope prog_scope.

(** The state a run ends in. *)
Definition final {St A} (o : outcome St A) : St :=
  match o with Done _ s => s | Fault _ s => s end.

(** [for (i = lo; i < hi; i++) body], for a body that leaves [i] and the
    bound alone. *)
Fixpoint for_steps {St} (n : nat) (i : Z) (body : Z -> M St unit) : M St unit :=
  match n with
  | O => ret tt
  | Datatypes.S n' => body i ;; for_steps n' (i + 1) body
  end.

Definition for_range {St} (lo hi : Z) (body : Z -> M St unit) : M St unit :=
  for_steps (Z.to_nat (hi - lo)) lo body.

(** Checked array accesses. *)
Definition in_bounds (a : list float) (i : Z) : bool :=
  (0 <=? i) && (i <? Z.of_nat (length a)).

Definition aread (a : list float) (i : Z) : option float :=
  if in_bounds a i then a !! Z.to_nat i else None.

Definition awrite (a : list float) (i : Z) (v : float) : option (list float) :=
  if in_bounds a i then Some (<[Z.to_nat i := v]> a) else None.

(** ** The median *)

(** The array [getMedian] works on, with the indices it has accessed (most
    recent first). *)
Record tsmem := mkTs { cells : list float; touched : list Z }.

Definition ts_read (i : Z) : M tsmem float :=
  fun m => match aread (cells m) i with
           | Some v => Done v (mkTs (cells m) (i :: touched m))
           | None => Fault (OutOfBounds i) m
           end.

Definition ts_write (i : Z) (v : float) : M tsmem unit :=
  fun m => match awrite (cells m) i v with
           | Some a => Done tt (mkTs a (i :: touched m))
           | None => Fault (OutOfBounds i) m
           end.

(** The body of the inner loop: exchange [TS[i]] and [TS[j]] when they are
    out of order. *)
Definition getMedian_exchange (i j : Z) : M tsmem unit :=
  a <- ts_read i ;;
  b <- ts_read j ;;
  if fgt a b then
    intermed <- ts_read i ;;
    c <- ts_read j ;;
    ts_write i c ;;
    ts_write j intermed
  else ret tt.

(** [for (i=0;i<n-1;i++) for (j=i+1;j<=n-1;j++) ...] *)
Definition getMedian_sort (TSElementsCount : Z) : M tsmem unit :=
  for_range 0 (TSElementsCount - 1) (fun i =>
    for_range (i + 1) (TSElementsCount - 1 + 1) (fun j =>
      getMedian_exchange i j)).

(** [float getMedian(float TS[144], int TSElementsCount)] *)
Definition getMedian (TSElementsCount : Z) : M tsmem float :=
  getMedian_sort TSElementsCount ;;
  if Z.rem TSElementsCount 2 =? 0 then
    a <- ts_read (Z.quot TSElementsCount 2 - 1) ;;
    b <- ts_read (Z.quot TSElementsCount 2) ;;
    ret ((a + b) / float_of_int 2)%f32
  else
    ts_read (Z.quot TSElementsCount 2).

(** A call of [getMedian] on an array: the median and the array as the call
    leaves it, or the error. *)
Definition call_getMedian (TS : list float) (n : Z) : outcome tsmem float :=
  getMedian n (mkTs TS []).

(** ** Output *)

Inductive arg := AInt (z : Z) | AUnsigned (z : Z) | AString (s : string).

(** One call of [printf]. *)
Record call := Printf { format : string; args : list arg }.

Definition nl : string := String (ascii_of_nat 10) EmptyString.

(** [%d] *)
Definition render_int (z : Z) : string := NilZero.string_of_int (Z.to_int z).

(** [%03u]: at least three digits, padded with zeros on the left. *)
Fixpoint zeros (n : nat) : string :=
  match n with
  | O => EmptyString
  | Datatypes.S n' => String "0" (zeros n')
  end.

Definition render_u03 (z : Z) : string :=
  let digits := render_int z in
  (zeros (3 - String.length digits) ++ digits)%string.

(** The text a call prints, for the conversions the program uses. *)
Fixpoint render (format : string) (args : list arg) : string :=
  match format with
  | EmptyString => EmptyString
  | String "%" (String "d" rest) =>
      match args with
      | AInt z :: args' => (render_int z ++ render rest args')%string
      | _ => render rest args
      end
  | String "%" (String "0" (String "3" (String "u" rest))) =>
      match args with
      | AUnsigned z :: args' => (render_u03 z ++ render rest args')%string
      | _ => render rest args
      end
  | String "%" (String "s" rest) =>
      match args with
      | AString s :: args' => (s ++ render rest args')%string
      | _ => render rest args
      end
  | String c rest => String c (render rest args)
  end.

Definition render_call (c : call) : string := render (format c) (args c).

(** ** The state of the process: its static variables and the output *)

Record state := mkState {
  readcount : Z;
  B : list float;
  T : list float;
  Sum : float;
  Mean : float;
  SumofDistSquares : float;
  StdDev : float;
  AggrElementsCount : Z;
  X : list float;
  slopes : list float;
  slopes_count : Z;
  median_slope : float;
  offsets : list float;
  median_offset : float;
  EstT : list float;
  out : list call
}.

Definition set_readcount v s := mkState v (B s) (T s) (Sum s) (Mean s) (SumofDistSquares s) (StdDev s) (AggrElementsCount s) (X s) (slopes s) (slopes_count s) (median_slope s) (offsets s) (median_offset s) (EstT s) (out s).
Definition set_B v s := mkState (readcount s) v (T s) (Sum s) (Mean s) (SumofDistSquares s) (StdDev s) (AggrElementsCount s) (X s) (slopes s) (slopes_count s) (median_slope s) (offsets s) (median_offset s) (EstT s) (out s).
Definition set_T v s := mkState (readcount s) (B s) v (Sum s) (Mean s) (SumofDistSquares s) (StdDev s) (AggrElementsCount s) (X s) (slopes s) (slopes_count s) (median_slope s) (offsets s) (median_offset s) (EstT s) (out s).
Definition set_Sum v s := mkState (readcount s) (B s) (T s) v (Mean s) (SumofDistSquares s) (StdDev s) (AggrElementsCount s) (X s) (slopes s) (slopes_count s) (median_slope s) (offsets s) (median_offset s) (EstT s) (out s).
Definition set_Mean v s := mkState (readcount s) (B s) (T s) (Sum s) v (SumofDistSquares s) (StdDev s) (AggrElementsCount s) (X s) (slopes s) (slopes_count s) (median_slope s) (offsets s) (median_offset s) (EstT s) (out s).
Definition set_SumofDistSquares v s := mkState (readcount s) (B s) (T s) (Sum s) (Mean s) v (StdDev s) (AggrElementsCount s) (X s) (slopes s) (slopes_count s) (median_slope s) (offsets s) (median_offset s) (EstT s) (out s).
Definition set_StdDev v s := mkState (readcount s) (B s) (T s) (Sum s) (Mean s) (SumofDistSquares s) v (AggrElementsCount s) (X s) (slopes s) (slopes_count s) (median_slope s) (offsets s) (median_offset s) (EstT s) (out s).
Definition set_AggrElementsCount v s := mkState (readcount s) (B s) (T s) (Sum s) (Mean s) (SumofDistSquares s) (StdDev s) v (X s) (slopes s) (slopes_count s) (median_slope s) (offsets s) (median_offset s) (EstT s) (out s).
Definition set_X v s := mkState (readcount s) (B s) (T s) (Sum s) (Mean s) (SumofDistSquares s) (StdDev s) (AggrElementsCount s) v (slopes s) (slopes_count s) (median_slope s) (offsets s) (median_offset s) (EstT s) (out s).
Definition set_slopes v s := mkState (readcount s) (B s) (T s) (Sum s) (Mean s) (SumofDistSquares s) (StdDev s) (AggrElementsCount s) (X s) v (slopes_count s) (median_slope s) (offsets s) (median_offset s) (EstT s) (out s).
Definition set_slopes_count v s := mkState (readcount s) (B s) (T s) (Sum s) (Mean s) (SumofDistSquares s) (StdDev s) (AggrElementsCount s) (X s) (slopes s) v (median_slope s) (offsets s) (median_offset s) (EstT s) (out s).
Definition set_median_slope v s := mkState (readcount s) (B s) (T s) (Sum s) (Mean s) (SumofDistSquares s) (StdDev s) (AggrElementsCount s) (X s) (slopes s) (slopes_count s) v (offsets s) (median_offset s) (EstT s) (out s).
Definition set_offsets v s := mkState (readcount s) (B s) (T s) (Sum s) (Mean s) (SumofDistSquares s) (StdDev s) (AggrElementsCount s) (X s) (slopes s) (slopes_count s) (median_slope s) v (median_offset s) (EstT s) (out s).
Definition set_median_offset v s := mkState (readcount s) (B s) (T s) (Sum s) (Mean s) (SumofDistSquares s) (StdDev s) (AggrElementsCount s) (X s) (slopes s) (slopes_count s) (median_slope s) (offsets s) v (EstT s) (out s).
Definition set_EstT v s := mkState (readcount s) (B s) (T s) (Sum s) (Mean s) (SumofDistSquares s) (StdDev s) (AggrElementsCount s) (X s) (slopes s) (slopes_count s) (median_slope s) (offsets s) (median_offset s) v (out s).
Definition set_out v s := mkState (readcount s) (B s) (T s) (Sum s) (Mean s) (SumofDistSquares s) (StdDev s) (AggrElementsCount s) (X s) (slopes s) (slopes_count s) (median_slope s) (offsets s) (median_offset s) (EstT s) v.

(** Static storage starts zeroed; [readcount], [B], [T], [slopes] and
    [offsets] are initialised explicitly to the same values. *)
Definition zero : float := S754_zero false.

Definition initial_state : state :=
  mkState 0 (replicate 12 zero) (replicate 12 zero) zero zero zero zero 0
          (replicate 12 zero) (replicate 144 zero) 0 zero (replicate 12 zero) zero
          (replicate 12 zero) [].

(** [static int k = 6]: the frequency of measurement and reporting. *)
Definition k : Z := 6.

Definition printf (format : string) (args : list arg) : M state unit :=
  modify (fun s => set_out (out s ++ [Printf format args]) s).

(** [arr[i]] as a value, and [arr[i] = v], for a static array [arr]. *)
Definition load (arr : state -> list float) (i : Z) : M state float :=
  fun s => match aread (arr s) i with
           | Some v => Done v s
           | None => Fault (OutOfBounds i) s
           end.

Definition store (arr : state -> list float) (set : list float -> state -> state)
    (i : Z) (v : float) : M state unit :=
  fun s => match awrite (arr s) i v with
           | Some a => Done tt (set a s)
           | None => Fault (OutOfBounds i) s
           end.

(** [printf("%d.%03u", d1(v), d2(v))] and its variants. *)
Definition fixed_args (v : float) : list arg := [AInt (d1 v); AUnsigned (d2 v)].

(** [void printArray(char ArrName[5], float Arr[12], int ArrElementsCount)] *)
Definition printArray (ArrName : string) (Arr : state -> list float)
    (ArrElementsCount : Z) : M state unit :=
  printf (nl ++ "%s = [") [AString ArrName] ;;
  for_range 0 ArrElementsCount (fun i =>
    a <- load Arr i ;;
    b <- load Arr i ;;
    printf "%d.%03u" [AInt (d1 a); AUnsigned (d2 b)] ;;
    if i <? ArrElementsCount - 1 then printf ", " [] else ret tt) ;;
  printf ("]" ++ nl) [].

(** ** One iteration of the sampling loop *)

(** Set up [readcount] for each cycle of 12 readings. *)
Definition advance_readcount : M state unit :=
  modify (fun s =>
    if readcount s <? 12 then set_readcount (readcount s + 1) s
    else set_readcount 1 s).

(** The FIFO buffers for the light and temperature readings. *)
Definition fifo_push (light_lx temp_c : float) : M state unit :=
  for_range 0 11 (fun i =>
    b <- load B (i + 1) ;;
    store B set_B i b ;;
    t <- load T (i + 1) ;;
    store T set_T i t) ;;
  store B set_B 11 light_lx ;;
  store T set_T 11 temp_c.

(** The standard deviation of the light buffer. *)
Definition standard_deviation : M state unit :=
  modify (set_Sum (float_of_int 0)) ;;
  for_range 0 12 (fun i =>
    b <- load B i ;;
    modify (fun s => set_Sum (Sum s + b)%f32 s)) ;;
  modify (fun s => set_Mean (Sum s / float_of_int 12)%f32 s) ;;
  modify (set_SumofDistSquares (float_of_int 0)) ;;
  for_range 0 12 (fun i =>
    b <- load B i ;;
    b' <- load B i ;;
    modify (fun s =>
      set_SumofDistSquares (SumofDistSquares s + (b - Mean s) * (b' - Mean s))%f32 s)) ;;
  modify (fun s => set_StdDev (sqrt (SumofDistSquares s)) s).

(** The choice of the aggregation from [StdDev]. *)
Definition choose_aggregation : M state unit :=
  modify (fun s =>
    if flt (StdDev s) (float_of_int 100) then set_AggrElementsCount 1 s
    else if flt (StdDev s) (float_of_int 1000) then set_AggrElementsCount 3 s
    else set_AggrElementsCount 12 s).

(** [B[i0] + B[i1] + ...], summed from the left. *)
Definition load_sum (arr : state -> list float) (i0 : Z) (rest : list Z) : M state float :=
  fold_left (fun acc i => a <- acc ;; b <- load arr i ;; ret (a + b)%f32) rest (load arr i0).

Definition aggregate : M state unit :=
  (s <- get ;;
   if AggrElementsCount s =? 1 then
     t <- load_sum B 0 [1; 2; 3; 4; 5; 6; 7; 8; 9; 10; 11] ;;
     store X set_X 0 (t / float_of_int 12)%f32
   else ret tt) ;;
  (s <- get ;;
   if AggrElementsCount s =? 3 then
     t0 <- load_sum B 0 [1; 2; 3] ;;
     store X set_X 0 (t0 / float_of_int 4)%f32 ;;
     t1 <- load_sum B 4 [5; 6; 7] ;;
     store X set_X 1 (t1 / float_of_int 4)%f32 ;;
     t2 <- load_sum B 8 [9; 10; 11] ;;
     store X set_X 2 (t2 / float_of_int 4)%f32
   else ret tt) ;;
  (s <- get ;;
   if AggrElementsCount s =? 12 then
     for_range 0 12 (fun i => b <- load B i ;; store X set_X i b)
   else ret tt).

Definition measurement_header : string :=
  (nl ++ "Measurement and Reporting (Frequency = After every %d Sensor Data Reads)")%string.

(** The output of activity measurement and aggregation. *)
Definition report_measurement : M state unit :=
  printf measurement_header [AInt k] ;;
  printArray "B" B 12 ;;
  (s <- get ;; printf ("StdDev = %d.%03u" ++ nl) (fixed_args (StdDev s))) ;;
  (s <- get ;;
   if AggrElementsCount s =? 1 then printf "Aggregation = 12-into-1" []
   else if AggrElementsCount s =? 3 then printf "Aggregation = 4-into-1" []
   else if AggrElementsCount s =? 12 then printf "Aggregation = 1-into-1 (No Aggregation)" []
   else ret tt) ;;
  (s <- get ;; printArray "X" X (AggrElementsCount s)) ;;
  printf nl [].

(** The block run when [readcount==k || readcount==2*k]. *)
Definition measurement : M state unit :=
  standard_deviation ;;
  choose_aggregation ;;
  aggregate ;;
  report_measurement.

(** The body of the inner loop: the slope of the readings [i] and [j], if
    their light values differ. *)
Definition collect_pair (i j : Z) : M state unit :=
  bi <- load B i ;;
  bj <- load B j ;;
  if fne bi bj then
    tj <- load T j ;;
    ti <- load T i ;;
    bj' <- load B j ;;
    bi' <- load B i ;;
    s <- get ;;
    store slopes set_slopes (slopes_count s) ((tj - ti) / (bj' - bi'))%f32 ;;
    modify (fun s => set_slopes_count (slopes_count s + 1) s)
  else ret tt.

(** The slopes of all pairs of readings with different light values. *)
Definition collect_slopes : M state unit :=
  modify (set_slopes_count 0) ;;
  for_range 0 12 (fun i =>
    for_range (i + 1) 12 (fun j =>
      collect_pair i j)).

(** [getMedian(arr, n)] on a static array, which the call reorders. *)
Definition median_of (arr : state -> list float) (set : list float -> state -> state)
    (n : Z) : M state float :=
  fun s => match call_getMedian (arr s) n with
           | Done m ts => Done m (set (cells ts) s)
           | Fault e ts => Fault e (set (cells ts) s)
           end.

Definition regression_header : string :=
  "Linear Regression Analysis by Theil-Sen Estimator Method".

(** The output of the linear regression analysis. *)
Definition report_regression : M state unit :=
  printf regression_header [] ;;
  printf (" (Frequency = After every %d Sensor Data Reads)" ++ nl) [AInt (2 * k)] ;;
  printf ("Assumption: Temperature is dependent on Light" ++ nl) [] ;;
  printf "Light Vector (Independent Vector) B: " [] ;;
  printArray "B" B 12 ;;
  printf "Temperature Vector (Dependent Vector) T: " [] ;;
  printArray "T" T 12 ;;
  (s <- get ;; printf ("Median Slope: %d.%03u" ++ nl) (fixed_args (median_slope s))) ;;
  (s <- get ;; printf ("Median Offset: %d.%03u" ++ nl) (fixed_args (median_offset s))) ;;
  (s <- get ;;
   printf ("Linear Equation: Temperature = %d.%03u + %d.%03u * Light" ++ nl)
          (fixed_args (median_offset s) ++ fixed_args (median_slope s))) ;;
  printf "Estimated Temperature Vector EstT:" [] ;;
  printArray "EstT" EstT 12 ;;
  printf nl [].

(** [median_slope = getMedian(slopes, slopes_count)] *)
Definition take_median_slope : M state unit :=
  s <- get ;;
  m <- median_of slopes set_slopes (slopes_count s) ;;
  modify (set_median_slope m).

Definition compute_offsets : M state unit :=
  for_range 0 12 (fun i =>
    t <- load T i ;;
    b <- load B i ;;
    s <- get ;;
    store offsets set_offsets i (t - median_slope s * b)%f32).

(** [median_offset = getMedian(offsets, 12)] *)
Definition take_median_offset : M state unit :=
  m <- median_of offsets set_offsets 12 ;;
  modify (set_median_offset m).

(** The estimated temperature vector, from the linear equation. *)
Definition compute_estimates : M state unit :=
  for_range 0 12 (fun i =>
    b <- load B i ;;
    s <- get ;;
    store EstT set_EstT i (median_slope s * b + median_offset s)%f32).

(** The estimation itself: median slope, median offset, estimated
    temperatures. *)
Definition estimate : M state unit :=
  collect_slopes ;;
  take_median_slope ;;
  compute_offsets ;;
  take_median_offset ;;
  compute_estimates.

(** The block run when [readcount == 12]. *)
Definition regression : M state unit :=
  estimate ;;
  report_regression.

(** The body of [while(1)], entered when the timer event arrives, as a
    function of the values the two sensors deliver. *)
Definition sensor_reading_step (lightADC tempADC : Z) : M state unit :=
  let temp_c := getTemperature tempADC in
  let light_lx := getLight lightADC in
  advance_readcount ;;
  fifo_push light_lx temp_c ;;
  printf "Light: %d.%03u lx, " (fixed_args light_lx) ;;
  printf ("Temp: %d.%03u C" ++ nl) (fixed_args temp_c) ;;
  (s <- get ;;
   if (readcount s =? k) || (readcount s =? 2 * k) then measurement else ret tt) ;;
  (s <- get ;;
   if readcount s =? 12 then regression else ret tt).

(** The process on a sequence of sensor readings (light, temperature),
    from the initial state; it stops at the first error. *)
Fixpoint run_from (s : state) (readings : list (Z * Z)) : outcome state unit :=
  match readings with
  | [] => Done tt s
  | (lightADC, tempADC) :: rest =>
      match sensor_reading_step lightADC tempADC s with
      | Done _ s' => run_from s' rest
      | Fault e s' => Fault e s'
      end
  end.

Definition sensor_reading_process (readings : list (Z * Z)) : outcome state unit :=
  run_from initial_state readings.

(** * Vocabulary of the properties *)

(** A state to try the properties on: the light readings 1..12 with the
    temperatures 2, 4, ..., 24. *)
Definition sample_state : state :=
  set_B (map float_of_int [1; 2; 3; 4; 5; 6; 7; 8; 9; 10; 11; 12])
    (set_T (map float_of_int [2; 4; 6; 8; 10; 12; 14; 16; 18; 20; 22; 24]) initial_state).



(** The line printed for a temperature reading. *)
Definition temperature_line (temp_c : float) : string :=
  render_call (Printf ("Temp: %d.%03u C" ++ nl) (fixed_args temp_c)).

(** Numbers other than NaN are ordered by the comparison of C as their keys
    are ordered lexicographically: the class (negative infinity, negative,
    zero, positive, positive infinity), then exponent and mantissa, both
    negated for a negative number. *)
Definition key (f : float) : Z * Z * Z :=
  match f with
  | S754_nan => (0, 0, 0)
  | S754_zero _ => (0, 0, 0)
  | S754_infinity true => (-2, 0, 0)
  | S754_infinity false => (2, 0, 0)
  | S754_finite true m e => (-1, - e, Zneg m)
  | S754_finite false m e => (1, e, Zpos m)
  end.

(** The lexicographic comparison of two keys, and the two orders it
    decides. *)
Definition key_compare (x y : Z * Z * Z) : comparison :=
  match x.1.1 ?= y.1.1 with
  | Eq => match x.1.2 ?= y.1.2 with
          | Eq => x.2 ?= y.2
          | c => c
          end
  | c => c
  end.

Definition key_lt (x y : Z * Z * Z) : Prop :=
  x.1.1 < y.1.1 \/ (x.1.1 = y.1.1 /\ (x.1.2 < y.1.2 \/ (x.1.2 = y.1.2 /\ x.2 < y.2))).

Definition key_le (x y : Z * Z * Z) : Prop :=
  x.1.1 < y.1.1 \/ (x.1.1 = y.1.1 /\ (x.1.2 < y.1.2 \/ (x.1.2 = y.1.2 /\ x.2 <= y.2))).

(** Two numbers with the same key are the same number, or two zeros. *)
Definition same_value (a b : float) : Prop :=
  a = b \/ (is_zero a = true /\ is_zero b = true).

(** The dispersion of a window as the design document writes it. *)
Definition window_sum (w : list float) : float := fold_left fadd w (float_of_int 0).

Definition window_mean (w : list float) : float := (window_sum w / float_of_int 12)%f32.

Definition squared_deviations (w : list float) : float :=
  let mean := window_mean w in
  fold_left (fun acc x => (acc + (x - mean) * (x - mean))%f32) w (float_of_int 0).

Definition dispersion (w : list float) : float := sqrt (squared_deviations w).

(** The mean of a group of readings, summed from the left. *)
Definition mean_of (w : list float) : float :=
  match w with
  | [] => zero
  | x :: rest => (fold_left fadd rest x / float_of_int (Z.of_nat (length w)))%f32
  end.

(** The number of aggregated elements chosen for a dispersion. *)
Definition tier (sd : float) : Z :=
  AggrElementsCount (final (choose_aggregation (set_StdDev sd initial_state))).

(** The effect of the inner loop body on the array. *)
Definition exchange (a : list float) (i j : nat) : list float :=
  match a !! i, a !! j with
  | Some x, Some y => if fgt x y then <[j := x]> (<[i := y]> a) else a
  | _, _ => a
  end.

(** The index at which the element now at [k] was before [i] and [j] were
    exchanged. *)
Definition swap_index (i j k : nat) : nat :=
  if decide (k = i) then j else if decide (k = j) then i else k.

(** The element at [p] is not above the element at [q]. *)
Definition le_at (a : list float) (p q : nat) : Prop :=
  forall x y, a !! p = Some x -> a !! q = Some y -> key_le (key x) (key y).

(** The first [i] elements are in their final place: each is not above any
    element that follows it among the first [n]. *)
Definition ordered_upto (a : list float) (i n : nat) : Prop :=
  forall p q, (p < i)%nat -> (p < q < n)%nat -> le_at a p q.

(** The element at [i] is not above the elements between [i] and [j]. *)
Definition least_upto (a : list float) (i j : nat) : Prop :=
  forall q, (i < q < j)%nat -> le_at a i q.

(** Ascending order of the comparison. *)
Definition ascending (l : list float) : Prop :=
  StronglySorted (fun x y => key_le (key x) (key y)) l.

(** What the two loops of the sort keep, for the array [a0] and the accesses
    [log0] they start from: the accesses stay below [n], the first [n]
    elements are rearranged and the others left alone, and, when no element
    is a NaN, the elements before [i] are in place and the one at [i] is the
    least up to [j]. *)
Definition sort_inv (a0 : list float) (log0 : list Z) (n : nat) (i j : nat)
    (m : tsmem) : Prop :=
  (exists log, touched m = log ++ log0 /\ Forall (fun k => 0 <= k < Z.of_nat n) log) /\
  length (cells m) = length a0 /\
  take n (cells m) ≡ₚ take n a0 /\
  drop n (cells m) = drop n a0 /\
  (Forall (fun x => is_nan x = false) (take n a0) ->
   ordered_upto (cells m) i n /\ least_upto (cells m) i j).

(** The middle of the first [n] elements: for an even [n] the average of the
    elements at [n/2 - 1] and [n/2], for an odd [n] the element at [n/2]. *)
Definition middle (a : list float) (n : Z) : float :=
  if Z.even n then
    ((nth (Z.to_nat (n / 2 - 1)) a zero + nth (Z.to_nat (n / 2)) a zero) / float_of_int 2)%f32
  else nth (Z.to_nat (n / 2)) a zero.

(** The value a run returns, if it ends normally. *)
Definition returned {St A} (o : outcome St A) : option A :=
  match o with Done a _ => Some a | Fault _ _ => None end.

(** C5 as stated, for every array: the result does not depend on the order
    of the elements. *)
Definition median_permutation_invariant : Prop :=
  forall (TS TS' : list float) (m m' : float),
    TS ≡ₚ TS' ->
    returned (call_getMedian TS (Z.of_nat (length TS))) = Some m ->
    returned (call_getMedian TS' (Z.of_nat (length TS'))) = Some m' ->
    feq m m' = true.

(** The slope of the pair [(i, j)], if the two light values differ. *)
Definition pair_slope (light temp : list float) (i j : Z) : list float :=
  let bi := nth (Z.to_nat i) light zero in
  let bj := nth (Z.to_nat j) light zero in
  if fne bi bj then
    [((nth (Z.to_nat j) temp zero - nth (Z.to_nat i) temp zero) / (bj - bi))%f32]
  else [].

(** The slopes of the pairs [(i, j)] with [i < j < 12], and of all pairs
    with [i < j] in [0, 12), in the order of the two loops. *)
Definition row_slopes (light temp : list float) (i : Z) : list float :=
  flat_map (pair_slope light temp i) (seqZ (i + 1) (12 - (i + 1))).

Definition pair_slopes (light temp : list float) : list float :=
  flat_map (row_slopes light temp) (seqZ 0 12).

(** The slopes collected when the inner loop is about to handle [(i, j)]. *)
Definition collected (light temp : list float) (i j : Z) : list float :=
  flat_map (row_slopes light temp) (seqZ 0 i)
  ++ flat_map (pair_slope light temp i) (seqZ (i + 1) (j - (i + 1))).

(** The state in which the slopes [acc] have been stored at the beginning
    of [slopes]. *)
Definition with_slopes (s : state) (acc : list float) : state :=
  set_slopes_count (Z.of_nat (length acc))
    (set_slopes (acc ++ drop (length acc) (slopes s)) s).

(** The offsets [temp[i] - slope * light[i]] and the estimates
    [slope * light[i] + offset]. *)
Definition offsets_of (slope : float) (light temp : list float) : list float :=
  zip_with (fun t b => (t - slope * b)%f32) temp light.

Definition predicted (slope offset : float) (light : list float) : list float :=
  map (fun b => (slope * b + offset)%f32) light.

(** The state after the median slope and after the whole estimation. *)
Definition with_median_slope (s : state) (slope : float) (ts : tsmem) : state :=
  set_median_slope slope
    (set_slopes (cells ts) (with_slopes s (pair_slopes (B s) (T s)))).

Definition with_estimate (s : state) (slope : float) (ts : tsmem)
    (offset : float) (ts' : tsmem) : state :=
  let s1 := with_median_slope s slope ts in
  set_EstT (predicted slope offset (B s))
    (set_median_offset offset
      (set_offsets (cells ts')
        (set_offsets (offsets_of slope (B s) (T s)) s1))).

(** The state after more calls of [printf]. *)
Definition appended (s : state) (new : list call) : state := set_out (out s ++ new) s.

(** The format strings of [printArray], of the measurement report after its
    header, and of the line of a sample. *)
Definition array_formats : list string :=
  [(nl ++ "%s = [")%string; "%d.%03u"%string; ", "%string; ("]" ++ nl)%string].

(** Calls of [printf] whose format strings are all among [allowed]. *)
Definition formats_in (allowed : list string) (new : list call) : Prop :=
  Forall (fun c => In (format c) allowed) new.

Definition measurement_formats : list string :=
  [("StdDev = %d.%03u" ++ nl)%string; "Aggregation = 12-into-1"%string;
   "Aggregation = 4-into-1"%string; "Aggregation = 1-into-1 (No Aggregation)"%string; nl]
  ++ array_formats.

(** The buffers and arrays have the sizes they are declared with. *)
Definition well_formed (s : state) : Prop :=
  length (B s) = 12%nat /\ length (T s) = 12%nat /\ length (X s) = 12%nat /\
  length (slopes s) = 144%nat /\ length (offsets s) = 12%nat /\ length (EstT s) = 12%nat.

(** The formats of the calls of [printf] made between two states. *)
Definition emitted (s s' : state) : list string :=
  map format (drop (length (out s)) (out s')).

Definition sample_formats : list string :=
  ["Light: %d.%03u lx, "%string; ("Temp: %d.%03u C" ++ nl)%string].

(** The states the process is in when the timer event arrives: those it
    reaches from the initial state on some sequence of sensor readings. *)
Definition reachable (s : state) : Prop :=
  exists readings, sensor_reading_process readings = Done tt s.

(** The state after the counter, the two buffers and the line of the sample
    have been handled. *)
Definition advanced (s : state) : state :=
  if readcount s <? 12 then set_readcount (readcount s + 1) s else set_readcount 1 s.

Definition sampled (s : state) (lightADC tempADC : Z) : state :=
  appended
    (set_T (drop 1 (T s) ++ [getTemperature tempADC])
       (set_B (drop 1 (B s) ++ [getLight lightADC]) (advanced s)))
    [Printf "Light: %d.%03u lx, " (fixed_args (getLight lightADC));
     Printf ("Temp: %d.%03u C" ++ nl) (fixed_args (getTemperature tempADC))].

(** The last 12 values of a channel after the given readings, on top of the
    zeros the buffers start with. *)
Definition light_window (readings : list (Z * Z)) : list float :=
  drop (length readings) (replicate 12 zero ++ map (fun r => getLight r.1) readings).

Definition temperature_window (readings : list (Z * Z)) : list float :=
  drop (length readings) (replicate 12 zero ++ map (fun r => getTemperature r.2) readings).

(** No two of the 12 values of a window differ. *)
Definition flat_window (w : list float) : Prop :=
  forall i j, 0 <= i < j -> j < 12 ->
    fne (nth (Z.to_nat i) w zero) (nth (Z.to_nat j) w zero) = false.

(** What [printArray] prints for a list of values: the opening with the
    name, the values as I.FFF with ", " between them, and the closing. *)
Definition number_call (v : float) : call :=
  Printf "%d.%03u" [AInt (d1 v); AUnsigned (d2 v)].

Definition separator_call : call := Printf ", " [].

Definition element_calls (values : list float) : list call :=
  match values with
  | [] => []
  | v :: rest => number_call v :: flat_map (fun w => [separator_call; number_call w]) rest
  end.

Definition array_calls (name : string) (values : list float) : list call :=
  Printf (nl ++ "%s = [") [AString name] :: element_calls values ++ [Printf ("]" ++ nl) []].

(** The whole text of a list of calls. *)
Definition render_all (calls : list call) : string :=
  fold_right (fun c text => (render_call c ++ text)%string) EmptyString calls.

(** The rational number a finite [float] stands for. *)
Definition exact (f : float) : Q :=
  match f with
  | S754_finite s m e =>
      let magnitude :=
        match e with
        | Zneg p => Qmake (Zpos m) (2 ^ p)%positive
        | _ => inject_Z (Zpos m * 2 ^ e)
        end in
      if s then Qopp magnitude else magnitude
  | _ => 0%Q
  end.

(** The number, in thousandths, that the text printed by ["%d.%03u"] for an
    integer part [i] and a fraction [f] of three digits denotes. *)
Definition printed_thousandths (i f : Z) : Z :=
  if i <? 0 then 1000 * i - f else 1000 * i + f.

(** The printed I.FFF of a value is less than one thousandth away from it. *)
Definition printed_close (v : float) : Prop :=
  (Qabs (inject_Z 1000 * exact v - inject_Z (printed_thousandths (d1 v) (d2 v)))
   < inject_Z 1)%Q.

Definition printed_close_with (v : float) (i f : Z) : bool :=
  negb (Qle_bool (inject_Z 1)
          (Qabs (inject_Z 1000 * exact v - inject_Z (printed_thousandths i f)))).

Definition printed_close_dec (v : float) : bool := printed_close_with v (d1 v) (d2 v).

(** Every value of a list is below the next one. *)
Fixpoint increasing (values : list float) : bool :=
  match values with
  | [] => true
  | x :: rest =>
      match rest with
      | [] => true
      | y :: _ => flt x y && increasing rest
      end
  end.

(** The values of the 12-bit converters. *)
Definition adc_values : list Z := seqZ 0 4096.

(** The array after the inner loop of [getMedian] for the position [i] has
    compared it with the positions [lo .. hi - 1], and after the whole sort
    of the first [n] elements. *)
Definition exchange_row (a : list float) (i lo hi : Z) : list float :=
  fold_left (fun acc j => exchange acc (Z.to_nat i) (Z.to_nat j)) (seqZ lo (hi - lo)) a.

Definition exchange_sort (a : list float) (n : Z) : list float :=
  fold_left (fun acc i => exchange_row acc i (i + 1) (n - 1 + 1)) (seqZ 0 (n - 1)) a.

(** What the measurement block prints for a window of light values. *)
Definition measurement_calls (window : list float) : list call :=
  let sd := dispersion window in
  Printf measurement_header [AInt k]
  :: array_calls "B" window
  ++ Printf ("StdDev = %d.%03u" ++ nl) (fixed_args sd)
  :: (if flt sd (float_of_int 100) then
        Printf "Aggregation = 12-into-1" [] :: array_calls "X" [mean_of window]
      else if flt sd (float_of_int 1000) then
        Printf "Aggregation = 4-into-1" []
        :: array_calls "X" [mean_of (take 4 window); mean_of (take 4 (drop 4 window));
                            mean_of (take 4 (drop 8 window))]
      else
        Printf "Aggregation = 1-into-1 (No Aggregation)" [] :: array_calls "X" window)
  ++ [Printf nl []].

Definition aggregation_calls (count : Z) : list call :=
  if count =? 1 then [Printf "Aggregation = 12-into-1" []]
  else if count =? 3 then [Printf "Aggregation = 4-into-1" []]
  else if count =? 12 then [Printf "Aggregation = 1-into-1 (No Aggregation)" []]
  else [].

(** The median [getMedian] returns for a whole list. *)
Definition median_value (l : list float) : float :=
  match returned (call_getMedian l (Z.of_nat (length l))) with
  | Some m => m
  | None => zero
  end.

(** The line fitted to a window of light values and a window of temperatures. *)
Definition theil_sen_slope (light temp : list float) : float :=
  median_value (pair_slopes light temp).

Definition theil_sen_offset (light temp : list float) : float :=
  median_value (offsets_of (theil_sen_slope light temp) light temp).

(** What the regression block prints. *)
Definition regression_report (light temp : list float) (slope offset : float)
    (estimates : list float) : list call :=
  [Printf regression_header [];
   Printf (" (Frequency = After every %d Sensor Data Reads)" ++ nl) [AInt (2 * k)];
   Printf ("Assumption: Temperature is dependent on Light" ++ nl) [];
   Printf "Light Vector (Independent Vector) B: " []]
  ++ array_calls "B" light
  ++ [Printf "Temperature Vector (Dependent Vector) T: " []]
  ++ array_calls "T" temp
  ++ [Printf ("Median Slope: %d.%03u" ++ nl) (fixed_args slope);
      Printf ("Median Offset: %d.%03u" ++ nl) (fixed_args offset);
      Printf ("Linear Equation: Temperature = %d.%03u + %d.%03u * Light" ++ nl)
             (fixed_args offset ++ fixed_args slope);
      Printf "Estimated Temperature Vector EstT:" []]
  ++ array_calls "EstT" estimates
  ++ [Printf nl []].

Definition regression_calls (light temp : list float) : list call :=
  let slope := theil_sen_slope light temp in
  let offset := theil_sen_offset light temp in
  regression_report light temp slope offset (predicted slope offset light).

(** What the process prints at its [i]-th sample, the first one being
    number 1: the two values read, then the reports that are due. *)
Definition sample_calls (r : Z * Z) : list call :=
  [Printf "Light: %d.%03u lx, " (fixed_args (getLight r.1));
   Printf ("Temp: %d.%03u C" ++ nl) (fixed_args (getTemperature r.2))].

Definition report_calls (i : Z) (light temp : list float) : list call :=
  (if (i mod 12 =? 6) || (i mod 12 =? 0) then measurement_calls light else [])
  ++ (if i mod 12 =? 0 then regression_calls light temp else []).

Definition calls_at (readings : list (Z * Z)) (i : nat) : list call :=
  match readings !! (i - 1)%nat with
  | Some r =>
      sample_calls r
      ++ report_calls (Z.of_nat i) (light_window (take i readings))
           (temperature_window (take i readings))
  | None => []
  end.

Definition process_calls (readings : list (Z * Z)) : list call :=
  flat_map (calls_at readings) (seq 1 (length readings)).

(** The readings of a block have the same light value. *)
Definition same_light (block : list (Z * Z)) : Prop :=
  forall r r', In r block -> In r' block -> r.1 = r'.1.

(** C2 as stated, for any two parallel 12-element vectors: the engine
    yields the estimates. *)
Definition theil_sen_on_any_vectors : Prop :=
  forall s : state,
    length (B s) = 12%nat -> length (T s) = 12%nat -> length (slopes s) = 144%nat ->
    length (offsets s) = 12%nat -> length (EstT s) = 12%nat ->
    exists s',
      estimate s = Done tt s' /\
      EstT s' = predicted (median_slope s') (median_offset s') (B s).

(** A state whose twelve light values are the same. *)
Definition flat_state : state :=
  set_B (replicate 12 (float_of_int 5)) sample_state.

(** * Properties *)

(** The arithmetic is kept folded while runs are evaluated on symbolic
    buffers. *)
#[global] Opaque fadd fsub fmul fdiv fneg flt fle feq fgt fne float_of_int sqrt d1 d2.

(** ** Loops *)

Lemma for_range_empty {St} (lo hi : Z) (body : Z -> M St unit) (s : St) :
  hi <= lo -> for_range lo hi body s = Done tt s.
Proof.
  intros Hle. unfold for_range.
  replace (Z.to_nat (hi - lo)) with O by lia. reflexivity.
Qed.

(** A loop whose body keeps an invariant and never stops at an error runs
    to its end and establishes the invariant at the bound. *)
Lemma for_range_invariant {St} (Inv : Z -> St -> Prop) (lo hi : Z)
    (body : Z -> M St unit) (s : St) :
  lo <= hi ->
  Inv lo s ->
  (forall i t, lo <= i < hi -> Inv i t -> exists t', body i t = Done tt t' /\ Inv (i + 1) t') ->
  exists s', for_range lo hi body s = Done tt s' /\ Inv hi s'.
Proof.
  intros Hle Hinit Hstep. unfold for_range.
  remember (Z.to_nat (hi - lo)) as n eqn:Hn.
  revert lo s Hle Hinit Hstep Hn.
  induction n as [|n IH]; intros lo s Hle Hinit Hstep Hn.
  - assert (lo = hi) by lia. subst lo. exists s. split; [reflexivity | assumption].
  - destruct (Hstep lo s) as (t' & Hbody & Hinv); [lia | assumption |].
    destruct (IH (lo + 1) t') as (s' & Hrun & Hfin); [lia | assumption | | lia |].
    + intros i t Hi. apply Hstep. lia.
    + exists s'. split; [| assumption].
      simpl. unfold bind. rewrite Hbody. exact Hrun.
Qed.

Lemma bind_done {St A B} (c : M St A) (k : A -> M St B) (s s' : St) (a : A) :
  c s = Done a s' -> bind c k s = k a s'.
Proof. intros Hc. unfold bind. rewrite Hc. reflexivity. Qed.

(** ** Arrays *)

Lemma aread_Some (a : list float) (i : Z) (v : float) :
  aread a i = Some v <-> 0 <= i < Z.of_nat (length a) /\ a !! Z.to_nat i = Some v.
Proof.
  unfold aread, in_bounds.
  destruct (0 <=? i) eqn:H0; destruct (i <? Z.of_nat (length a)) eqn:H1; simpl;
    split; try (intros [? ?]; lia); try discriminate; intros; intuition lia.
Qed.

Lemma aread_in (a : list float) (i : Z) :
  0 <= i < Z.of_nat (length a) -> exists v, aread a i = Some v.
Proof.
  intros Hi. destruct (lookup_lt_is_Some_2 a (Z.to_nat i)) as [v Hv]; [lia |].
  exists v. apply aread_Some. auto.
Qed.

Lemma awrite_in (a : list float) (i : Z) (v : float) :
  0 <= i < Z.of_nat (length a) -> awrite a i v = Some (<[Z.to_nat i := v]> a).
Proof.
  intros Hi. unfold awrite, in_bounds.
  destruct (0 <=? i) eqn:H0; destruct (i <? Z.of_nat (length a)) eqn:H1; simpl;
    try reflexivity; lia.
Qed.

(** A list of known length is the list of its elements. *)
Ltac explode l H :=
  repeat (destruct l as [| ? l]; [discriminate H |]);
  destruct l; [| discriminate H]; clear H.

(** ** The FIFO buffers *)

Lemma small_index (i : Z) :
  0 <= i <= 10 ->
  i = 0 \/ i = 1 \/ i = 2 \/ i = 3 \/ i = 4 \/ i = 5 \/ i = 6 \/ i = 7 \/ i = 8 \/ i = 9 \/ i = 10.
Proof. lia. Qed.

(** C7. For every state of the two 12-element buffers and every pair of new
    readings, the push runs to its end, both buffers keep 12 elements, every
    element at [i] in [0,10] is the former element at [i+1], and the element
    at 11 is the value pushed, for the light and for the temperature
    buffer. *)
Theorem fifo_push_shifts (s : state) (light_lx temp_c : float) :
  length (B s) = 12%nat ->
  length (T s) = 12%nat ->
  exists s',
    fifo_push light_lx temp_c s = Done tt s' /\
    length (B s') = 12%nat /\ length (T s') = 12%nat /\
    (forall i, 0 <= i <= 10 -> aread (B s') i = aread (B s) (i + 1)) /\
    aread (B s') 11 = Some light_lx /\
    (forall i, 0 <= i <= 10 -> aread (T s') i = aread (T s) (i + 1)) /\
    aread (T s') 11 = Some temp_c.
Proof.
  intros HB HT. destruct s as [rc b t ? ? ? ? ? ? ? ? ? ? ? ? ?]. simpl in HB, HT.
  explode b HB. explode t HT.
  eexists. split; [vm_compute; reflexivity |]. simpl.
  repeat split; try reflexivity;
    intros i Hi; apply small_index in Hi;
    repeat (destruct Hi as [-> | Hi]; [reflexivity |]); subst i; reflexivity.
Qed.

Lemma fifo_push_shifts_witness :
  exists s',
    fifo_push zero zero sample_state = Done tt s' /\
    length (B s') = 12%nat /\ length (T s') = 12%nat /\
    (forall i, 0 <= i <= 10 -> aread (B s') i = aread (B sample_state) (i + 1)) /\
    aread (B s') 11 = Some zero /\
    (forall i, 0 <= i <= 10 -> aread (T s') i = aread (T sample_state) (i + 1)) /\
    aread (T s') 11 = Some zero.
Proof.
  apply (fifo_push_shifts sample_state zero zero); reflexivity.
Defined.

(** ** The square root *)





(** The routine on 16, on 2 and on 0: four, five and nine rounds. *)
Example sqrt_examples :
  sqrt_loop 50 (float_of_int 16) sqrt_guess 0 = (S754_finite false 8388630 (-21), 4) /\
  sqrt_loop 50 (float_of_int 2) sqrt_guess 0 = (S754_finite false 11865901 (-23), 5) /\
  sqrt_loop 50 (float_of_int 0) sqrt_guess 0 = (S754_finite false 10485760 (-29), 9).
Proof. vm_compute. auto. Qed.

(** ** The I.FFF rendering *)

(** C9 fails on the program: the reading 978 of the temperature sensor is
    the negative temperature -0.48 C, and the line printed for it is
    "Temp: 0.480 C", without a sign, because the sign is carried by the integer
    part alone, which is 0.  The first iteration of the process on this
    reading prints that line. *)
Theorem negative_fraction_loses_sign :
  flt (getTemperature 978) (float_of_int 0) = true /\
  d1 (getTemperature 978) = 0 /\
  d2 (getTemperature 978) = 480 /\
  temperature_line (getTemperature 978) = ("Temp: 0.480 C" ++ nl)%string /\
  map render_call (out (final (sensor_reading_process [(100, 978)])))
  = ["Light: 228.881 lx, "%string; ("Temp: 0.480 C" ++ nl)%string].
Proof. vm_compute. auto. Qed.

(** A temperature below -1 keeps its sign: the reading 905 is -3.4 C. *)
Example negative_integer_part_keeps_sign :
  temperature_line (getTemperature 905) = ("Temp: -3.400 C" ++ nl)%string.
Proof. vm_compute. reflexivity. Qed.

(** ** The order of the comparisons *)

Lemma key_compare_spec (x y : Z * Z * Z) :
  match key_compare x y with
  | Lt => key_lt x y
  | Eq => x = y
  | Gt => key_lt y x
  end.
Proof.
  destruct x as [[a b] c], y as [[a' b'] c']. unfold key_compare, key_lt. simpl.
  destruct (Z.compare_spec a a'); destruct (Z.compare_spec b b');
    destruct (Z.compare_spec c c'); subst; try reflexivity; lia.
Qed.

Lemma SFcompare_key (a b : float) :
  is_nan a = false -> is_nan b = false ->
  SFcompare a b = Some (key_compare (key a) (key b)).
Proof.
  intros Ha Hb.
  destruct a as [sa | sa | | sa ma ea]; try discriminate;
    destruct b as [sb | sb | | sb mb eb]; try discriminate;
    try (destruct sa; destruct sb; reflexivity);
    try (destruct sa; reflexivity); try (destruct sb; reflexivity).
  destruct sa, sb; try reflexivity; unfold key_compare; simpl.
  rewrite Z.compare_opp, (Z.compare_antisym ea eb).
  destruct (ea ?= eb); reflexivity.
Qed.

Lemma flt_true (a b : float) :
  flt a b = true <-> is_nan a = false /\ is_nan b = false /\ key_lt (key a) (key b).
Proof.
  with_strategy transparent [flt] (unfold flt, SFltb).
  destruct (is_nan a) eqn:Ha.
  { destruct a; try discriminate. simpl. split; [discriminate | intros [? _]; discriminate]. }
  destruct (is_nan b) eqn:Hb.
  { destruct b; try discriminate. destruct a; simpl;
      (split; [discriminate | intros (_ & ? & _); discriminate]). }
  rewrite (SFcompare_key a b Ha Hb).
  pose proof (key_compare_spec (key a) (key b)) as Hspec.
  destruct (key_compare (key a) (key b)); split; try discriminate; auto.
  - intros (_ & _ & Hlt). rewrite Hspec in Hlt. unfold key_lt in Hlt. lia.
  - intros (_ & _ & Hlt). unfold key_lt in *. lia.
Qed.

Lemma fle_true (a b : float) :
  fle a b = true <-> is_nan a = false /\ is_nan b = false /\ key_le (key a) (key b).
Proof.
  with_strategy transparent [fle] (unfold fle, SFleb).
  destruct (is_nan a) eqn:Ha.
  { destruct a; try discriminate. simpl. split; [discriminate | intros [? _]; discriminate]. }
  destruct (is_nan b) eqn:Hb.
  { destruct b; try discriminate. destruct a; simpl;
      (split; [discriminate | intros (_ & ? & _); discriminate]). }
  rewrite (SFcompare_key a b Ha Hb).
  pose proof (key_compare_spec (key a) (key b)) as Hspec.
  destruct (key_compare (key a) (key b)); split; try discriminate; auto.
  - intros _. rewrite Hspec. unfold key_le. repeat split; lia.
  - intros _. unfold key_lt, key_le in *. repeat split; auto. lia.
  - intros (_ & _ & Hle). unfold key_lt, key_le in *. lia.
Qed.

Lemma fgt_true (a b : float) :
  fgt a b = true <-> is_nan a = false /\ is_nan b = false /\ key_lt (key b) (key a).
Proof.
  with_strategy transparent [fgt flt] (change (fgt a b) with (flt b a)).
  rewrite flt_true. intuition.
Qed.

(** Without NaN, [a > b] is false exactly when [a <= b]. *)
Lemma fgt_false (a b : float) :
  is_nan a = false -> is_nan b = false ->
  fgt a b = false <-> key_le (key a) (key b).
Proof.
  intros Ha Hb. destruct (fgt a b) eqn:Hgt.
  - apply fgt_true in Hgt as (_ & _ & Hlt). unfold key_lt, key_le in *.
    split; [discriminate | lia].
  - split; [intros _ | reflexivity].
    destruct (Z.lt_total (key a).1.1 (key b).1.1) as [? | [? | ?]];
      destruct (Z.lt_total (key a).1.2 (key b).1.2) as [? | [? | ?]];
      destruct (Z.le_gt_cases (key a).2 (key b).2);
      unfold key_le; try lia;
      exfalso; assert (fgt a b = true) as Hc
        by (apply fgt_true; unfold key_lt; repeat split; auto; lia);
      congruence.
Qed.

Lemma key_le_trans (x y z : Z * Z * Z) : key_le x y -> key_le y z -> key_le x z.
Proof. unfold key_le. lia. Qed.

Lemma key_le_antisym (x y : Z * Z * Z) : key_le x y -> key_le y x -> x = y.
Proof.
  destruct x as [[a b] c], y as [[a' b'] c']. unfold key_le. simpl.
  intros H1 H2. assert (a = a' /\ b = b' /\ c = c') as (-> & -> & ->) by lia.
  reflexivity.
Qed.

Lemma key_lt_le (x y : Z * Z * Z) : key_lt x y -> key_le x y.
Proof. unfold key_lt, key_le. lia. Qed.

#[global] Instance key_le_transitive : Transitive key_le.
Proof. intros x y z. apply key_le_trans. Qed.

#[global] Instance key_le_antisymmetric : AntiSymm (=) key_le.
Proof. intros x y. apply key_le_antisym. Qed.

Lemma key_inj (a b : float) :
  is_nan a = false -> is_nan b = false -> key a = key b -> same_value a b.
Proof.
  intros Ha Hb Hk. unfold same_value.
  destruct a as [sa | [] | | [] ma ea]; try discriminate;
    destruct b as [sb | [] | | [] mb eb]; try discriminate; simpl in Hk;
    try discriminate Hk;
    try (right; split; reflexivity); try (left; reflexivity);
    injection Hk as He Hm; left; f_equal; lia.
Qed.

(** ** Activity measurement *)

Lemma standard_deviation_run (s : state) :
  length (B s) = 12%nat ->
  standard_deviation s =
    Done tt (set_StdDev (dispersion (B s))
              (set_SumofDistSquares (squared_deviations (B s))
                (set_Mean (window_mean (B s))
                  (set_Sum (window_sum (B s)) s)))).
Proof.
  intros HB. destruct s as [rc b t ? ? ? ? ? ? ? ? ? ? ? ? ?]. simpl in HB.
  explode b HB. cbv. reflexivity.
Qed.

(** C1. For every 12-element light window the dispersion computed is
    [sqrt(sum((x-mean)^2))] with [mean = sum(window)/12]: the square root of
    the sum of the squared deviations, which is not divided by the number of
    elements.  On six readings 0 and six readings 2 the mean is 1, the sum
    of the squared deviations is 12, and the dispersion is [sqrt(12)]. *)
Theorem dispersion_is_root_of_sum_of_squares (s : state) :
  length (B s) = 12%nat ->
  (exists s',
    standard_deviation s = Done tt s' /\
    Mean s' = (fold_left fadd (B s) (float_of_int 0) / float_of_int 12)%f32 /\
    StdDev s' =
      sqrt (fold_left (fun acc x => (acc + (x - Mean s') * (x - Mean s'))%f32)
                      (B s) (float_of_int 0))) /\
  let w := map float_of_int [0; 0; 0; 0; 0; 0; 2; 2; 2; 2; 2; 2] in
  window_mean w = float_of_int 1 /\
  squared_deviations w = float_of_int 12 /\
  dispersion w = sqrt (float_of_int 12).
Proof.
  intros HB. split.
  - eexists. split; [apply standard_deviation_run; exact HB |].
    split; reflexivity.
  - vm_compute. auto.
Qed.

Lemma dispersion_is_root_of_sum_of_squares_witness :
  (exists s',
    standard_deviation sample_state = Done tt s' /\
    Mean s' = (fold_left fadd (B sample_state) (float_of_int 0) / float_of_int 12)%f32 /\
    StdDev s' =
      sqrt (fold_left (fun acc x => (acc + (x - Mean s') * (x - Mean s'))%f32)
                      (B sample_state) (float_of_int 0))) /\
  let w := map float_of_int [0; 0; 0; 0; 0; 0; 2; 2; 2; 2; 2; 2] in
  window_mean w = float_of_int 1 /\
  squared_deviations w = float_of_int 12 /\
  dispersion w = sqrt (float_of_int 12).
Proof.
  apply (dispersion_is_root_of_sum_of_squares sample_state). reflexivity.
Defined.

Lemma fle_flt_false (a b : float) : fle a b = true -> flt b a = true -> False.
Proof.
  rewrite fle_true, flt_true. unfold key_le, key_lt. intros (_ & _ & H1) (_ & _ & H2). lia.
Qed.

Lemma flt_fle_trans (a b c : float) : flt a b = true -> fle b c = true -> flt a c = true.
Proof.
  rewrite fle_true, !flt_true. unfold key_le, key_lt.
  intros (? & _ & H1) (_ & ? & H2). repeat split; auto. lia.
Qed.

Lemma flt_asym (a b : float) : flt a b = true -> flt b a = true -> False.
Proof.
  rewrite !flt_true. unfold key_lt. intros (_ & _ & H1) (_ & _ & H2). lia.
Qed.

(** ** Aggregation *)

Lemma choose_aggregate_run (s : state) :
  length (B s) = 12%nat ->
  length (X s) = 12%nat ->
  (choose_aggregation ;; aggregate) s =
    Done tt
      (if flt (StdDev s) (float_of_int 100) then
         set_X (<[0%nat := mean_of (B s)]> (X s)) (set_AggrElementsCount 1 s)
       else if flt (StdDev s) (float_of_int 1000) then
         set_X (<[2%nat := mean_of (take 4 (drop 8 (B s)))]>
                 (<[1%nat := mean_of (take 4 (drop 4 (B s)))]>
                   (<[0%nat := mean_of (take 4 (B s))]> (X s))))
               (set_AggrElementsCount 3 s)
       else set_X (B s) (set_AggrElementsCount 12 s)).
Proof.
  intros HB HX. destruct s as [rc b t ? ? ? sd ? x ? ? ? ? ? ? ?]. simpl in HB, HX.
  explode b HB. explode x HX.
  unfold bind, choose_aggregation, modify. simpl.
  destruct (flt sd (float_of_int 100)); [cbv; reflexivity |].
  destruct (flt sd (float_of_int 1000)); cbv; reflexivity.
Qed.

(** C4. For every 12-element light window the aggregation is chosen by the
    dispersion of the window: below 100, one value, the mean of the 12
    elements; from 100 and below 1000, three values, the means of the
    elements 0-3, 4-7 and 8-11; from 1000, the 12 elements themselves.  A
    dispersion of 99.999 gives 1 value, 100.0 and 999.999 give 3, and 1000.0
    gives 12. *)
Theorem aggregation_tiers (s : state) :
  length (B s) = 12%nat ->
  length (X s) = 12%nat ->
  (exists s',
    (standard_deviation ;; choose_aggregation ;; aggregate) s = Done tt s' /\
    StdDev s' = dispersion (B s) /\
    (flt (StdDev s') (float_of_int 100) = true ->
       AggrElementsCount s' = 1 /\ take 1 (X s') = [mean_of (B s)]) /\
    (fle (float_of_int 100) (StdDev s') = true ->
     flt (StdDev s') (float_of_int 1000) = true ->
       AggrElementsCount s' = 3 /\
       take 3 (X s') = [mean_of (take 4 (B s)); mean_of (take 4 (drop 4 (B s)));
                        mean_of (take 4 (drop 8 (B s)))]) /\
    (fle (float_of_int 1000) (StdDev s') = true ->
       AggrElementsCount s' = 12 /\ take 12 (X s') = B s)) /\
  tier (float_of_double (dconst 99999 1000)) = 1 /\
  tier (float_of_int 100) = 3 /\
  tier (float_of_double (dconst 999999 1000)) = 3 /\
  tier (float_of_int 1000) = 12.
Proof.
  intros HB HX. split; [| vm_compute; auto].
  unfold bind at 1. rewrite (standard_deviation_run s HB).
  rewrite choose_aggregate_run; [| exact HB | exact HX].
  eexists. split; [reflexivity |].
  assert (H12 : flt (float_of_int 100) (float_of_int 1000) = true) by (vm_compute; reflexivity).
  destruct s as [rc b t ? ? ? sd0 ? x ? ? ? ? ? ? ?]. simpl in HB, HX. simpl.
  set (sd := dispersion b).
  explode x HX.
  destruct (flt sd (float_of_int 100)) eqn:H100; [| destruct (flt sd (float_of_int 1000)) eqn:H1000];
    simpl;
    repeat match goal with
           | |- _ /\ _ => split
           | |- _ -> _ => intro
           end;
    first
      [ exfalso;
        match goal with
        | H : false = true |- _ => discriminate H
        | H1 : ?c = true, H2 : ?c = false |- _ => congruence
        | Hle : fle ?a ?b = true, Hlt : flt ?b ?a = true |- _ =>
            exact (fle_flt_false _ _ Hle Hlt)
        | Hle : fle (float_of_int 1000) ?b = true,
          Hlt : flt ?b (float_of_int 100) = true |- _ =>
            exact (flt_asym _ _ (flt_fle_trans _ _ _ H12 Hle) Hlt)
        end
      | reflexivity
      | idtac ].
  explode b HB. reflexivity.
Qed.

Lemma aggregation_tiers_witness :
  (exists s',
    (standard_deviation ;; choose_aggregation ;; aggregate) sample_state = Done tt s' /\
    StdDev s' = dispersion (B sample_state) /\
    (flt (StdDev s') (float_of_int 100) = true ->
       AggrElementsCount s' = 1 /\ take 1 (X s') = [mean_of (B sample_state)]) /\
    (fle (float_of_int 100) (StdDev s') = true ->
     flt (StdDev s') (float_of_int 1000) = true ->
       AggrElementsCount s' = 3 /\
       take 3 (X s') = [mean_of (take 4 (B sample_state));
                        mean_of (take 4 (drop 4 (B sample_state)));
                        mean_of (take 4 (drop 8 (B sample_state)))]) /\
    (fle (float_of_int 1000) (StdDev s') = true ->
       AggrElementsCount s' = 12 /\ take 12 (X s') = B sample_state)) /\
  tier (float_of_double (dconst 99999 1000)) = 1 /\
  tier (float_of_int 100) = 3 /\
  tier (float_of_double (dconst 999999 1000)) = 3 /\
  tier (float_of_int 1000) = 12.
Proof.
  apply (aggregation_tiers sample_state); reflexivity.
Defined.

(** ** The exchange sort of [getMedian] *)

Lemma swap_index_inj (i j : nat) : Inj (=) (=) (swap_index i j).
Proof.
  intros k1 k2. unfold swap_index. repeat case_decide; intros; subst; congruence.
Qed.

Lemma lookup_swapped (a : list float) (i j k : nat) (x y : float) :
  a !! i = Some x -> a !! j = Some y ->
  <[j := x]> (<[i := y]> a) !! k = a !! swap_index i j k.
Proof.
  intros Hi Hj. unfold swap_index.
  assert (i < length a)%nat by (eapply lookup_lt_Some; eassumption).
  assert (j < length a)%nat by (eapply lookup_lt_Some; eassumption).
  destruct (decide (k = j)) as [-> | Hkj].
  - rewrite list_lookup_insert_eq by (rewrite length_insert; lia).
    case_decide; congruence.
  - rewrite list_lookup_insert_ne by congruence.
    destruct (decide (k = i)) as [-> | Hki].
    + rewrite list_lookup_insert_eq by lia. congruence.
    + rewrite list_lookup_insert_ne by congruence. reflexivity.
Qed.

Lemma swapped_permutation (a : list float) (i j : nat) (x y : float) :
  a !! i = Some x -> a !! j = Some y -> <[j := x]> (<[i := y]> a) ≡ₚ a.
Proof.
  intros Hi Hj. apply Permutation_inj. split.
  - rewrite !length_insert. reflexivity.
  - exists (swap_index i j). split; [apply swap_index_inj |].
    intros k. apply lookup_swapped; assumption.
Qed.

Lemma exchange_length (a : list float) (i j : nat) : length (exchange a i j) = length a.
Proof.
  unfold exchange. destruct (a !! i), (a !! j); try reflexivity.
  destruct (fgt f f0); [rewrite !length_insert |]; reflexivity.
Qed.

Lemma exchange_take (a : list float) (i j n : nat) :
  (i < n)%nat -> (j < n)%nat -> take n (exchange a i j) ≡ₚ take n a.
Proof.
  intros Hi Hj. unfold exchange.
  destruct (a !! i) as [x |] eqn:Hx; [| reflexivity].
  destruct (a !! j) as [y |] eqn:Hy; [| reflexivity].
  destruct (fgt x y); [| reflexivity].
  rewrite !take_insert_lt by assumption.
  apply swapped_permutation; rewrite lookup_take_lt; assumption.
Qed.

Lemma exchange_drop (a : list float) (i j n : nat) :
  (i < n)%nat -> (j < n)%nat -> drop n (exchange a i j) = drop n a.
Proof.
  intros Hi Hj. unfold exchange.
  destruct (a !! i) as [x |]; [| reflexivity].
  destruct (a !! j) as [y |]; [| reflexivity].
  destruct (fgt x y); [| reflexivity].
  rewrite !drop_insert_lt by assumption. reflexivity.
Qed.

Lemma exchange_ordered (a : list float) (i j n : nat) :
  (i < j < n)%nat -> ordered_upto a i n -> ordered_upto (exchange a i j) i n.
Proof.
  intros Hij Hord. unfold exchange.
  destruct (a !! i) as [x |] eqn:Hx; [| assumption].
  destruct (a !! j) as [y |] eqn:Hy; [| assumption].
  destruct (fgt x y); [| assumption].
  intros p q Hp Hq u v. rewrite !(lookup_swapped a i j _ x y Hx Hy).
  unfold swap_index. repeat case_decide; subst; try lia; apply Hord; lia.
Qed.

Lemma exchange_least (a : list float) (i j n : nat) :
  (i < j < n)%nat ->
  Forall (fun x => is_nan x = false) (take n a) ->
  least_upto a i j -> least_upto (exchange a i j) i (Datatypes.S j).
Proof.
  intros Hij Hnan Hleast. unfold exchange.
  destruct (a !! i) as [x |] eqn:Hx.
  2: { intros q Hq u v Hu. congruence. }
  destruct (a !! j) as [y |] eqn:Hy.
  2: { intros q Hq u v Hu Hv. destruct (decide (q = j)) as [-> | Hne]; [congruence |].
       apply (Hleast q); [lia | assumption | assumption]. }
  assert (Hxn : is_nan x = false).
  { eapply (Forall_lookup_1 _ _ i x Hnan). rewrite lookup_take_lt by lia. assumption. }
  assert (Hyn : is_nan y = false).
  { eapply (Forall_lookup_1 _ _ j y Hnan). rewrite lookup_take_lt by lia. assumption. }
  destruct (fgt x y) eqn:Hgt.
  - apply fgt_true in Hgt as (_ & _ & Hlt). apply key_lt_le in Hlt.
    intros q Hq u v. rewrite !(lookup_swapped a i j _ x y Hx Hy).
    unfold swap_index. repeat case_decide; subst; try lia.
    + intros Hu Hv. assert (u = y) by congruence. assert (v = x) by congruence.
      subst. assumption.
    + intros Hu Hv. assert (u = y) by congruence. subst.
      eapply key_le_trans; [exact Hlt |]. apply (Hleast q); [lia | assumption | assumption].
  - apply fgt_false in Hgt; [| assumption | assumption].
    intros q Hq u v Hu Hv. destruct (decide (q = j)) as [-> | Hne].
    + assert (u = x) by congruence. assert (v = y) by congruence. subst. assumption.
    + apply (Hleast q); [lia | assumption | assumption].
Qed.

Lemma sorted_of_lookup {A} (R : relation A) (l : list A) :
  (forall p q x y, (p < q)%nat -> l !! p = Some x -> l !! q = Some y -> R x y) ->
  StronglySorted R l.
Proof.
  induction l as [| x l IH]; intros Hall; constructor.
  - apply IH. intros p q u v Hpq Hu Hv.
    apply (Hall (Datatypes.S p) (Datatypes.S q)); [lia | assumption | assumption].
  - apply Forall_lookup_2. intros i y Hy.
    apply (Hall O (Datatypes.S i)); [lia | reflexivity | assumption].
Qed.

Lemma ordered_ascending (a : list float) (n : nat) :
  (1 <= n)%nat -> ordered_upto a (n - 1) n -> ascending (take n a).
Proof.
  intros Hn Hord. apply sorted_of_lookup. intros p q x y Hpq Hx Hy.
  apply lookup_take_Some in Hx as [Hx Hp]. apply lookup_take_Some in Hy as [Hy Hq].
  apply (Hord p q); [lia | lia | assumption | assumption].
Qed.

Lemma getMedian_exchange_run (i j : Z) (m : tsmem) :
  0 <= i < Z.of_nat (length (cells m)) ->
  0 <= j < Z.of_nat (length (cells m)) ->
  exists log,
    getMedian_exchange i j m
      = Done tt (mkTs (exchange (cells m) (Z.to_nat i) (Z.to_nat j)) (log ++ touched m)) /\
    Forall (fun k => k = i \/ k = j) log.
Proof.
  intros Hi Hj. destruct m as [a log0]. simpl in *.
  destruct (aread_in a i Hi) as [x Hx]. destruct (aread_in a j Hj) as [y Hy].
  pose proof (proj1 (aread_Some a i x) Hx) as [_ Hxi].
  pose proof (proj1 (aread_Some a j y) Hy) as [_ Hyj].
  unfold getMedian_exchange, exchange, bind, ts_read, ts_write. simpl.
  rewrite Hx. simpl. rewrite Hy. rewrite Hxi, Hyj.
  destruct (fgt x y).
  - simpl. rewrite Hx. simpl. rewrite Hy. simpl.
    rewrite (awrite_in a i y Hi). simpl.
    rewrite awrite_in by (rewrite length_insert; exact Hj).
    exists [j; i; j; i; j; i]. split; [reflexivity |].
    repeat (constructor; [auto |]). constructor.
  - exists [j; i]. split; [reflexivity |].
    repeat (constructor; [auto |]). constructor.
Qed.

Section SortInvariant.

Variable a0 : list float.
Variable log0 : list Z.
Variable n : nat.
Hypothesis n_in : (n <= length a0)%nat.

Lemma sort_inv_exchange (i j : Z) (m : tsmem) :
  0 <= i < j -> j < Z.of_nat n ->
  sort_inv a0 log0 n (Z.to_nat i) (Z.to_nat j) m ->
  exists m', getMedian_exchange i j m = Done tt m' /\
             sort_inv a0 log0 n (Z.to_nat i) (Z.to_nat (j + 1)) m'.
Proof.
  intros Hij Hjn ((log & Hlog & Hin) & Hlen & Hperm & Hdrop & Hsorted).
  destruct (getMedian_exchange_run i j m) as (log' & Hrun & Hlog'); [lia | lia |].
  eexists. split; [exact Hrun |]. unfold sort_inv. simpl.
  split; [| split; [| split; [| split]]].
  - exists (log' ++ log). rewrite Hlog, app_assoc. split; [reflexivity |].
    apply Forall_app. split; [| assumption].
    eapply Forall_impl; [exact Hlog' |]. simpl. intros k [-> | ->]; lia.
  - rewrite exchange_length. assumption.
  - rewrite exchange_take by lia. assumption.
  - rewrite exchange_drop by lia. assumption.
  - intros Hnan. destruct (Hsorted Hnan) as [Hord Hleast]. split.
    + apply exchange_ordered; [lia | assumption].
    + replace (Z.to_nat (j + 1)) with (Datatypes.S (Z.to_nat j)) by lia.
      apply exchange_least with (n := n); [lia | | assumption].
      rewrite Hperm. assumption.
Qed.

Lemma sort_inv_inner (i : Z) (m : tsmem) :
  0 <= i < Z.of_nat n - 1 ->
  sort_inv a0 log0 n (Z.to_nat i) 0 m ->
  exists m',
    for_range (i + 1) (Z.of_nat n - 1 + 1) (fun j => getMedian_exchange i j) m = Done tt m' /\
    sort_inv a0 log0 n (Z.to_nat (i + 1)) 0 m'.
Proof.
  intros Hi (Hlog & Hlen & Hperm & Hdrop & Hsorted).
  destruct (for_range_invariant
              (fun j m => sort_inv a0 log0 n (Z.to_nat i) (Z.to_nat j) m)
              (i + 1) (Z.of_nat n - 1 + 1) (fun j => getMedian_exchange i j) m)
    as (m' & Hrun & Hfin).
  - lia.
  - unfold sort_inv. repeat split; try assumption.
    + apply Hsorted. assumption.
    + intros q Hq. lia.
  - intros j t Hj Hinv. apply sort_inv_exchange; [lia | lia | assumption].
  - exists m'. split; [exact Hrun |].
    destruct Hfin as (Hlog' & Hlen' & Hperm' & Hdrop' & Hsorted').
    unfold sort_inv. repeat split; try assumption.
    + destruct (Hsorted' H) as [Hord Hleast].
      intros p q Hp Hq. destruct (decide (p = Z.to_nat i)) as [-> | Hne].
      * apply Hleast. lia.
      * apply Hord; lia.
    + intros q Hq. lia.
Qed.

Lemma sort_inv_outer :
  (1 <= n)%nat ->
  exists m',
    getMedian_sort (Z.of_nat n) (mkTs a0 log0) = Done tt m' /\
    sort_inv a0 log0 n (n - 1) 0 m'.
Proof.
  intros Hn. unfold getMedian_sort.
  destruct (for_range_invariant
              (fun i m => sort_inv a0 log0 n (Z.to_nat i) 0 m)
              0 (Z.of_nat n - 1)
              (fun i => for_range (i + 1) (Z.of_nat n - 1 + 1)
                          (fun j => getMedian_exchange i j))
              (mkTs a0 log0))
    as (m' & Hrun & Hfin).
  - lia.
  - unfold sort_inv. simpl. repeat split; try reflexivity.
    + exists []. split; [reflexivity | constructor].
    + intros p q Hp. lia.
    + intros q Hq. lia.
  - intros i t Hi Hinv. apply sort_inv_inner; [lia | assumption].
  - exists m'. split; [exact Hrun |].
    replace (n - 1)%nat with (Z.to_nat (Z.of_nat n - 1)) by lia. exact Hfin.
Qed.

End SortInvariant.

(** ** The median of a sorted array *)

Lemma aread_nth (a : list float) (i : Z) :
  0 <= i < Z.of_nat (length a) -> aread a i = Some (nth (Z.to_nat i) a zero).
Proof.
  intros Hi. destruct (aread_in a i Hi) as [v Hv]. rewrite Hv.
  apply aread_Some in Hv as [_ Hv]. rewrite (nth_lookup_Some _ _ _ _ Hv). reflexivity.
Qed.

Lemma rem_even (n : Z) : 0 <= n -> (Z.rem n 2 =? 0) = Z.even n.
Proof.
  intros Hn. rewrite Z.rem_mod_nonneg by lia. rewrite Zeven_mod. reflexivity.
Qed.

(** A call of [getMedian] with a count from 1 to the size of the array: it
    returns the middle of the array as it leaves it, accesses indices below
    the count only, rearranges the first [n] elements and sorts them unless
    one is a NaN. *)
Lemma getMedian_run (a0 : list float) (n : Z) :
  1 <= n <= Z.of_nat (length a0) ->
  exists a log,
    call_getMedian a0 n = Done (middle a n) (mkTs a log) /\
    Forall (fun k => 0 <= k < n) log /\
    length a = length a0 /\
    take (Z.to_nat n) a ≡ₚ take (Z.to_nat n) a0 /\
    drop (Z.to_nat n) a = drop (Z.to_nat n) a0 /\
    (Forall (fun x => is_nan x = false) (take (Z.to_nat n) a0) ->
     ascending (take (Z.to_nat n) a)).
Proof.
  intros Hn. unfold call_getMedian, getMedian, bind.
  destruct (sort_inv_outer a0 [] (Z.to_nat n)) as (m' & Hrun & Hinv); [lia | lia |].
  rewrite Z2Nat.id in Hrun by lia. rewrite Hrun.
  destruct Hinv as ((log & Hlog & Hin) & Hlen & Hperm & Hdrop & Hsorted).
  destruct m' as [a log']. simpl in *. subst log'. rewrite app_nil_r.
  rewrite Z2Nat.id in Hin by lia.
  assert (Hq : Z.quot n 2 = n / 2) by (apply Z.quot_div_nonneg; lia).
  rewrite rem_even, Hq by lia. unfold middle.
  assert (Hhalf : 0 <= n / 2 < n) by (split; [apply Z.div_pos | apply Z.div_lt]; lia).
  destruct (Z.even n) eqn:Heven.
  - assert (Hpos : 1 <= n / 2).
    { apply Z.even_spec in Heven. destruct Heven as [h ->].
      rewrite (Z.mul_comm 2 h), Z.div_mul by lia. lia. }
    unfold ts_read. simpl. rewrite aread_nth by lia. simpl.
    rewrite aread_nth by lia.
    exists a, (n / 2 :: n / 2 - 1 :: log). split; [reflexivity |].
    repeat split; try assumption.
    + repeat (constructor; [lia |]). assumption.
    + intros Hnan. apply ordered_ascending; [lia |]. apply Hsorted. assumption.
  - unfold ts_read. simpl. rewrite aread_nth by lia.
    exists a, (n / 2 :: log). split; [reflexivity |].
    repeat split; try assumption.
    + constructor; [lia | assumption].
    + intros Hnan. apply ordered_ascending; [lia |]. apply Hsorted. assumption.
Qed.

(** A call with the count 0 sorts nothing and then reads the element at
    index -1. *)
Lemma getMedian_empty (a : list float) :
  call_getMedian a 0 = Fault (OutOfBounds (-1)) (mkTs a []).
Proof. reflexivity. Qed.

(** Sums and halves of numbers that are the same up to the sign of a zero. *)
Lemma same_value_refl (a : float) : same_value a a.
Proof. left. reflexivity. Qed.

Lemma feq_same (v : float) : is_nan v = false -> feq v v = true.
Proof.
  intros Hv. with_strategy transparent [feq] (unfold feq, SFeqb).
  rewrite (SFcompare_key v v Hv Hv).
  pose proof (key_compare_spec (key v) (key v)) as Hspec.
  destruct (key_compare (key v) (key v)); [reflexivity | |];
    unfold key_lt in Hspec; lia.
Qed.

(** Numbers that are the same up to the sign of a zero are equal for [==],
    unless they are NaN. *)
Lemma same_value_feq (a b : float) :
  same_value a b -> is_nan a = false -> feq a b = true.
Proof.
  intros [-> | [Ha Hb]] Hnan; [apply feq_same; exact Hnan |].
  destruct a as [sa | | |], b as [sb | | |]; try discriminate.
  vm_compute. reflexivity.
Qed.

Lemma same_value_fadd (x x' y y' : float) :
  same_value x x' -> same_value y y' -> same_value (x + y)%f32 (x' + y')%f32.
Proof.
  intros [-> | [Hx Hx']] [-> | [Hy Hy']]; [apply same_value_refl | | |].
  - destruct y as [sy | | |], y' as [sy' | | |]; try discriminate.
    destruct x' as [sx | sx | | sx mx ex].
    + right. destruct sx, sy, sy'; split; vm_compute; reflexivity.
    + left. vm_compute. reflexivity.
    + left. vm_compute. reflexivity.
    + left. with_strategy transparent [fadd] (unfold fadd). reflexivity.
  - destruct x as [sx | | |], x' as [sx' | | |]; try discriminate.
    destruct y' as [sy | sy | | sy my ey].
    + right. destruct sx, sx', sy; split; vm_compute; reflexivity.
    + left. vm_compute. reflexivity.
    + left. vm_compute. reflexivity.
    + left. with_strategy transparent [fadd] (unfold fadd). reflexivity.
  - destruct x as [sx | | |], x' as [sx' | | |]; try discriminate.
    destruct y as [sy | | |], y' as [sy' | | |]; try discriminate.
    right. destruct sx, sx', sy, sy'; split; vm_compute; reflexivity.
Qed.

Lemma same_value_half (x x' : float) :
  same_value x x' -> same_value (x / float_of_int 2)%f32 (x' / float_of_int 2)%f32.
Proof.
  intros [-> | [Hx Hx']]; [apply same_value_refl |].
  destruct x as [sx | | |], x' as [sx' | | |]; try discriminate.
  right. destruct sx, sx'; split; vm_compute; reflexivity.
Qed.

Lemma ascending_keys_unique (a b : list float) :
  ascending a -> ascending b -> a ≡ₚ b -> key <$> a = key <$> b.
Proof.
  intros Ha Hb Hperm.
  apply (StronglySorted_unique key_le).
  - apply (StronglySorted_fmap key _ key_le) in Ha; [exact Ha | auto].
  - apply (StronglySorted_fmap key _ key_le) in Hb; [exact Hb | auto].
  - rewrite Hperm. reflexivity.
Qed.

Lemma same_keys_nth (a b : list float) (i : nat) :
  key <$> a = key <$> b ->
  Forall (fun x => is_nan x = false) a ->
  Forall (fun x => is_nan x = false) b ->
  (i < length a)%nat ->
  same_value (nth i a zero) (nth i b zero).
Proof.
  intros Hkeys Ha Hb Hi.
  assert (Hlen : length a = length b).
  { rewrite <- (length_fmap key a), Hkeys, length_fmap. reflexivity. }
  destruct (lookup_lt_is_Some_2 a i Hi) as [x Hx].
  destruct (lookup_lt_is_Some_2 b i) as [y Hy]; [lia |].
  rewrite (nth_lookup_Some _ _ _ _ Hx), (nth_lookup_Some _ _ _ _ Hy).
  apply key_inj.
  - exact (Forall_lookup_1 _ _ _ _ Ha Hx).
  - exact (Forall_lookup_1 _ _ _ _ Hb Hy).
  - assert (Hk : (key <$> a) !! i = (key <$> b) !! i) by (rewrite Hkeys; reflexivity).
    rewrite !list_lookup_fmap, Hx, Hy in Hk. simpl in Hk. congruence.
Qed.

Lemma nth_take (a : list float) (n i : nat) :
  (i < n)%nat -> nth i (take n a) zero = nth i a zero.
Proof.
  intros Hi. rewrite !nth_lookup, lookup_take_lt by assumption. reflexivity.
Qed.

Lemma middle_take (a : list float) (n : Z) :
  1 <= n -> middle (take (Z.to_nat n) a) n = middle a n.
Proof.
  intros Hn. unfold middle.
  assert (Hhalf : 0 <= n / 2 < n) by (split; [apply Z.div_pos | apply Z.div_lt]; lia).
  rewrite !nth_take by lia. reflexivity.
Qed.

(** The middles of two sorted rearrangements of the same numbers are the
    same. *)
Lemma middle_unique (a b : list float) (n : Z) :
  1 <= n -> length a = Z.to_nat n ->
  ascending a -> ascending b -> a ≡ₚ b ->
  Forall (fun x => is_nan x = false) a ->
  same_value (middle a n) (middle b n).
Proof.
  intros Hn Hlen Ha Hb Hperm Hnan.
  pose proof (ascending_keys_unique a b Ha Hb Hperm) as Hkeys.
  assert (Hnanb : Forall (fun x => is_nan x = false) b) by (rewrite <- Hperm; assumption).
  assert (Hhalf : 0 <= n / 2 < n) by (split; [apply Z.div_pos | apply Z.div_lt]; lia).
  unfold middle. destruct (Z.even n) eqn:Heven.
  - apply same_value_half, same_value_fadd; apply same_keys_nth; auto; lia.
  - apply same_keys_nth; auto; lia.
Qed.

Lemma ascending_fle (l : list float) :
  Forall (fun x => is_nan x = false) l ->
  ascending l ->
  StronglySorted (fun x y => fle x y = true) l.
Proof.
  intros Hnan Hasc. induction Hasc as [| x l Hs IH Hall]; constructor.
  - apply IH. inversion Hnan; assumption.
  - inversion Hnan as [| ? ? Hx Hl]; subst.
    eapply Forall_impl; [apply Forall_and; split; [exact Hall | exact Hl] |].
    simpl. intros y [Hle Hy]. apply fle_true. auto.
Qed.

(** It fails on arrays with a NaN, which every comparison leaves where it
    is: the median of [NaN, 1, 2] is 1 and the median of [1, NaN, 2] is
    NaN, and [2, NaN, 1] is left as [1, NaN, 2], which is not ascending. *)
Lemma median_permutation_invariant_fails : ~ median_permutation_invariant.
Proof.
  intros Hinv.
  specialize (Hinv [S754_nan; float_of_int 1; float_of_int 2]
                   [float_of_int 1; S754_nan; float_of_int 2]
                   (float_of_int 1) S754_nan).
  assert (Hfalse : feq (float_of_int 1) S754_nan = false) by (vm_compute; reflexivity).
  rewrite Hinv in Hfalse; [discriminate | | vm_compute; reflexivity | vm_compute; reflexivity].
  apply perm_swap.
Qed.

(** C5, for arrays without NaN.  For every array whose first [n >= 1]
    elements are not NaN, the median routine sorts these elements in
    ascending order, leaves the others alone, and returns, for an even [n],
    the average of the sorted elements at [n/2 - 1] and [n/2] and, for an odd
    [n], the sorted element at [n/2]; the result is the same, up to the sign
    of a zero, for every rearrangement of the elements (and equal for [==]
    unless it is a NaN).  The median of [1,2,3,4] is 2.5 and the median of
    [1,2,3] is 2. *)
Theorem getMedian_sorts_and_takes_middle (TS : list float) (n : Z) :
  1 <= n <= Z.of_nat (length TS) ->
  Forall (fun x => is_nan x = false) (take (Z.to_nat n) TS) ->
  (exists sorted log,
     call_getMedian TS n
       = Done (middle sorted n) (mkTs (sorted ++ drop (Z.to_nat n) TS) log) /\
     sorted ≡ₚ take (Z.to_nat n) TS /\
     StronglySorted (fun x y => fle x y = true) sorted) /\
  (forall TS',
     take (Z.to_nat n) TS' ≡ₚ take (Z.to_nat n) TS ->
     exists m m',
       returned (call_getMedian TS n) = Some m /\
       returned (call_getMedian TS' n) = Some m' /\
       same_value m m' /\
       (is_nan m = false -> feq m m' = true)) /\
  returned (call_getMedian (map float_of_int [1; 2; 3; 4]) 4)
    = Some (float_of_double (dconst 5 2)) /\
  returned (call_getMedian (map float_of_int [4; 2; 1; 3]) 4)
    = Some (float_of_double (dconst 5 2)) /\
  returned (call_getMedian (map float_of_int [1; 2; 3]) 3) = Some (float_of_int 2) /\
  returned (call_getMedian (map float_of_int [3; 1; 2]) 3) = Some (float_of_int 2).
Proof.
  intros Hn Hnan.
  destruct (getMedian_run TS n Hn) as (a & log & Hrun & Hlog & Hlen & Hperm & Hdrop & Hasc).
  specialize (Hasc Hnan).
  assert (Hnan_a : Forall (fun x => is_nan x = false) (take (Z.to_nat n) a))
    by (rewrite Hperm; assumption).
  split; [| split; [| vm_compute; auto]].
  - exists (take (Z.to_nat n) a), log. split; [| split].
    + rewrite Hrun, middle_take by lia. rewrite <- Hdrop, take_drop. reflexivity.
    + exact Hperm.
    + apply ascending_fle; assumption.
  - intros TS' Hperm'.
    assert (Hn' : 1 <= n <= Z.of_nat (length TS')).
    { apply Permutation_length in Hperm'. rewrite !length_take in Hperm'. lia. }
    destruct (getMedian_run TS' n Hn')
      as (a' & log' & Hrun' & _ & _ & Hperm_a' & _ & Hasc').
    assert (Hnan' : Forall (fun x => is_nan x = false) (take (Z.to_nat n) TS'))
      by (rewrite Hperm'; assumption).
    specialize (Hasc' Hnan').
    exists (middle a n), (middle a' n). rewrite Hrun, Hrun'.
    split; [reflexivity |]. split; [reflexivity |].
    assert (Hsame : same_value (middle a n) (middle a' n)).
    { rewrite <- (middle_take a n), <- (middle_take a' n) by lia.
      apply middle_unique; try assumption; try lia.
      - rewrite length_take. lia.
      - rewrite Hperm, Hperm_a', Hperm'. reflexivity. }
    split; [exact Hsame | apply same_value_feq; exact Hsame].
Qed.

Lemma getMedian_sorts_and_takes_middle_witness :
  let TS := map float_of_int [3; 1; 2] in
  (exists sorted log,
     call_getMedian TS 3
       = Done (middle sorted 3) (mkTs (sorted ++ drop (Z.to_nat 3) TS) log) /\
     sorted ≡ₚ take (Z.to_nat 3) TS /\
     StronglySorted (fun x y => fle x y = true) sorted) /\
  (forall TS',
     take (Z.to_nat 3) TS' ≡ₚ take (Z.to_nat 3) TS ->
     exists m m',
       returned (call_getMedian TS 3) = Some m /\
       returned (call_getMedian TS' 3) = Some m' /\
       same_value m m' /\
       (is_nan m = false -> feq m m' = true)) /\
  returned (call_getMedian (map float_of_int [1; 2; 3; 4]) 4)
    = Some (float_of_double (dconst 5 2)) /\
  returned (call_getMedian (map float_of_int [4; 2; 1; 3]) 4)
    = Some (float_of_double (dconst 5 2)) /\
  returned (call_getMedian (map float_of_int [1; 2; 3]) 3) = Some (float_of_int 2) /\
  returned (call_getMedian (map float_of_int [3; 1; 2]) 3) = Some (float_of_int 2).
Proof.
  apply (getMedian_sorts_and_takes_middle (map float_of_int [3; 1; 2]) 3).
  - simpl. lia.
  - vm_compute. repeat constructor.
Defined.

(** ** The slopes of the regression *)

Lemma flat_map_seqZ_snoc {A} (f : Z -> list A) (m n : Z) :
  0 <= n -> flat_map f (seqZ m (n + 1)) = flat_map f (seqZ m n) ++ f (m + n).
Proof.
  intros Hn. rewrite seqZ_app by lia. rewrite flat_map_app.
  rewrite (seqZ_cons (m + n) 1) by lia.
  rewrite (seqZ_nil (Z.succ (m + n))) by lia.
  simpl. rewrite app_nil_r. reflexivity.
Qed.

Lemma collected_start (light temp : list float) (i : Z) :
  collected light temp i (i + 1) = flat_map (row_slopes light temp) (seqZ 0 i).
Proof.
  unfold collected. rewrite (seqZ_nil (i + 1)) by lia. simpl. apply app_nil_r.
Qed.

Lemma collected_step (light temp : list float) (i j : Z) :
  i < j ->
  collected light temp i (j + 1) = collected light temp i j ++ pair_slope light temp i j.
Proof.
  intros Hij. unfold collected.
  replace (j + 1 - (i + 1)) with (j - (i + 1) + 1) by lia.
  rewrite flat_map_seqZ_snoc by lia. rewrite app_assoc.
  replace (i + 1 + (j - (i + 1))) with j by lia. reflexivity.
Qed.

Lemma collected_row (light temp : list float) (i : Z) :
  0 <= i ->
  collected light temp i 12 = flat_map (row_slopes light temp) (seqZ 0 (i + 1)).
Proof.
  intros Hi. unfold collected. rewrite flat_map_seqZ_snoc by lia. reflexivity.
Qed.

Lemma length_flat_map_le {A B} (f : A -> list B) (l : list A) :
  (forall x, (length (f x) <= 1)%nat) -> (length (flat_map f l) <= length l)%nat.
Proof.
  intros Hf. induction l as [| x l IH]; simpl; [lia |].
  rewrite length_app. specialize (Hf x). lia.
Qed.

Lemma length_pair_slope (light temp : list float) (i j : Z) :
  (length (pair_slope light temp i j) <= 1)%nat.
Proof. unfold pair_slope. destruct (fne _ _); simpl; lia. Qed.

Lemma length_row_slopes (light temp : list float) (i : Z) :
  (length (row_slopes light temp i) <= Z.to_nat (12 - (i + 1)))%nat.
Proof.
  unfold row_slopes. rewrite <- (length_seqZ (i + 1)).
  apply length_flat_map_le, length_pair_slope.
Qed.

(** At most one slope for each of the 11+10+...+1 = 66 pairs. *)
Lemma length_pair_slopes (light temp : list float) :
  (length (pair_slopes light temp) <= 66)%nat.
Proof.
  unfold pair_slopes.
  change (seqZ 0 12) with [0; 1; 2; 3; 4; 5; 6; 7; 8; 9; 10; 11].
  simpl. rewrite !length_app.
  pose proof (length_row_slopes light temp 0). pose proof (length_row_slopes light temp 1).
  pose proof (length_row_slopes light temp 2). pose proof (length_row_slopes light temp 3).
  pose proof (length_row_slopes light temp 4). pose proof (length_row_slopes light temp 5).
  pose proof (length_row_slopes light temp 6). pose proof (length_row_slopes light temp 7).
  pose proof (length_row_slopes light temp 8). pose proof (length_row_slopes light temp 9).
  pose proof (length_row_slopes light temp 10). pose proof (length_row_slopes light temp 11).
  simpl in *. lia.
Qed.

Lemma seqZ_cut (m n k : Z) :
  0 <= k <= n -> seqZ m n = seqZ m k ++ seqZ (m + k) (n - k).
Proof.
  intros Hk. replace n with (k + (n - k)) at 1 by lia. apply seqZ_app; lia.
Qed.

(** What is collected at any point is the beginning of the final list. *)
Lemma collected_prefix (light temp : list float) (i j : Z) :
  0 <= i < 12 -> i < j <= 12 ->
  exists rest, pair_slopes light temp = collected light temp i j ++ rest.
Proof.
  intros Hi Hj. unfold pair_slopes, collected.
  rewrite (seqZ_cut 0 12 i) by lia. rewrite (seqZ_cons (0 + i)) by lia.
  rewrite flat_map_app. simpl. unfold row_slopes at 2.
  replace (0 + i + 1) with (i + 1) by lia.
  rewrite (seqZ_cut (i + 1) (12 - (i + 1)) (j - (i + 1))) by lia.
  rewrite flat_map_app. eexists. rewrite <- !app_assoc. reflexivity.
Qed.

Lemma length_collected (light temp : list float) (i j : Z) :
  0 <= i < 12 -> i < j <= 12 -> (length (collected light temp i j) <= 66)%nat.
Proof.
  intros Hi Hj. destruct (collected_prefix light temp i j Hi Hj) as [rest Hrest].
  pose proof (length_pair_slopes light temp) as Hlen.
  rewrite Hrest, length_app in Hlen. lia.
Qed.

Lemma load_run (arr : state -> list float) (i : Z) (s : state) :
  0 <= i < Z.of_nat (length (arr s)) ->
  load arr i s = Done (nth (Z.to_nat i) (arr s) zero) s.
Proof. intros Hi. unfold load. rewrite aread_nth by assumption. reflexivity. Qed.

Lemma store_append (acc sl : list float) (v : float) :
  (length acc < length sl)%nat ->
  <[length acc := v]> (acc ++ drop (length acc) sl)
  = (acc ++ [v]) ++ drop (length (acc ++ [v])) sl.
Proof.
  intros Hlen. destruct (lookup_lt_is_Some_2 sl (length acc) Hlen) as [x Hx].
  rewrite (drop_S _ _ _ Hx).
  rewrite insert_app_r_alt by lia. rewrite Nat.sub_diag. simpl.
  rewrite length_app. simpl. rewrite Nat.add_1_r, <- app_assoc. reflexivity.
Qed.

Lemma collect_pair_run (s0 : state) (acc : list float) (i j : Z) :
  length (B s0) = 12%nat -> length (T s0) = 12%nat -> length (slopes s0) = 144%nat ->
  0 <= i < 12 -> 0 <= j < 12 ->
  (length acc < 144)%nat ->
  collect_pair i j (with_slopes s0 acc)
  = Done tt (with_slopes s0 (acc ++ pair_slope (B s0) (T s0) i j)).
Proof.
  intros HB HT HS Hi Hj Hacc.
  destruct s0 as [rc b t ? ? ? ? ? ? sl ? ? ? ? ? ?]. simpl in HB, HT, HS.
  unfold collect_pair, pair_slope, bind.
  rewrite !load_run by (simpl; lia). simpl.
  destruct (fne (nth (Z.to_nat i) b zero) (nth (Z.to_nat j) b zero)).
  - rewrite !load_run by (simpl; lia). simpl.
    unfold store, with_slopes, modify. simpl.
    rewrite awrite_in by (rewrite length_app, length_drop; lia).
    rewrite Nat2Z.id, store_append by lia.
    rewrite length_app. unfold set_slopes_count, set_slopes. simpl. do 2 f_equal. lia.
  - rewrite app_nil_r. reflexivity.
Qed.

Lemma collect_slopes_run (s : state) :
  length (B s) = 12%nat -> length (T s) = 12%nat -> length (slopes s) = 144%nat ->
  collect_slopes s = Done tt (with_slopes s (pair_slopes (B s) (T s))).
Proof.
  intros HB HT HS. unfold collect_slopes, bind, modify.
  assert (Hstart : set_slopes_count 0 s = with_slopes s []).
  { destruct s. reflexivity. }
  rewrite Hstart.
  destruct (for_range_invariant
              (fun i t => t = with_slopes s (flat_map (row_slopes (B s) (T s)) (seqZ 0 i)))
              0 12
              (fun i => for_range (i + 1) 12 (fun j => collect_pair i j))
              (with_slopes s []))
    as (s' & Hrun & Hfin).
  - lia.
  - reflexivity.
  - intros i t Hi ->.
    destruct (for_range_invariant
                (fun j t => t = with_slopes s (collected (B s) (T s) i j))
                (i + 1) 12 (fun j => collect_pair i j)
                (with_slopes s (flat_map (row_slopes (B s) (T s)) (seqZ 0 i))))
      as (t' & Hrun & Hfin).
    + lia.
    + rewrite collected_start. reflexivity.
    + intros j u Hj ->. eexists. split; [| rewrite collected_step by lia; reflexivity].
      apply collect_pair_run; try assumption; try lia.
      pose proof (length_collected (B s) (T s) i j). lia.
    + exists t'. split; [exact Hrun |]. rewrite Hfin. rewrite collected_row by lia. reflexivity.
  - rewrite Hrun, Hfin. reflexivity.
Qed.

(** C10. For every pair of 12-element buffers the collection of the slopes
    runs to its end without leaving the 144 elements of [slopes]: it stores
    one slope for each pair [i < j] with different light values, at most 66,
    at the indices below [slopes_count], and leaves the rest of the array
    alone; whenever a slope was collected, the median call that follows
    accesses indices in [0, slopes_count) only. *)
Theorem slopes_stay_in_buffer (s : state) :
  length (B s) = 12%nat -> length (T s) = 12%nat -> length (slopes s) = 144%nat ->
  exists s',
    collect_slopes s = Done tt s' /\
    slopes_count s' = Z.of_nat (length (pair_slopes (B s) (T s))) /\
    0 <= slopes_count s' <= 66 /\
    length (slopes s') = 144%nat /\
    take (Z.to_nat (slopes_count s')) (slopes s') = pair_slopes (B s) (T s) /\
    drop (Z.to_nat (slopes_count s')) (slopes s')
      = drop (Z.to_nat (slopes_count s')) (slopes s) /\
    (1 <= slopes_count s' ->
     exists m ts,
       call_getMedian (slopes s') (slopes_count s') = Done m ts /\
       Forall (fun i => 0 <= i < slopes_count s') (touched ts)).
Proof.
  intros HB HT HS. exists (with_slopes s (pair_slopes (B s) (T s))).
  split; [apply collect_slopes_run; assumption |].
  pose proof (length_pair_slopes (B s) (T s)) as Hlen.
  set (sl := pair_slopes (B s) (T s)) in *.
  assert (Hcount : slopes_count (with_slopes s sl) = Z.of_nat (length sl))
    by (destruct s; reflexivity).
  assert (Hslopes : slopes (with_slopes s sl) = sl ++ drop (length sl) (slopes s))
    by (destruct s; reflexivity).
  rewrite Hcount, Hslopes, Nat2Z.id.
  assert (Hsize : length (sl ++ drop (length sl) (slopes s)) = 144%nat)
    by (rewrite length_app, length_drop; lia).
  split; [reflexivity |]. split; [lia |]. split; [exact Hsize |].
  split; [apply take_app_length |]. split; [apply drop_app_length |].
  intros Hpos.
  destruct (getMedian_run (sl ++ drop (length sl) (slopes s)) (Z.of_nat (length sl)))
    as (a & log & Hrun & Hlog & _); [lia |].
  exists (middle a (Z.of_nat (length sl))), (mkTs a log). split; assumption.
Qed.

Lemma slopes_stay_in_buffer_witness :
  exists s',
    collect_slopes sample_state = Done tt s' /\
    slopes_count s' = Z.of_nat (length (pair_slopes (B sample_state) (T sample_state))) /\
    0 <= slopes_count s' <= 66 /\
    length (slopes s') = 144%nat /\
    take (Z.to_nat (slopes_count s')) (slopes s')
      = pair_slopes (B sample_state) (T sample_state) /\
    drop (Z.to_nat (slopes_count s')) (slopes s')
      = drop (Z.to_nat (slopes_count s')) (slopes sample_state) /\
    (1 <= slopes_count s' ->
     exists m ts,
       call_getMedian (slopes s') (slopes_count s') = Done m ts /\
       Forall (fun i => 0 <= i < slopes_count s') (touched ts)).
Proof.
  apply (slopes_stay_in_buffer sample_state); reflexivity.
Defined.

(** On the readings 1..12 all 66 pairs give a slope. *)
Example sample_slopes_count :
  length (pair_slopes (B sample_state) (T sample_state)) = 66%nat.
Proof. vm_compute. reflexivity. Qed.

(** ** The Theil-Sen estimate *)

(** Projections of updated states, without touching the arithmetic. *)
Ltac unfold_setters :=
  cbn [with_slopes set_readcount set_B set_T set_Sum set_Mean set_SumofDistSquares
       set_StdDev set_AggrElementsCount set_X set_slopes set_slopes_count
       set_median_slope set_offsets set_median_offset set_EstT set_out
       readcount B T Sum Mean SumofDistSquares StdDev AggrElementsCount X slopes
       slopes_count median_slope offsets median_offset EstT out] in *.

Lemma compute_offsets_run (s : state) :
  length (B s) = 12%nat -> length (T s) = 12%nat -> length (offsets s) = 12%nat ->
  compute_offsets s
  = Done tt (set_offsets (offsets_of (median_slope s) (B s) (T s)) s).
Proof.
  intros HB HT HO. destruct s as [rc b t ? ? ? ? ? ? ? ? ms o ? ? ?]. simpl in HB, HT, HO.
  explode b HB. explode t HT. explode o HO. cbv. reflexivity.
Qed.

Lemma compute_estimates_run (s : state) :
  length (B s) = 12%nat -> length (EstT s) = 12%nat ->
  compute_estimates s
  = Done tt (set_EstT (predicted (median_slope s) (median_offset s) (B s)) s).
Proof.
  intros HB HE. destruct s as [rc b ? ? ? ? ? ? ? ? ? ms ? mo e ?]. simpl in HB, HE.
  explode b HB. explode e HE. cbv. reflexivity.
Qed.

Lemma length_offsets_of (slope : float) (light temp : list float) :
  length light = 12%nat -> length temp = 12%nat ->
  length (offsets_of slope light temp) = 12%nat.
Proof.
  intros Hl Ht. unfold offsets_of. rewrite length_zip_with. lia.
Qed.

(** The estimation, step by step: it stops where a call of the median
    routine stops. *)
Lemma estimate_run (s : state) :
  length (B s) = 12%nat -> length (T s) = 12%nat -> length (slopes s) = 144%nat ->
  length (offsets s) = 12%nat -> length (EstT s) = 12%nat ->
  let collected := pair_slopes (B s) (T s) in
  estimate s =
    match call_getMedian (collected ++ drop (length collected) (slopes s))
                         (Z.of_nat (length collected)) with
    | Fault e ts => Fault e (set_slopes (cells ts) (with_slopes s collected))
    | Done slope ts =>
        match call_getMedian (offsets_of slope (B s) (T s)) 12 with
        | Fault e ts' =>
            Fault e (set_offsets (cells ts')
                      (set_offsets (offsets_of slope (B s) (T s))
                        (with_median_slope s slope ts)))
        | Done offset ts' => Done tt (with_estimate s slope ts offset ts')
        end
    end.
Proof.
  intros HB HT HS HO HE sl.
  unfold estimate, bind at 1. rewrite collect_slopes_run by assumption. fold sl.
  unfold bind at 1.
  assert (Htake : take_median_slope (with_slopes s sl)
                  = match call_getMedian (sl ++ drop (length sl) (slopes s))
                                         (Z.of_nat (length sl)) with
                    | Done m ts => Done tt (with_median_slope s m ts)
                    | Fault e ts => Fault e (set_slopes (cells ts) (with_slopes s sl))
                    end).
  { unfold take_median_slope, bind, get, median_of, modify.
    replace (slopes (with_slopes s sl)) with (sl ++ drop (length sl) (slopes s))
      by (destruct s; reflexivity).
    replace (slopes_count (with_slopes s sl)) with (Z.of_nat (length sl))
      by (destruct s; reflexivity).
    destruct (call_getMedian _ _); reflexivity. }
  rewrite Htake. clear Htake.
  destruct (call_getMedian (sl ++ drop (length sl) (slopes s)) (Z.of_nat (length sl)))
    as [slope ts | e ts]; [| reflexivity].
  unfold bind at 1. rewrite compute_offsets_run by (destruct s; assumption).
  unfold take_median_offset, bind at 1, bind at 1, median_of, modify.
  replace (median_slope (with_median_slope s slope ts)) with slope
    by (destruct s; reflexivity).
  replace (B (with_median_slope s slope ts)) with (B s) by (destruct s; reflexivity).
  replace (T (with_median_slope s slope ts)) with (T s) by (destruct s; reflexivity).
  replace (offsets (set_offsets (offsets_of slope (B s) (T s)) (with_median_slope s slope ts)))
    with (offsets_of slope (B s) (T s)) by (destruct s; reflexivity).
  destruct (call_getMedian (offsets_of slope (B s) (T s)) 12) as [offset ts' | e ts'];
    [| reflexivity].
  rewrite compute_estimates_run by (destruct s; assumption).
  destruct s; reflexivity.
Qed.


(** ** A window of equal light values *)

Lemma fne_same (v : float) : is_nan v = false -> fne v v = false.
Proof.
  intros Hv. with_strategy transparent [fne] (unfold fne, SFeqb).
  rewrite (SFcompare_key v v Hv Hv).
  pose proof (key_compare_spec (key v) (key v)) as Hspec.
  destruct (key_compare (key v) (key v)); [reflexivity | |];
    unfold key_lt in Hspec; lia.
Qed.

Lemma pair_slopes_flat (v : float) (temp : list float) :
  is_nan v = false -> pair_slopes (replicate 12 v) temp = [].
Proof.
  intros Hv. pose proof (fne_same v Hv) as Hne.
  cbv -[fne fsub fdiv nth]. simpl nth. rewrite Hne. reflexivity.
Qed.

(** With twelve equal light values no slope is collected, and the median
    routine, called with the count 0, reads [slopes[-1]]. *)
Lemma estimate_flat_window (s : state) (v : float) :
  B s = replicate 12 v -> is_nan v = false ->
  length (T s) = 12%nat -> length (slopes s) = 144%nat ->
  length (offsets s) = 12%nat -> length (EstT s) = 12%nat ->
  exists s',
    estimate s = Fault (OutOfBounds (-1)) s' /\
    slopes_count s' = 0 /\ slopes s' = slopes s /\ out s' = out s.
Proof.
  intros HB Hv HT HS HO HE.
  assert (HB' : length (B s) = 12%nat) by (rewrite HB; reflexivity).
  rewrite (estimate_run s HB' HT HS HO HE).
  rewrite HB, pair_slopes_flat by assumption.
  change (Z.of_nat (length (@nil float))) with 0. rewrite getMedian_empty.
  eexists. split; [reflexivity |].
  destruct s; repeat split; reflexivity.
Qed.

(** C3 fails on the program: after twelve samples with the same light
    reading (here 100) the regression calls the median routine on an empty
    list of slopes, and the routine reads the element at index -1 of
    [slopes]; nothing reports that no regression is available. *)
Theorem flat_window_reads_out_of_bounds :
  exists s',
    sensor_reading_process (replicate 12 (100, 978)) = Fault (OutOfBounds (-1)) s' /\
    readcount s' = 12 /\
    B s' = replicate 12 (getLight 100) /\
    slopes_count s' = 0.
Proof. eexists. vm_compute. auto. Qed.

(** ** The reports *)

Lemma appended_nil (s : state) : appended s [] = s.
Proof. destruct s. unfold appended, set_out. simpl. rewrite app_nil_r. reflexivity. Qed.

Lemma appended_appended (s : state) (new new' : list call) :
  appended (appended s new) new' = appended s (new ++ new').
Proof. destruct s. unfold appended, set_out. simpl. rewrite app_assoc. reflexivity. Qed.

Lemma printf_run (format : string) (args : list arg) (s : state) :
  printf format args s = Done tt (appended s [Printf format args]).
Proof. reflexivity. Qed.

Lemma formats_in_app (allowed : list string) (new new' : list call) :
  formats_in allowed new -> formats_in allowed new' -> formats_in allowed (new ++ new').
Proof. intros H1 H2. apply Forall_app. split; assumption. Qed.

Lemma formats_in_weaken (allowed allowed' : list string) (new : list call) :
  (forall f, In f allowed -> In f allowed') ->
  formats_in allowed new -> formats_in allowed' new.
Proof.
  intros Hsub Hnew. eapply Forall_impl; [exact Hnew |]. intros c. apply Hsub.
Qed.

Ltac in_list := simpl; repeat first [left; reflexivity | right].

Ltac solve_formats :=
  repeat match goal with
         | |- formats_in _ (_ ++ _) => apply formats_in_app
         | |- formats_in _ (_ :: _) => constructor
         | |- formats_in _ [] => constructor
         | |- formats_in _ _ => assumption
         | |- Forall _ (_ :: _) => constructor
         | |- Forall _ [] => constructor
         | H : formats_in _ ?new |- Forall _ ?new => exact H
         | |- In _ _ => in_list
         end.

(** [printArray] on the first [n] elements of an array that has them runs
    to its end and prints only. *)
Lemma printArray_run (name : string) (arr : state -> list float) (n : Z) (s : state) :
  (forall o t, arr (set_out o t) = arr t) ->
  0 <= n <= Z.of_nat (length (arr s)) ->
  exists new,
    printArray name arr n s = Done tt (appended s new) /\
    formats_in array_formats new.
Proof.
  intros Harr Hn. unfold printArray, bind at 1. rewrite printf_run.
  destruct (for_range_invariant
              (fun _ t => exists new, t = appended s new /\ formats_in array_formats new)
              0 n
              (fun i =>
                 a <- load arr i ;;
                 b <- load arr i ;;
                 printf "%d.%03u" [AInt (d1 a); AUnsigned (d2 b)] ;;
                 if i <? n - 1 then printf ", " [] else ret tt)
              (appended s [Printf (nl ++ "%s = [") [AString name]]))
    as (t & Hrun & new & -> & Hnew).
  - lia.
  - eexists. split; [reflexivity |]. solve_formats.
  - intros i t Hi (new & -> & Hnew). unfold bind.
    rewrite !load_run by (unfold appended; rewrite Harr; lia).
    rewrite printf_run, appended_appended.
    destruct (i <? n - 1).
    + rewrite printf_run, appended_appended. eexists. split; [reflexivity |].
      eexists. split; [reflexivity |]. solve_formats.
    + eexists. split; [reflexivity |]. eexists. split; [reflexivity |]. solve_formats.
  - rewrite (bind_done _ _ _ _ _ Hrun), printf_run, appended_appended.
    eexists. split; [reflexivity |]. solve_formats.
Qed.

Lemma bind_get {B} (k : state -> M state B) (s : state) : bind get k s = k s s.
Proof. reflexivity. Qed.

Lemma array_in_measurement (f : string) : In f array_formats -> In f measurement_formats.
Proof. intros Hf. unfold measurement_formats. apply in_or_app. right. exact Hf. Qed.

(** The measurement report on a state whose aggregated elements are in [X]:
    the header first, then the window, the dispersion, the aggregation and
    the aggregated elements. *)
Lemma report_measurement_run (s : state) :
  length (B s) = 12%nat ->
  0 <= AggrElementsCount s <= Z.of_nat (length (X s)) ->
  exists new,
    report_measurement s = Done tt (appended s (Printf measurement_header [AInt k] :: new)) /\
    formats_in measurement_formats new.
Proof.
  intros HB HX. unfold report_measurement.
  rewrite (bind_done _ _ _ _ _ (printf_run _ _ _)).
  destruct (printArray_run "B" B 12 (appended s [Printf measurement_header [AInt k]]))
    as (newB & HrunB & HnewB).
  { intros o t. destruct t; reflexivity. }
  { replace (B (appended s [Printf measurement_header [AInt k]])) with (B s)
      by (destruct s; reflexivity). lia. }
  rewrite (bind_done _ _ _ _ _ HrunB), appended_appended.
  unfold bind at 1. rewrite bind_get, printf_run, appended_appended.
  set (label :=
         if AggrElementsCount s =? 1 then [Printf "Aggregation = 12-into-1" []]
         else if AggrElementsCount s =? 3 then [Printf "Aggregation = 4-into-1" []]
         else if AggrElementsCount s =? 12
              then [Printf "Aggregation = 1-into-1 (No Aggregation)" []]
              else []).
  assert (Hlabel : formats_in measurement_formats label).
  { unfold label. repeat destruct (_ =? _); solve_formats. }
  match goal with
  | |- exists new, bind _ _ ?t = _ /\ _ =>
      assert (Hstep : forall rest : M state unit,
                 bind (s0 <- get ;;
                       if AggrElementsCount s0 =? 1 then printf "Aggregation = 12-into-1" []
                       else if AggrElementsCount s0 =? 3 then printf "Aggregation = 4-into-1" []
                       else if AggrElementsCount s0 =? 12
                            then printf "Aggregation = 1-into-1 (No Aggregation)" []
                            else ret tt) (fun _ => rest) t
                 = rest (appended t label))
  end.
  { intros rest. unfold bind at 1. rewrite bind_get.
    replace (AggrElementsCount (appended s _)) with (AggrElementsCount s)
      by (destruct s; reflexivity).
    unfold label. repeat destruct (_ =? _); try reflexivity.
    unfold ret. rewrite appended_nil. reflexivity. }
  rewrite Hstep, appended_appended. clear Hstep.
  unfold bind at 1. rewrite bind_get.
  replace (AggrElementsCount (appended s _)) with (AggrElementsCount s)
    by (destruct s; reflexivity).
  match goal with
  | |- context [printArray "X" X _ ?t] =>
      destruct (printArray_run "X" X (AggrElementsCount s) t) as (newX & HrunX & HnewX)
  end.
  { intros o t. destruct t; reflexivity. }
  { replace (X (appended s _)) with (X s) by (destruct s; reflexivity). lia. }
  rewrite HrunX, printf_run, !appended_appended. simpl.
  eexists. split; [reflexivity |].
  apply (formats_in_weaken _ _ _ array_in_measurement) in HnewB, HnewX.
  solve_formats.
Qed.

Lemma bind_assoc {St A B C} (c : M St A) (k : A -> M St B) (k' : B -> M St C) (s : St) :
  bind (bind c k) k' s = bind c (fun a => bind (k a) k') s.
Proof. unfold bind. destruct (c s); reflexivity. Qed.

Lemma fifo_push_run (s : state) (light_lx temp_c : float) :
  length (B s) = 12%nat -> length (T s) = 12%nat ->
  fifo_push light_lx temp_c s
  = Done tt (set_T (drop 1 (T s) ++ [temp_c]) (set_B (drop 1 (B s) ++ [light_lx]) s)).
Proof.
  intros HB HT. destruct s as [rc b t ? ? ? ? ? ? ? ? ? ? ? ? ?]. simpl in HB, HT.
  explode b HB. explode t HT. vm_compute. reflexivity.
Qed.

(** The measurement block on well-formed buffers runs to its end; it prints
    its header first and leaves the counter and the two buffers alone. *)
Lemma measurement_run (s : state) :
  length (B s) = 12%nat -> length (X s) = 12%nat ->
  exists s' new,
    measurement s = Done tt s' /\
    out s' = out s ++ Printf measurement_header [AInt k] :: new /\
    formats_in measurement_formats new /\
    readcount s' = readcount s /\ B s' = B s /\ T s' = T s /\
    length (X s') = 12%nat /\
    slopes s' = slopes s /\ offsets s' = offsets s /\ EstT s' = EstT s.
Proof.
  intros HB HX. unfold measurement.
  rewrite (bind_done _ _ _ _ _ (standard_deviation_run s HB)).
  rewrite <- (bind_assoc choose_aggregation (fun _ => aggregate) (fun _ => report_measurement)).
  match goal with
  | |- context [bind _ _ ?t] =>
      assert (HB1 : length (B t) = 12%nat) by (destruct s; exact HB);
      assert (HX1 : length (X t) = 12%nat) by (destruct s; exact HX);
      rewrite (bind_done _ _ _ _ _ (choose_aggregate_run t HB1 HX1))
  end.
  match goal with
  | |- context [report_measurement ?t] =>
      destruct (report_measurement_run t) as (new & Hrun & Hnew)
  end.
  { destruct s. unfold_setters. repeat destruct (flt _ _); exact HB. }
  { destruct s. unfold_setters. repeat destruct (flt _ _); simpl;
      rewrite ?length_insert; lia. }
  rewrite Hrun. eexists. exists new. split; [reflexivity |].
  split; [| split; [exact Hnew |]];
    destruct s; unfold_setters; unfold appended; unfold_setters;
    repeat destruct (flt _ _); simpl; rewrite ?length_insert; auto 10.
Qed.

(** The regression report on well-formed vectors runs to its end and prints
    its header first. *)
Lemma report_regression_run (s : state) :
  length (B s) = 12%nat -> length (T s) = 12%nat -> length (EstT s) = 12%nat ->
  exists new,
    report_regression s = Done tt (appended s (Printf regression_header [] :: new)).
Proof.
  intros HB HT HE. unfold report_regression.
  repeat (rewrite (bind_done _ _ _ _ _ (printf_run _ _ _)), ?appended_appended).
  match goal with
  | |- context [bind (printArray "B" B 12) _ ?t] =>
      destruct (printArray_run "B" B 12 t) as (newB & HrunB & _)
  end.
  { intros o t. destruct t; reflexivity. }
  { replace (B (appended s _)) with (B s) by (destruct s; reflexivity). lia. }
  rewrite (bind_done _ _ _ _ _ HrunB), appended_appended.
  rewrite (bind_done _ _ _ _ _ (printf_run _ _ _)), appended_appended.
  match goal with
  | |- context [bind (printArray "T" T 12) _ ?t] =>
      destruct (printArray_run "T" T 12 t) as (newT & HrunT & _)
  end.
  { intros o t. destruct t; reflexivity. }
  { replace (T (appended s _)) with (T s) by (destruct s; reflexivity). lia. }
  rewrite (bind_done _ _ _ _ _ HrunT), appended_appended.
  do 3 (unfold bind at 1; rewrite bind_get, printf_run, appended_appended).
  rewrite (bind_done _ _ _ _ _ (printf_run _ _ _)), appended_appended.
  match goal with
  | |- context [bind (printArray "EstT" EstT 12) _ ?t] =>
      destruct (printArray_run "EstT" EstT 12 t) as (newE & HrunE & _)
  end.
  { intros o t. destruct t; reflexivity. }
  { replace (EstT (appended s _)) with (EstT s) by (destruct s; reflexivity). lia. }
  rewrite (bind_done _ _ _ _ _ HrunE), appended_appended.
  rewrite printf_run, appended_appended. simpl.
  eexists. reflexivity.
Qed.

(** The regression block: it stops in the first median call when no slope
    was collected, and otherwise runs to its end and prints its report. *)
Lemma regression_run (s : state) :
  well_formed s ->
  match regression s with
  | Fault e s' =>
      pair_slopes (B s) (T s) = [] /\ e = OutOfBounds (-1) /\ out s' = out s /\
      readcount s' = readcount s /\ B s' = B s /\ T s' = T s /\ well_formed s'
  | Done _ s' =>
      pair_slopes (B s) (T s) <> [] /\
      (exists new, out s' = out s ++ Printf regression_header [] :: new) /\
      readcount s' = readcount s /\ B s' = B s /\ T s' = T s /\ well_formed s'
  end.
Proof.
  intros (HB & HT & HX & HS & HO & HE). unfold regression, bind at 1.
  rewrite (estimate_run s HB HT HS HO HE).
  pose proof (length_pair_slopes (B s) (T s)) as Hlen.
  set (sl := pair_slopes (B s) (T s)) in *.
  destruct sl as [| v sl'] eqn:Hsl.
  - change (Z.of_nat (length (@nil float))) with 0. rewrite getMedian_empty.
    split; [reflexivity |]. split; [reflexivity |].
    destruct s; unfold well_formed; unfold_setters; auto 10.
  - destruct (getMedian_run ((v :: sl') ++ drop (length (v :: sl')) (slopes s))
                (Z.of_nat (length (v :: sl'))))
      as (a & log & Hrun & _ & Hlena & _).
    { rewrite length_app, length_drop. simpl in *. lia. }
    rewrite Hrun.
    destruct (getMedian_run (offsets_of (middle a (Z.of_nat (length (v :: sl')))) (B s) (T s)) 12)
      as (a' & log' & Hrun' & _ & Hlena' & _).
    { rewrite length_offsets_of by assumption. lia. }
    rewrite Hrun'.
    rewrite length_app, length_drop in Hlena.
    rewrite length_offsets_of in Hlena' by assumption.
    match goal with
    | |- context [report_regression ?t] =>
        destruct (report_regression_run t) as (new & Hreport)
    end.
    { destruct s; exact HB. }
    { destruct s; exact HT. }
    { destruct s. unfold with_estimate, predicted. unfold_setters.
      rewrite length_map. exact HB. }
    rewrite Hreport. split; [discriminate |]. split.
    + exists new. destruct s; reflexivity.
    + destruct s. unfold well_formed, appended, with_estimate, with_median_slope, predicted.
      unfold_setters. rewrite length_map. simpl in Hlen, Hlena.
      repeat split; auto; simpl; lia.
Qed.

(** ** The read cycle *)

Lemma emitted_app (s s' : state) (new : list call) :
  out s' = out s ++ new -> emitted s s' = map format new.
Proof. intros Hout. unfold emitted. rewrite Hout, drop_app_length. reflexivity. Qed.

Lemma in_formats (allowed : list string) (new : list call) (f : string) :
  formats_in allowed new -> In f (map format new) -> In f allowed.
Proof.
  intros Hall Hin. apply in_map_iff in Hin as (c & <- & Hc).
  apply list_elem_of_In in Hc. exact (proj1 (Forall_forall _ _) Hall c Hc).
Qed.

Lemma regression_header_fresh :
  ~ In regression_header (sample_formats ++ measurement_header :: measurement_formats).
Proof.
  intros Hin. vm_compute in Hin.
  repeat (destruct Hin as [Hin | Hin]; [discriminate Hin |]). exact Hin.
Qed.

Lemma measurement_header_fresh : ~ In measurement_header sample_formats.
Proof.
  intros Hin. vm_compute in Hin.
  repeat (destruct Hin as [Hin | Hin]; [discriminate Hin |]). exact Hin.
Qed.

(** The beginning of an iteration: the counter, the two buffers and the
    line of the sample. *)
Lemma sample_run (s : state) (lightADC tempADC : Z) :
  well_formed s ->
  exists s2 new,
    out s2 = out s ++ new /\ map format new = sample_formats /\
    readcount s2 = (if readcount s <? 12 then readcount s + 1 else 1) /\
    well_formed s2 /\
    forall rest : M state unit,
      (advance_readcount ;;
       fifo_push (getLight lightADC) (getTemperature tempADC) ;;
       printf "Light: %d.%03u lx, " (fixed_args (getLight lightADC)) ;;
       printf ("Temp: %d.%03u C" ++ nl) (fixed_args (getTemperature tempADC)) ;;
       rest) s = rest s2.
Proof.
  intros (HB & HT & HX & HS & HO & HE).
  set (s0 := if readcount s <? 12 then set_readcount (readcount s + 1) s
             else set_readcount 1 s).
  assert (HB0 : length (B s0) = 12%nat)
    by (unfold s0; destruct s; destruct (_ <? _); exact HB).
  assert (HT0 : length (T s0) = 12%nat)
    by (unfold s0; destruct s; destruct (_ <? _); exact HT).
  eexists. eexists. split; [| split; [| split; [| split]]].
  5: { intros rest.
       rewrite (bind_done advance_readcount _ s s0 tt) by reflexivity.
       rewrite (bind_done _ _ _ _ _ (fifo_push_run s0 _ _ HB0 HT0)).
       rewrite (bind_done _ _ _ _ _ (printf_run _ _ _)).
       rewrite (bind_done _ _ _ _ _ (printf_run _ _ _)), appended_appended.
       reflexivity. }
  - unfold s0. destruct s. destruct (_ <? _); reflexivity.
  - reflexivity.
  - unfold s0. destruct s. destruct (_ <? _); reflexivity.
  - unfold s0, well_formed. destruct s. unfold appended. unfold_setters.
    destruct (_ <? _); unfold_setters;
      rewrite !length_app, !length_drop; simpl; repeat split; auto; lia.
Qed.

(** One iteration on a well-formed state, in full. *)
Lemma sensor_reading_step_run (s : state) (lightADC tempADC : Z) :
  well_formed s -> 0 <= readcount s <= 12 ->
  let o := sensor_reading_step lightADC tempADC s in
  let s' := final o in
  well_formed s' /\
  1 <= readcount s' <= 12 /\
  (readcount s < 12 -> readcount s' = readcount s + 1) /\
  (readcount s = 12 -> readcount s' = 1) /\
  (In measurement_header (emitted s s') <-> readcount s' = 6 \/ readcount s' = 12) /\
  (returned o = None <-> readcount s' = 12 /\ pair_slopes (B s') (T s') = []) /\
  (returned o = Some tt -> (In regression_header (emitted s s') <-> readcount s' = 12)).
Proof.
  intros Hwf Hrc o.
  destruct (sample_run s lightADC tempADC Hwf)
    as (s2 & new2 & Hout2 & Hfmt2 & Hrc2 & Hwf2 & Hstep).
  assert (Ho : o = ((s0 <- get ;;
                     if (readcount s0 =? k) || (readcount s0 =? 2 * k)
                     then measurement else ret tt) ;;
                    (s0 <- get ;; if readcount s0 =? 12 then regression else ret tt)) s2).
  { unfold o, sensor_reading_step. cbv zeta. apply Hstep. }
  clearbody o. clear Hstep.
  assert (Hrc2' : 1 <= readcount s2 <= 12 /\
                  (readcount s < 12 -> readcount s2 = readcount s + 1) /\
                  (readcount s = 12 -> readcount s2 = 1)).
  { rewrite Hrc2. destruct (readcount s <? 12) eqn:Hlt; lia. }
  clear Hrc2. destruct Hrc2' as (Hrange & Hnext & Hwrap).
  unfold bind at 1 in Ho. rewrite bind_get in Ho. unfold k in Ho.
  destruct ((readcount s2 =? 6) || (readcount s2 =? 2 * 6)) eqn:Hm.
  - destruct Hwf2 as (HB2 & HT2 & HX2 & HS2 & HO2 & HE2).
    destruct (measurement_run s2 HB2 HX2)
      as (s3 & new3 & Hrun3 & Hout3 & Hfmt3 & Hrc3 & HB3 & HT3 & HX3 & HS3 & HO3 & HE3).
    rewrite Hrun3, bind_get in Ho.
    assert (Hwf3 : well_formed s3).
    { unfold well_formed. rewrite HB3, HT3, HX3, HS3, HO3, HE3. auto 10. }
    assert (Hout3' : out s3 = out s ++ new2 ++ Printf measurement_header [AInt 6] :: new3).
    { rewrite Hout3, Hout2, <- app_assoc. reflexivity. }
    assert (Hhdr : In measurement_header (emitted s s3)).
    { rewrite (emitted_app _ _ _ Hout3'), map_app. apply in_or_app. right. left. reflexivity. }
    assert (Hnoreg : ~ In regression_header (emitted s s3)).
    { rewrite (emitted_app _ _ _ Hout3'), map_app, Hfmt2. simpl map. intros Hin.
      apply regression_header_fresh. apply in_app_or in Hin as [Hin | [Hin | Hin]].
      - apply in_or_app. left. exact Hin.
      - apply in_or_app. right. left. exact Hin.
      - apply in_or_app. right. right. exact (in_formats _ _ _ Hfmt3 Hin). }
    destruct (readcount s3 =? 12) eqn:H12.
    + pose proof (regression_run s3 Hwf3) as Hreg.
      destruct (regression s3) as [[] s4 | e s4]; subst o; simpl.
      * destruct Hreg as (Hsl & (new4 & Hout4) & Hrc4 & HB4 & HT4 & Hwf4).
        rewrite Hrc4, Hrc3, HB4, HT4.
        assert (Hout4' : out s4 = out s
                         ++ (new2 ++ Printf measurement_header [AInt 6] :: new3)
                         ++ Printf regression_header [] :: new4).
        { rewrite Hout4, Hout3', <- !app_assoc. reflexivity. }
        rewrite (emitted_app _ _ _ Hout4'), !map_app.
        split; [assumption |]. split; [lia |]. split; [assumption |].
        split; [assumption |]. split; [| split].
        -- split; [intros _; lia |]. intros _.
           apply in_or_app. left. apply in_or_app. right. left. reflexivity.
        -- split; [discriminate |]. intros [_ Hnil]. contradiction.
        -- intros _. split; [intros _; lia |]. intros _.
           apply in_or_app. right. left. reflexivity.
      * destruct Hreg as (Hsl & -> & Hout4 & Hrc4 & HB4 & HT4 & Hwf4).
        rewrite Hrc4, Hrc3, HB4, HT4.
        assert (Hem : emitted s s4 = emitted s s3).
        { unfold emitted. rewrite Hout4. reflexivity. }
        rewrite Hem.
        split; [assumption |]. split; [lia |]. split; [assumption |].
        split; [assumption |]. split; [| split].
        -- split; [intros _; lia | intros _; exact Hhdr].
        -- split; [intros _; split; [lia | exact Hsl] | reflexivity].
        -- discriminate.
    + subst o. unfold ret. simpl. rewrite Hrc3.
      split; [assumption |]. split; [lia |]. split; [assumption |].
      split; [assumption |]. split; [| split].
      * split; [intros _; lia | intros _; exact Hhdr].
      * split; [discriminate |]. intros [Heq _]. lia.
      * intros _. split; [intros Hin; contradiction | intros Heq; lia].
  - unfold ret at 1 in Ho. rewrite bind_get in Ho.
    assert (H12 : (readcount s2 =? 12) = false) by lia.
    rewrite H12 in Ho. subst o. unfold ret. simpl.
    assert (Hem : emitted s s2 = sample_formats).
    { rewrite (emitted_app _ _ _ Hout2). exact Hfmt2. }
    rewrite Hem.
    split; [assumption |]. split; [lia |]. split; [assumption |].
    split; [assumption |]. split; [| split].
    + split; [intros Hin; destruct (measurement_header_fresh Hin) | lia].
    + split; [discriminate |]. intros [Heq _]. lia.
    + intros _. split; [| intros Heq; lia].
      intros Hin. exfalso. apply regression_header_fresh. apply in_or_app. left. exact Hin.
Qed.

Lemma initial_well_formed : well_formed initial_state.
Proof. unfold well_formed. simpl. auto 10. Qed.

Lemma run_from_invariant (readings : list (Z * Z)) (s0 s : state) :
  well_formed s0 -> 0 <= readcount s0 <= 12 ->
  run_from s0 readings = Done tt s ->
  well_formed s /\ 0 <= readcount s <= 12.
Proof.
  revert s0. induction readings as [| [lightADC tempADC] rest IH]; intros s0 Hwf Hrc Hrun.
  - injection Hrun as <-. auto.
  - simpl in Hrun.
    pose proof (sensor_reading_step_run s0 lightADC tempADC Hwf Hrc) as Hstep.
    destruct (sensor_reading_step lightADC tempADC s0) as [[] s1 | e s1]; [| discriminate].
    simpl in Hstep. destruct Hstep as (Hwf1 & Hrc1 & _).
    apply (IH s1); [assumption | lia | assumption].
Qed.

Lemma reachable_well_formed (s : state) :
  reachable s -> well_formed s /\ 0 <= readcount s <= 12.
Proof.
  intros [readings Hrun]. apply (run_from_invariant readings initial_state s).
  - apply initial_well_formed.
  - simpl. lia.
  - exact Hrun.
Qed.

(** C8. At every timer event of every run of the process, the iteration
    leaves the read-cycle counter in [1,12], one more than before or 1 after
    12; the measurement block runs (its report is printed) exactly when the
    counter is then 6 or 12, and the regression block runs exactly when the
    counter is then 12: the iteration prints the regression report then and
    only then, unless the regression stops in its first median call, which
    happens exactly when the counter is 12 and no slope was collected. *)
Theorem read_cycle (s : state) (lightADC tempADC : Z) :
  reachable s ->
  let o := sensor_reading_step lightADC tempADC s in
  let s' := final o in
  1 <= readcount s' <= 12 /\
  (readcount s < 12 -> readcount s' = readcount s + 1) /\
  (readcount s = 12 -> readcount s' = 1) /\
  (In measurement_header (emitted s s') <-> readcount s' = 6 \/ readcount s' = 12) /\
  (returned o = None <-> readcount s' = 12 /\ pair_slopes (B s') (T s') = []) /\
  (returned o = Some tt -> (In regression_header (emitted s s') <-> readcount s' = 12)).
Proof.
  intros Hreach. apply reachable_well_formed in Hreach as [Hwf Hrc].
  apply (sensor_reading_step_run s lightADC tempADC Hwf Hrc).
Qed.

Lemma read_cycle_witness :
  let o := sensor_reading_step 100 978 initial_state in
  let s' := final o in
  1 <= readcount s' <= 12 /\
  (readcount initial_state < 12 -> readcount s' = readcount initial_state + 1) /\
  (readcount initial_state = 12 -> readcount s' = 1) /\
  (In measurement_header (emitted initial_state s') <-> readcount s' = 6 \/ readcount s' = 12) /\
  (returned o = None <-> readcount s' = 12 /\ pair_slopes (B s') (T s') = []) /\
  (returned o = Some tt ->
   (In regression_header (emitted initial_state s') <-> readcount s' = 12)).
Proof.
  apply (read_cycle initial_state 100 978). exists []. reflexivity.
Defined.

(** Twelve iterations on increasing readings: the counter reaches 12 and
    both reports are printed in the last one. *)
Example twelfth_iteration :
  let readings := map (fun i => (100 * i, 900 + 5 * i)) (seqZ 1 11) in
  let s := final (sensor_reading_process readings) in
  let s' := final (sensor_reading_step 1200 960 s) in
  readcount s = 11 /\ readcount s' = 12 /\
  In measurement_header (emitted s s') /\ In regression_header (emitted s s').
Proof.
  cbv zeta. split; [vm_compute; reflexivity |]. split; [vm_compute; reflexivity |].
  split; vm_compute; repeat first [left; reflexivity | right].
Qed.

(** * Further properties *)

(** Properties of the code beyond the design document: the process along a
    whole run (window, counter, output, when it stops), the exact output of
    [printArray] and of the two reports, the calibrated readings over the
    range of the 12-bit converters, and [getMedian] as a function of the
    array.  The Theil-Sen estimate of the design document is stated after
    the latter, on which it rests. *)

(** ** The window and the counter along a run *)

Lemma sample_explicit (s : state) (lightADC tempADC : Z) (rest : M state unit) :
  well_formed s ->
  (advance_readcount ;;
   fifo_push (getLight lightADC) (getTemperature tempADC) ;;
   printf "Light: %d.%03u lx, " (fixed_args (getLight lightADC)) ;;
   printf ("Temp: %d.%03u C" ++ nl) (fixed_args (getTemperature tempADC)) ;;
   rest) s = rest (sampled s lightADC tempADC).
Proof.
  intros (HB & HT & _).
  assert (HB0 : length (B (advanced s)) = 12%nat)
    by (unfold advanced; destruct s; destruct (_ <? _); exact HB).
  assert (HT0 : length (T (advanced s)) = 12%nat)
    by (unfold advanced; destruct s; destruct (_ <? _); exact HT).
  rewrite (bind_done advance_readcount _ s (advanced s) tt) by reflexivity.
  rewrite (bind_done _ _ _ _ _ (fifo_push_run (advanced s) _ _ HB0 HT0)).
  rewrite (bind_done _ _ _ _ _ (printf_run _ _ _)).
  rewrite (bind_done _ _ _ _ _ (printf_run _ _ _)), appended_appended.
  unfold sampled.
  replace (B (advanced s)) with (B s) by (unfold advanced; destruct s, (_ <? _); reflexivity).
  replace (T (advanced s)) with (T s) by (unfold advanced; destruct s, (_ <? _); reflexivity).
  reflexivity.
Qed.

Lemma sampled_fields (s : state) (lightADC tempADC : Z) :
  well_formed s ->
  let s2 := sampled s lightADC tempADC in
  B s2 = drop 1 (B s) ++ [getLight lightADC] /\
  T s2 = drop 1 (T s) ++ [getTemperature tempADC] /\
  well_formed s2 /\
  (exists new, out s2 = out s ++ new).
Proof.
  intros (HB & HT & HX & HS & HO & HE). unfold sampled, advanced, well_formed.
  destruct s. unfold appended. unfold_setters.
  destruct (_ <? _); unfold_setters;
    rewrite !length_app, !length_drop; simpl;
    (repeat split; auto; try lia); eexists; reflexivity.
Qed.

(** One iteration on a well-formed state pushes the two new values and only
    adds to the output, whether it runs to its end or stops. *)
Lemma sensor_reading_step_window (s : state) (lightADC tempADC : Z) :
  well_formed s ->
  let s' := final (sensor_reading_step lightADC tempADC s) in
  B s' = drop 1 (B s) ++ [getLight lightADC] /\
  T s' = drop 1 (T s) ++ [getTemperature tempADC] /\
  (exists new, out s' = out s ++ new).
Proof.
  intros Hwf.
  destruct (sampled_fields s lightADC tempADC Hwf) as (HB2 & HT2 & Hwf2 & new2 & Hout2).
  set (o := sensor_reading_step lightADC tempADC s).
  assert (Ho : o = ((s0 <- get ;;
                     if (readcount s0 =? k) || (readcount s0 =? 2 * k)
                     then measurement else ret tt) ;;
                    (s0 <- get ;; if readcount s0 =? 12 then regression else ret tt))
                     (sampled s lightADC tempADC)).
  { unfold o, sensor_reading_step. cbv zeta. apply sample_explicit. exact Hwf. }
  clearbody o. set (s2 := sampled s lightADC tempADC) in *.
  assert (Hwf2' := Hwf2). destruct Hwf2' as (HBl & HTl & HXl & HSl & HOl & HEl).
  unfold bind at 1 in Ho. rewrite bind_get in Ho.
  destruct ((readcount s2 =? k) || (readcount s2 =? 2 * k)).
  - destruct (measurement_run s2 HBl HXl)
      as (s3 & new3 & Hrun3 & Hout3 & _ & Hrc3 & HB3 & HT3 & HX3 & HS3 & HO3 & HE3).
    rewrite Hrun3, bind_get in Ho.
    assert (Hwf3 : well_formed s3).
    { unfold well_formed. rewrite HB3, HT3, HX3, HS3, HO3, HE3. auto 10. }
    destruct (readcount s3 =? 12).
    + pose proof (regression_run s3 Hwf3) as Hreg.
      destruct (regression s3) as [[] s4 | e s4]; subst o; simpl.
      * destruct Hreg as (_ & (new4 & Hout4) & _ & HB4 & HT4 & _).
        rewrite HB4, HT4, HB3, HT3, Hout4, Hout3, Hout2.
        split; [assumption |]. split; [assumption |].
        eexists. rewrite <- !app_assoc. reflexivity.
      * destruct Hreg as (_ & _ & Hout4 & _ & HB4 & HT4 & _).
        rewrite HB4, HT4, HB3, HT3, Hout4, Hout3, Hout2.
        split; [assumption |]. split; [assumption |].
        eexists. rewrite <- !app_assoc. reflexivity.
    + subst o. unfold ret. simpl. rewrite HB3, HT3, Hout3, Hout2.
      split; [assumption |]. split; [assumption |].
      eexists. rewrite <- !app_assoc. reflexivity.
  - unfold ret at 1 in Ho. rewrite bind_get in Ho.
    destruct (readcount s2 =? 12).
    + pose proof (regression_run s2 Hwf2) as Hreg.
      destruct (regression s2) as [[] s4 | e s4]; subst o; simpl.
      * destruct Hreg as (_ & (new4 & Hout4) & _ & HB4 & HT4 & _).
        rewrite HB4, HT4, Hout4, Hout2.
        split; [assumption |]. split; [assumption |].
        eexists. rewrite <- !app_assoc. reflexivity.
      * destruct Hreg as (_ & _ & Hout4 & _ & HB4 & HT4 & _).
        rewrite HB4, HT4, Hout4, Hout2.
        split; [assumption |]. split; [assumption |]. eexists. reflexivity.
    + subst o. unfold ret. simpl. split; [assumption |]. split; [assumption |].
      eexists. exact Hout2.
Qed.

Lemma run_from_snoc (s : state) (readings : list (Z * Z)) (r : Z * Z) :
  run_from s (readings ++ [r])
  = match run_from s readings with
    | Done _ s1 =>
        match sensor_reading_step r.1 r.2 s1 with
        | Done _ s2 => Done tt s2
        | Fault e s2 => Fault e s2
        end
    | Fault e s1 => Fault e s1
    end.
Proof.
  revert s. induction readings as [| [l t] rest IH]; intros s; simpl.
  - destruct r as [l t]. simpl. destruct (sensor_reading_step l t s); reflexivity.
  - destruct (sensor_reading_step l t s) as [[] s1 | e s1]; [apply IH | reflexivity].
Qed.

Lemma window_snoc (f : Z * Z -> float) (readings : list (Z * Z)) (r : Z * Z) :
  drop (length (readings ++ [r])) (replicate 12 zero ++ map f (readings ++ [r]))
  = drop 1 (drop (length readings) (replicate 12 zero ++ map f readings)) ++ [f r].
Proof.
  rewrite map_app, app_assoc, length_app.
  change (length [r]) with 1%nat. change (map f [r]) with [f r].
  rewrite drop_app_le by (rewrite length_app, length_replicate, length_map; lia).
  rewrite drop_drop. reflexivity.
Qed.

Lemma step_of_snoc (readings : list (Z * Z)) (r : Z * Z) (s : state) :
  sensor_reading_process (readings ++ [r]) = Done tt s ->
  exists s1,
    sensor_reading_process readings = Done tt s1 /\
    sensor_reading_step r.1 r.2 s1 = Done tt s.
Proof.
  unfold sensor_reading_process. rewrite run_from_snoc. intros Hrun.
  destruct (run_from initial_state readings) as [[] s1 | e s1]; [| discriminate].
  exists s1. split; [reflexivity |].
  destruct (sensor_reading_step r.1 r.2 s1) as [[] s2 | e s2]; [| discriminate].
  congruence.
Qed.

Lemma run_window (readings : list (Z * Z)) (s : state) :
  sensor_reading_process readings = Done tt s ->
  B s = light_window readings /\ T s = temperature_window readings.
Proof.
  revert s. induction readings as [| r readings IH] using rev_ind; intros s Hrun.
  - injection Hrun as <-. split; reflexivity.
  - apply step_of_snoc in Hrun as (s1 & Hrun1 & Hstep).
    destruct (IH s1 Hrun1) as [HB1 HT1].
    assert (Hwf1 : well_formed s1) by (apply reachable_well_formed; exists readings; exact Hrun1).
    pose proof (sensor_reading_step_window s1 r.1 r.2 Hwf1) as Hwin.
    rewrite Hstep in Hwin. simpl in Hwin. destruct Hwin as (HB & HT & _).
    unfold light_window, temperature_window.
    rewrite (window_snoc (fun r => getLight r.1)), (window_snoc (fun r => getTemperature r.2)).
    rewrite HB, HT, HB1, HT1. split; reflexivity.
Qed.

(** X1. After any run of the process that has not stopped, the two buffers
    hold the 12 most recent light and temperature values, oldest first, on
    top of the zeros they start with: neither report changes them. *)
Theorem window_holds_latest (readings : list (Z * Z)) (s : state) :
  sensor_reading_process readings = Done tt s ->
  B s = light_window readings /\ T s = temperature_window readings.
Proof. apply run_window. Qed.

Lemma window_holds_latest_witness :
  let readings := [(10, 900); (20, 905); (30, 910)] in
  let s := final (sensor_reading_process readings) in
  B s = light_window readings /\ T s = temperature_window readings.
Proof.
  apply (window_holds_latest [(10, 900); (20, 905); (30, 910)]). vm_compute. reflexivity.
Defined.

Lemma run_readcount (readings : list (Z * Z)) (s : state) :
  sensor_reading_process readings = Done tt s ->
  readings <> [] ->
  readcount s = (Z.of_nat (length readings) - 1) mod 12 + 1.
Proof.
  revert s. induction readings as [| r readings IH] using rev_ind; intros s Hrun Hne.
  - contradiction.
  - apply step_of_snoc in Hrun as (s1 & Hrun1 & Hstep).
    assert (Hreach : reachable s1) by (exists readings; exact Hrun1).
    destruct (reachable_well_formed s1 Hreach) as [Hwf1 Hrc1].
    pose proof (sensor_reading_step_run s1 r.1 r.2 Hwf1 Hrc1) as Hrun2.
    rewrite Hstep in Hrun2. simpl in Hrun2.
    destruct Hrun2 as (_ & _ & Hnext & Hwrap & _).
    rewrite length_app. simpl length.
    destruct readings as [| r0 readings'].
    + assert (Hrc0 : readcount s1 = 0) by (injection Hrun1 as <-; reflexivity).
      rewrite Hnext by lia. rewrite Hrc0. reflexivity.
    + specialize (IH s1 Hrun1 ltac:(discriminate)).
      set (n := Z.of_nat (length (r0 :: readings'))) in *.
      assert (Hn : 1 <= n) by (unfold n; simpl; lia).
      replace (Z.of_nat (length (r0 :: readings') + 1) - 1) with n by (unfold n; lia).
      destruct (Z.eq_dec (readcount s1) 12) as [H12 | H12].
      * rewrite (Hwrap H12). rewrite H12 in IH.
        Z.div_mod_to_equations. lia.
      * rewrite Hnext by lia. rewrite IH. Z.div_mod_to_equations. lia.
Qed.

(** X2. After a run of [n >= 1] samples that has not stopped, the counter
    is [(n - 1) mod 12 + 1]: it is 12 at every twelfth sample and 6 halfway
    between. *)
Theorem readcount_of_run (readings : list (Z * Z)) (s : state) :
  sensor_reading_process readings = Done tt s ->
  readings <> [] ->
  readcount s = (Z.of_nat (length readings) - 1) mod 12 + 1.
Proof. apply run_readcount. Qed.

Lemma readcount_of_run_witness :
  let readings := map (fun i => (100 * i, 900 + 5 * i)) (seqZ 1 14) in
  readcount (final (sensor_reading_process readings))
  = (Z.of_nat (length readings) - 1) mod 12 + 1.
Proof.
  apply (readcount_of_run (map (fun i => (100 * i, 900 + 5 * i)) (seqZ 1 14))).
  - vm_compute. reflexivity.
  - discriminate.
Defined.

(** ** When the process stops *)

Lemma flat_map_nil {A C} (f : A -> list C) (l : list A) :
  flat_map f l = [] <-> forall x, In x l -> f x = [].
Proof.
  induction l as [| a l IH]; simpl.
  - split; [intros _ x [] | reflexivity].
  - split.
    + intros Happ x [<- | Hx].
      * destruct (f a); [reflexivity | discriminate].
      * apply IH; [| exact Hx]. destruct (f a); [exact Happ | discriminate].
    + intros Hall. rewrite (Hall a) by (left; reflexivity). simpl.
      apply IH. intros x Hx. apply Hall. right. exact Hx.
Qed.

Lemma in_seqZ (m n x : Z) : In x (seqZ m n) <-> m <= x < m + n.
Proof. rewrite <- list_elem_of_In. apply elem_of_seqZ. Qed.

(** No slope is collected exactly when no two light values differ. *)
Lemma pair_slopes_nil (light temp : list float) :
  pair_slopes light temp = [] <-> flat_window light.
Proof.
  unfold pair_slopes, flat_window. rewrite flat_map_nil. split.
  - intros Hall i j Hij Hj.
    specialize (Hall i). rewrite in_seqZ in Hall. specialize (Hall ltac:(lia)).
    unfold row_slopes in Hall. rewrite flat_map_nil in Hall.
    specialize (Hall j). rewrite in_seqZ in Hall. specialize (Hall ltac:(lia)).
    unfold pair_slope in Hall.
    destruct (fne (nth (Z.to_nat i) light zero) (nth (Z.to_nat j) light zero));
      [discriminate | reflexivity].
  - intros Hflat i Hi. apply in_seqZ in Hi.
    unfold row_slopes. apply flat_map_nil. intros j Hj. apply in_seqZ in Hj.
    unfold pair_slope. rewrite Hflat by lia. reflexivity.
Qed.

Lemma process_snoc_stops (readings : list (Z * Z)) (r : Z * Z) (s1 : state) :
  sensor_reading_process readings = Done tt s1 ->
  (returned (sensor_reading_process (readings ++ [r])) = None <->
   (Z.of_nat (length readings) + 1) mod 12 = 0 /\
   flat_window (light_window (readings ++ [r]))).
Proof.
  intros Hrun1.
  assert (Hreach : reachable s1) by (exists readings; exact Hrun1).
  destruct (reachable_well_formed s1 Hreach) as [Hwf1 Hrc1].
  destruct (run_window readings s1 Hrun1) as [HB1 _].
  pose proof (sensor_reading_step_run s1 r.1 r.2 Hwf1 Hrc1) as Hstep.
  pose proof (sensor_reading_step_window s1 r.1 r.2 Hwf1) as Hwin.
  unfold sensor_reading_process in *. rewrite run_from_snoc, Hrun1.
  cbv zeta in Hstep, Hwin.
  destruct Hstep as (_ & _ & Hnext & Hwrap & _ & Hstop & _).
  destruct Hwin as (HB & _ & _).
  assert (HBw : B (final (sensor_reading_step r.1 r.2 s1)) = light_window (readings ++ [r])).
  { rewrite HB, HB1. unfold light_window.
    rewrite (window_snoc (fun r => getLight r.1)). reflexivity. }
  rewrite HBw, pair_slopes_nil in Hstop.
  assert (Hcount : readcount (final (sensor_reading_step r.1 r.2 s1)) = 12 <->
                   (Z.of_nat (length readings) + 1) mod 12 = 0).
  { destruct readings as [| r0 readings'].
    - assert (Hrc0 : readcount s1 = 0) by (injection Hrun1 as <-; reflexivity).
      rewrite Hnext by lia. rewrite Hrc0.
      change ((Z.of_nat (length (@nil (Z * Z))) + 1) mod 12) with 1.
      split; discriminate.
    - pose proof (run_readcount _ _ Hrun1 ltac:(discriminate)) as Hrc.
      set (n := Z.of_nat (length (r0 :: readings'))) in *.
      assert (Hn : 1 <= n) by (unfold n; simpl; lia).
      destruct (Z.eq_dec (readcount s1) 12) as [H12 | H12].
      + rewrite (Hwrap H12). rewrite H12 in Hrc. split; [discriminate |].
        intros Hmod. exfalso. revert Hrc Hmod. Z.div_mod_to_equations. lia.
      + rewrite Hnext by lia. rewrite Hrc. Z.div_mod_to_equations. lia. }
  rewrite <- Hcount, <- Hstop.
  destruct (sensor_reading_step r.1 r.2 s1) as [[] s2 | e s2]; simpl; tauto.
Qed.

Lemma process_stops_at (readings : list (Z * Z)) :
  returned (sensor_reading_process readings) = None <->
  exists k : nat,
    (1 <= k <= length readings)%nat /\ Z.of_nat k mod 12 = 0 /\
    flat_window (light_window (take k readings)).
Proof.
  induction readings as [| r readings IH] using rev_ind.
  - simpl. split; [discriminate |]. intros (k & Hk & _). simpl in Hk. lia.
  - destruct (sensor_reading_process readings) as [[] s1 | e s1] eqn:Hrun1.
    + rewrite (process_snoc_stops readings r s1 Hrun1). split.
      * intros [Hmod Hflat]. exists (length (readings ++ [r])).
        rewrite length_app. simpl length. split; [lia |].
        split; [rewrite <- Hmod; f_equal; lia |].
        rewrite take_ge by (rewrite length_app; simpl; lia). exact Hflat.
      * intros (k & Hk & Hmod & Hflat). rewrite length_app in Hk. simpl in Hk.
        destruct (decide (k = length readings + 1)%nat) as [-> | Hne].
        -- split; [rewrite <- Hmod; f_equal; lia |].
           rewrite take_ge in Hflat by (rewrite length_app; simpl; lia). exact Hflat.
        -- exfalso. assert (Hnone : returned (Done tt s1 : outcome state unit) = None).
           { apply IH. exists k. rewrite take_app_le in Hflat by lia.
             split; [lia |]. split; assumption. }
           discriminate Hnone.
    + unfold sensor_reading_process in *. rewrite run_from_snoc, Hrun1. simpl.
      split; [| reflexivity]. intros _.
      destruct (proj1 IH eq_refl) as (k & Hk & Hmod & Hflat).
      exists k. rewrite length_app, take_app_le by lia.
      split; [lia |]. split; assumption.
Qed.

(** X3. The process stops (in the out-of-bounds read of the median routine)
    exactly when the number of some sample is a multiple of 12 and no two of
    the 12 light values in the window differ at that sample; in particular
    it never stops during the first 11 samples. *)
Theorem process_stops_iff_flat_window (readings : list (Z * Z)) :
  (returned (sensor_reading_process readings) = None <->
   exists k : nat,
     (1 <= k <= length readings)%nat /\ Z.of_nat k mod 12 = 0 /\
     flat_window (light_window (take k readings))) /\
  ((length readings < 12)%nat -> returned (sensor_reading_process readings) = Some tt).
Proof.
  split; [apply process_stops_at |].
  intros Hshort. destruct (returned (sensor_reading_process readings)) as [[] |] eqn:Hret;
    [reflexivity |].
  apply process_stops_at in Hret as (k & Hk & Hmod & _). exfalso.
  revert Hmod. Z.div_mod_to_equations. lia.
Qed.

(** ** What [printArray] prints *)

Lemma for_range_first {St} (lo hi : Z) (body : Z -> M St unit) (s : St) :
  lo < hi -> for_range lo hi body s = (body lo ;; for_range (lo + 1) hi body) s.
Proof.
  intros Hlt. unfold for_range.
  replace (Z.to_nat (hi - lo)) with (Datatypes.S (Z.to_nat (hi - (lo + 1)))) by lia.
  reflexivity.
Qed.

Lemma element_calls_snoc (values : list float) (v : float) :
  values <> [] ->
  element_calls (values ++ [v]) = element_calls values ++ [separator_call; number_call v].
Proof.
  intros Hne. destruct values as [| w rest]; [contradiction |].
  simpl. rewrite flat_map_app. reflexivity.
Qed.

Lemma take_succ_nth (a : list float) (i : nat) :
  (i < length a)%nat -> take (Datatypes.S i) a = take i a ++ [nth i a zero].
Proof.
  intros Hi. destruct (lookup_lt_is_Some_2 a i Hi) as [x Hx].
  rewrite (take_S_r _ _ _ Hx), (nth_lookup_Some _ _ _ _ Hx). reflexivity.
Qed.

Lemma printArray_calls (name : string) (arr : state -> list float) (n : Z) (s : state) :
  (forall o t, arr (set_out o t) = arr t) ->
  0 <= n <= Z.of_nat (length (arr s)) ->
  printArray name arr n s
  = Done tt (appended s (array_calls name (take (Z.to_nat n) (arr s)))).
Proof.
  intros Harr Hn. unfold printArray, bind at 1. rewrite printf_run.
  set (opening := Printf (nl ++ "%s = [") [AString name]).
  destruct (for_range_invariant
              (fun i t =>
                 t = appended s
                       (opening :: element_calls (take (Z.to_nat i) (arr s))
                        ++ (if (0 <? i) && (i <? n) then [separator_call] else [])))
              0 n
              (fun i =>
                 a <- load arr i ;;
                 b <- load arr i ;;
                 printf "%d.%03u" [AInt (d1 a); AUnsigned (d2 b)] ;;
                 if i <? n - 1 then printf ", " [] else ret tt)
              (appended s [opening]))
    as (t & Hrun & ->).
  - lia.
  - reflexivity.
  - intros i t Hi ->. unfold bind.
    rewrite !load_run by (unfold appended; rewrite Harr; lia).
    replace (arr (appended s _)) with (arr s) by (unfold appended; rewrite Harr; reflexivity).
    rewrite printf_run, appended_appended.
    fold (number_call (nth (Z.to_nat i) (arr s) zero)). fold separator_call.
    assert (Hlast : (i <? n - 1) = (i + 1 <? n)) by lia.
    assert (Hpos : (0 <? i + 1) = true) by lia.
    rewrite Hlast, Hpos. simpl andb.
    replace (Z.to_nat (i + 1)) with (Datatypes.S (Z.to_nat i)) by lia.
    rewrite take_succ_nth by lia.
    assert (Hshape :
              element_calls (take (Z.to_nat i) (arr s))
              ++ (if (0 <? i) && (i <? n) then [separator_call] else [])
              ++ [number_call (nth (Z.to_nat i) (arr s) zero)]
              = element_calls (take (Z.to_nat i) (arr s) ++ [nth (Z.to_nat i) (arr s) zero])).
    { destruct (Z.eq_dec i 0) as [-> | Hi0]; [reflexivity |].
      assert (Hi1 : (0 <? i) && (i <? n) = true) by lia. rewrite Hi1.
      rewrite element_calls_snoc; [reflexivity |].
      intros Hnil. apply (f_equal length) in Hnil.
      rewrite length_take in Hnil. simpl in Hnil. lia. }
    destruct (i + 1 <? n).
    + rewrite printf_run, appended_appended. eexists. split; [reflexivity |].
      f_equal. simpl. f_equal. rewrite <- Hshape, <- !app_assoc. reflexivity.
    + eexists. split; [reflexivity |].
      f_equal. simpl. f_equal. rewrite <- Hshape, <- !app_assoc, app_nil_r. reflexivity.
  - rewrite (bind_done _ _ _ _ _ Hrun), printf_run, appended_appended.
    assert (Hend : (0 <? n) && (n <? n) = false) by lia. rewrite Hend, app_nil_r.
    reflexivity.
Qed.

(** X4. Called with a count from 0 to the size of the array, [printArray]
    runs to its end, changes nothing but the output, and prints the opening
    with the name, the first [n] elements in order as I.FFF with ", " between
    them (none after the last) and the closing; for [n = 0] the opening and
    the closing only. *)
Theorem printArray_prints (name : string) (arr : state -> list float) (n : Z) (s : state) :
  (forall o t, arr (set_out o t) = arr t) ->
  0 <= n <= Z.of_nat (length (arr s)) ->
  printArray name arr n s
  = Done tt (appended s (array_calls name (take (Z.to_nat n) (arr s)))).
Proof. apply printArray_calls. Qed.

Lemma printArray_prints_witness :
  printArray "B" B 3 sample_state
  = Done tt (appended sample_state (array_calls "B" (take (Z.to_nat 3) (B sample_state)))).
Proof.
  apply (printArray_prints "B" B 3 sample_state).
  - intros o t. destruct t. reflexivity.
  - simpl. lia.
Defined.

(** The text printed for the first three light values of the sample state. *)
Example printArray_text :
  render_all (array_calls "B" (take 3 (B sample_state)))
  = (nl ++ "B = [1.000, 2.000, 3.000]" ++ nl)%string.
Proof. vm_compute. reflexivity. Qed.

Lemma for_range_split {St} (lo mid hi : Z) (body : Z -> M St unit) (s : St) :
  lo <= mid <= hi ->
  for_range lo hi body s = (for_range lo mid body ;; for_range mid hi body) s.
Proof.
  intros Hle. remember (Z.to_nat (mid - lo)) as n eqn:Hn.
  revert lo s Hle Hn. induction n as [| n IH]; intros lo s Hle Hn.
  - assert (lo = mid) by lia. subst lo.
    unfold bind. rewrite (for_range_empty mid mid) by lia. reflexivity.
  - rewrite (for_range_first lo hi) by lia.
    unfold bind. rewrite (for_range_first lo mid) by lia. unfold bind.
    destruct (body lo s) as [[] t | e t]; [| reflexivity].
    rewrite (IH (lo + 1) t) by lia. reflexivity.
Qed.

Lemma load_outside (arr : state -> list float) (i : Z) (s : state) :
  Z.of_nat (length (arr s)) <= i -> load arr i s = Fault (OutOfBounds i) s.
Proof.
  intros Hi. unfold load, aread, in_bounds.
  replace (i <? Z.of_nat (length (arr s))) with false by lia.
  rewrite andb_false_r. reflexivity.
Qed.

(** X5. [printArray] does not check its count against the array: called with
    a count above the size, it prints the opening and every element, each
    followed by ", ", and then reads the element one past the end. *)
Theorem printArray_overrun (name : string) (arr : state -> list float) (n : Z) (s : state) :
  (forall o t, arr (set_out o t) = arr t) ->
  Z.of_nat (length (arr s)) < n ->
  printArray name arr n s
  = Fault (OutOfBounds (Z.of_nat (length (arr s))))
      (appended s
         (Printf (nl ++ "%s = [") [AString name]
          :: flat_map (fun v => [number_call v; separator_call]) (arr s))).
Proof.
  intros Harr Hn. unfold printArray, bind at 1. rewrite printf_run.
  set (opening := Printf (nl ++ "%s = [") [AString name]).
  set (len := Z.of_nat (length (arr s))) in *.
  unfold bind at 1.
  rewrite (for_range_split 0 len n) by lia. unfold bind at 1.
  destruct (for_range_invariant
              (fun i t =>
                 t = appended s
                       (opening :: flat_map (fun v => [number_call v; separator_call])
                                     (take (Z.to_nat i) (arr s))))
              0 len
              (fun i =>
                 a <- load arr i ;;
                 b <- load arr i ;;
                 printf "%d.%03u" [AInt (d1 a); AUnsigned (d2 b)] ;;
                 if i <? n - 1 then printf ", " [] else ret tt)
              (appended s [opening]))
    as (t & Hrun & ->).
  - lia.
  - reflexivity.
  - intros i t Hi ->. unfold bind.
    rewrite !load_run by (unfold appended; rewrite Harr; lia).
    replace (arr (appended s _)) with (arr s) by (unfold appended; rewrite Harr; reflexivity).
    rewrite printf_run, appended_appended.
    replace (i <? n - 1) with true by lia.
    rewrite printf_run, appended_appended.
    eexists. split; [reflexivity |].
    replace (Z.to_nat (i + 1)) with (Datatypes.S (Z.to_nat i)) by lia.
    rewrite take_succ_nth by lia. rewrite flat_map_app.
    f_equal. simpl. rewrite <- !app_assoc. reflexivity.
  - rewrite Hrun. rewrite for_range_first by lia. unfold bind.
    rewrite load_outside by (unfold appended; rewrite Harr; fold len; lia).
    unfold len. rewrite Nat2Z.id, firstn_all. reflexivity.
Qed.

Lemma printArray_overrun_witness :
  printArray "B" B 13 sample_state
  = Fault (OutOfBounds (Z.of_nat (length (B sample_state))))
      (appended sample_state
         (Printf (nl ++ "%s = [") [AString "B"]
          :: flat_map (fun v => [number_call v; separator_call]) (B sample_state))).
Proof.
  apply (printArray_overrun "B" B 13 sample_state).
  - intros o t. destruct t. reflexivity.
  - simpl. lia.
Defined.

(** ** The calibrated readings of the 12-bit converters *)

Lemma on_adc_values (check : Z -> bool) :
  forallb check adc_values = true -> forall raw, 0 <= raw <= 4095 -> check raw = true.
Proof.
  intros Hall raw Hraw. rewrite forallb_forall in Hall. apply Hall.
  apply in_seqZ. lia.
Qed.

Lemma printed_close_dec_spec (v : float) :
  printed_close_dec v = true <-> printed_close v.
Proof.
  unfold printed_close_dec, printed_close_with, printed_close. rewrite negb_true_iff.
  split.
  - intros Hb. apply Qnot_le_lt. intros Hle. apply Qle_bool_iff in Hle. congruence.
  - intros Hlt. destruct (Qle_bool _ _) eqn:Hb; [| reflexivity].
    apply Qle_bool_iff in Hb. exfalso. exact (Qlt_not_le _ _ Hlt Hb).
Qed.

Lemma key_lt_trans (x y z : Z * Z * Z) : key_lt x y -> key_lt y z -> key_lt x z.
Proof. unfold key_lt. lia. Qed.

Lemma flt_trans (a b c : float) : flt a b = true -> flt b c = true -> flt a c = true.
Proof.
  rewrite !flt_true. intros (Ha & Hb & Hab) (_ & Hc & Hbc).
  repeat split; try assumption. exact (key_lt_trans _ _ _ Hab Hbc).
Qed.

Lemma fle_flt_trans (a b c : float) : fle a b = true -> flt b c = true -> fle a c = true.
Proof.
  rewrite !fle_true, flt_true. unfold key_le, key_lt.
  intros (? & _ & H1) (_ & ? & H2). repeat split; auto. lia.
Qed.

Lemma increasing_from_steps (f : Z -> float) (hi : Z) :
  (forall raw, 0 <= raw < hi -> flt (f raw) (f (raw + 1)) = true) ->
  forall a b, 0 <= a -> a < b -> b <= hi -> flt (f a) (f b) = true.
Proof.
  intros Hstep a b Ha Hab Hb.
  remember (Z.to_nat (b - a - 1)) as n eqn:Hn. revert b Hab Hb Hn.
  induction n as [| n IH]; intros b Hab Hb Hn.
  - replace b with (a + 1) by lia. apply Hstep. lia.
  - apply (flt_trans _ (f (b - 1))).
    + apply IH; lia.
    + replace b with (b - 1 + 1) at 2 by lia. apply Hstep. lia.
Qed.

Lemma increasing_lookup (values : list float) (i : nat) (x y : float) :
  increasing values = true ->
  values !! i = Some x -> values !! Datatypes.S i = Some y -> flt x y = true.
Proof.
  revert i. induction values as [| v values IH]; intros i Hinc Hx Hy; [discriminate |].
  destruct values as [| w values]; [discriminate |].
  simpl in Hinc. apply andb_true_iff in Hinc as [Hvw Hrest].
  destruct i as [| i].
  - simpl in Hx, Hy. congruence.
  - exact (IH i Hrest Hx Hy).
Qed.

Lemma increasing_table (f : Z -> float) (raw : Z) :
  increasing (map f adc_values) = true ->
  0 <= raw < 4095 -> flt (f raw) (f (raw + 1)) = true.
Proof.
  intros Hinc Hraw.
  apply (increasing_lookup (map f adc_values) (Z.to_nat raw)); [exact Hinc | |].
  - change (map f adc_values) with (f <$> seqZ 0 4096).
    rewrite list_lookup_fmap, lookup_seqZ_lt by lia. simpl. do 2 f_equal. lia.
  - change (map f adc_values) with (f <$> seqZ 0 4096).
    rewrite list_lookup_fmap, lookup_seqZ_lt by lia. simpl. do 2 f_equal. lia.
Qed.

Lemma calibration_tables_checked :
  increasing (map getLight adc_values) && increasing (map getTemperature adc_values) = true.
Proof. vm_cast_no_check (eq_refl true). Qed.

Lemma calibration_ends_checked :
  fle (float_of_int 0) (getLight 0) && flt (getLight 4095) (float_of_int 9373)
  && flt (float_of_int (-40)) (getTemperature 0)
  && flt (getTemperature 4095) (float_of_int 125) = true.
Proof. vm_cast_no_check (eq_refl true). Qed.

Lemma calibration_step (raw : Z) :
  0 <= raw < 4095 ->
  flt (getLight raw) (getLight (raw + 1)) = true /\
  flt (getTemperature raw) (getTemperature (raw + 1)) = true.
Proof.
  intros Hraw. pose proof calibration_tables_checked as Htables.
  apply andb_true_iff in Htables as [Hlight Htemp].
  split; apply increasing_table; assumption.
Qed.

Lemma calibration_range (raw : Z) :
  0 <= raw <= 4095 ->
  fle (float_of_int 0) (getLight raw) = true /\
  flt (getLight raw) (float_of_int 9373) = true /\
  flt (float_of_int (-40)) (getTemperature raw) = true /\
  flt (getTemperature raw) (float_of_int 125) = true.
Proof.
  intros Hraw. pose proof calibration_ends_checked as H.
  apply andb_true_iff in H. destruct H as [H H4].
  apply andb_true_iff in H. destruct H as [H H3].
  apply andb_true_iff in H. destruct H as [H1 H2].
  assert (Hlight : forall a b, 0 <= a -> a < b -> b <= 4095 ->
                     flt (getLight a) (getLight b) = true).
  { apply increasing_from_steps. intros r Hr. exact (proj1 (calibration_step r Hr)). }
  assert (Htemp : forall a b, 0 <= a -> a < b -> b <= 4095 ->
                    flt (getTemperature a) (getTemperature b) = true).
  { apply increasing_from_steps. intros r Hr. exact (proj2 (calibration_step r Hr)). }
  split; [| split; [| split]].
  - destruct (Z.eq_dec raw 0) as [-> | Hne]; [exact H1 |].
    apply (fle_flt_trans _ _ _ H1). apply Hlight; lia.
  - destruct (Z.eq_dec raw 4095) as [-> | Hne]; [exact H2 |].
    apply (flt_trans _ (getLight 4095)); [apply Hlight; lia | exact H2].
  - destruct (Z.eq_dec raw 0) as [-> | Hne]; [exact H3 |].
    apply (flt_trans _ (getTemperature 0)); [exact H3 | apply Htemp; lia].
  - destruct (Z.eq_dec raw 4095) as [-> | Hne]; [exact H4 |].
    apply (flt_trans _ (getTemperature 4095)); [apply Htemp; lia | exact H4].
Qed.

(** X6. Over the values of the 12-bit converters both calibration functions
    are strictly increasing; the light is between 0 and 9373 lx and the
    temperature between -40 and 125 degrees. *)
Theorem calibration_increasing (a b : Z) :
  0 <= a -> a < b -> b <= 4095 ->
  flt (getLight a) (getLight b) = true /\
  flt (getTemperature a) (getTemperature b) = true /\
  fle (float_of_int 0) (getLight a) = true /\
  flt (getLight b) (float_of_int 9373) = true /\
  flt (float_of_int (-40)) (getTemperature a) = true /\
  flt (getTemperature b) (float_of_int 125) = true.
Proof.
  intros Ha Hab Hb.
  destruct (calibration_range a ltac:(lia)) as (Ha1 & _ & Ha3 & _).
  destruct (calibration_range b ltac:(lia)) as (_ & Hb2 & _ & Hb4).
  split; [| split; [| split; [exact Ha1 | split; [exact Hb2 | split; [exact Ha3 | exact Hb4]]]]].
  - apply (increasing_from_steps getLight 4095); try assumption.
    intros raw Hraw. exact (proj1 (calibration_step raw Hraw)).
  - apply (increasing_from_steps getTemperature 4095); try assumption.
    intros raw Hraw. exact (proj2 (calibration_step raw Hraw)).
Qed.

Lemma calibration_increasing_witness :
  flt (getLight 100) (getLight 101) = true /\
  flt (getTemperature 100) (getTemperature 101) = true /\
  fle (float_of_int 0) (getLight 100) = true /\
  flt (getLight 101) (float_of_int 9373) = true /\
  flt (float_of_int (-40)) (getTemperature 100) = true /\
  flt (getTemperature 101) (float_of_int 125) = true.
Proof. apply (calibration_increasing 100 101); lia. Defined.

Lemma printed_readings_checked :
  forallb (fun raw =>
             let light := getLight raw in
             let temp := getTemperature raw in
             let light_fraction := d2 light in
             let temp_integer := d1 temp in
             let temp_fraction := d2 temp in
             let signless := (966 <=? raw) && (raw <=? 989) in
             (0 <=? light_fraction) && (light_fraction <=? 999)
             && (0 <=? temp_fraction) && (temp_fraction <=? 999)
             && printed_close_with light (d1 light) light_fraction
             && eqb (printed_close_with temp temp_integer temp_fraction) (negb signless)
             && (negb signless || (flt temp (float_of_int 0) && (temp_integer =? 0))))
          adc_values = true.
Proof. vm_cast_no_check (eq_refl true). Qed.

(** X7. For every value of the 12-bit converters the fraction printed by
    [d2] has three digits.  The printed light is always less than one
    thousandth away from the reading.  The printed temperature is so except
    for the raw values 966 to 989, the readings between -1 and 0, which are
    printed without their sign. *)
Theorem printed_reading_accuracy (raw : Z) :
  0 <= raw <= 4095 ->
  0 <= d2 (getLight raw) <= 999 /\
  0 <= d2 (getTemperature raw) <= 999 /\
  printed_close (getLight raw) /\
  (printed_close (getTemperature raw) <-> ~ 966 <= raw <= 989) /\
  (966 <= raw <= 989 ->
   flt (getTemperature raw) (float_of_int 0) = true /\ d1 (getTemperature raw) = 0).
Proof.
  intros Hraw.
  pose proof (on_adc_values _ printed_readings_checked raw Hraw) as H. cbv beta zeta in H.
  apply andb_true_iff in H. destruct H as [H H7].
  apply andb_true_iff in H. destruct H as [H H6].
  apply andb_true_iff in H. destruct H as [H H5].
  apply andb_true_iff in H. destruct H as [H H4].
  apply andb_true_iff in H. destruct H as [H H3].
  apply andb_true_iff in H. destruct H as [H1 H2].
  apply eqb_prop in H6.
  apply Z.leb_le in H1, H2, H3, H4.
  fold (printed_close_dec (getLight raw)) in H5.
  fold (printed_close_dec (getTemperature raw)) in H6.
  split; [split; assumption |]. split; [split; assumption |].
  split; [apply printed_close_dec_spec; exact H5 |].
  split.
  - rewrite <- printed_close_dec_spec, H6, negb_true_iff. clear. lia.
  - intros Hin. apply orb_true_iff in H7. destruct H7 as [H7 | H7].
    + apply negb_true_iff in H7. clear - H7 Hin. lia.
    + apply andb_true_iff in H7. destruct H7 as [H7 H8].
      apply Z.eqb_eq in H8. split; assumption.
Qed.

Lemma printed_reading_accuracy_witness :
  0 <= d2 (getLight 978) <= 999 /\
  0 <= d2 (getTemperature 978) <= 999 /\
  printed_close (getLight 978) /\
  (printed_close (getTemperature 978) <-> ~ 966 <= 978 <= 989) /\
  (966 <= 978 <= 989 ->
   flt (getTemperature 978) (float_of_int 0) = true /\ d1 (getTemperature 978) = 0).
Proof. apply (printed_reading_accuracy 978). lia. Defined.

(** ** The median as the central element *)

Lemma length_filter_all {A} (P : A -> Prop) `{forall x, Decision (P x)} (l : list A) :
  Forall P l -> length (filter P l) = length l.
Proof.
  induction 1 as [| x l Hx Hl IH]; [reflexivity |].
  rewrite filter_cons_True by assumption. simpl. rewrite IH. reflexivity.
Qed.

Lemma fle_refl (v : float) : is_nan v = false -> fle v v = true.
Proof. intros Hv. apply fle_true. repeat split; try assumption. unfold key_le. lia. Qed.

Lemma sorted_around (sorted : list float) (h : nat) (m : float) :
  StronglySorted (fun x y => fle x y = true) sorted ->
  Forall (fun x => is_nan x = false) sorted ->
  sorted !! h = Some m ->
  Forall (fun x => fle x m = true) (take (Datatypes.S h) sorted) /\
  Forall (fun x => fle m x = true) (drop h sorted).
Proof.
  intros Hsorted Hnan Hm.
  assert (Hmn : is_nan m = false).
  { rewrite Forall_forall in Hnan. apply Hnan.
    eapply list_elem_of_lookup_2. exact Hm. }
  split.
  - rewrite (take_S_r _ _ _ Hm). apply Forall_app. split.
    + rewrite <- (take_drop h sorted) in Hsorted.
      apply Forall_forall. intros x Hx.
      apply (StronglySorted_app_1_elem_of _ _ _ _ _ Hsorted); [exact Hx |].
      rewrite (drop_S _ _ _ Hm). left.
    + constructor; [apply fle_refl; assumption | constructor].
  - rewrite (drop_S _ _ _ Hm). constructor; [apply fle_refl; assumption |].
    rewrite <- (take_drop (Datatypes.S h) sorted) in Hsorted.
    apply Forall_forall. intros x Hx.
    apply (StronglySorted_app_1_elem_of _ _ _ _ _ Hsorted); [| exact Hx].
    rewrite (take_S_r _ _ _ Hm). apply elem_of_app. right. left.
Qed.

(** X8. For an odd count [getMedian] returns one of the first [n] elements of
    the array; when none of them is a NaN, more than half of them are less
    than or equal to it and more than half are greater than or equal to it. *)
Theorem odd_median_is_central (TS : list float) (n : Z) :
  1 <= n <= Z.of_nat (length TS) ->
  Z.odd n = true ->
  exists m,
    returned (call_getMedian TS n) = Some m /\
    In m (take (Z.to_nat n) TS) /\
    (Forall (fun x => is_nan x = false) (take (Z.to_nat n) TS) ->
     n < 2 * Z.of_nat (length (filter (fun x => fle x m = true) (take (Z.to_nat n) TS))) /\
     n < 2 * Z.of_nat (length (filter (fun x => fle m x = true) (take (Z.to_nat n) TS)))).
Proof.
  intros Hn Hodd.
  destruct (getMedian_run TS n Hn) as (a & log & Hrun & _ & Hlen & Hperm & _ & Hasc).
  assert (Heven : Z.even n = false) by (rewrite <- Z.negb_odd, Hodd; reflexivity).
  assert (Hhalf : n = 2 * (n / 2) + 1).
  { pose proof (Z_div_mod_eq_full n 2) as Hdiv. pose proof (Zmod_odd n) as Hmod.
    rewrite Hodd in Hmod. lia. }
  unfold middle in Hrun. rewrite Heven in Hrun.
  set (h := Z.to_nat (n / 2)) in *.
  set (sorted := take (Z.to_nat n) a) in *.
  assert (Hh : (h < length a)%nat) by lia.
  destruct (lookup_lt_is_Some_2 a h Hh) as [m Hm].
  rewrite (nth_lookup_Some _ _ _ _ Hm) in Hrun.
  assert (Hms : sorted !! h = Some m).
  { unfold sorted. rewrite lookup_take_lt by lia. exact Hm. }
  exists m. split; [rewrite Hrun; reflexivity |].
  split.
  - apply list_elem_of_In. rewrite <- Hperm. eapply list_elem_of_lookup_2. exact Hms.
  - intros Hnan.
    assert (Hnans : Forall (fun x => is_nan x = false) sorted) by (rewrite Hperm; exact Hnan).
    pose proof (ascending_fle _ Hnans (Hasc Hnan)) as Hsorted.
    destruct (sorted_around sorted h m Hsorted Hnans Hms) as [Hbelow Habove].
    assert (Hlens : length sorted = Z.to_nat n) by (unfold sorted; rewrite length_take; lia).
    rewrite <- !Hperm. fold sorted. split.
    + rewrite <- (take_drop (Datatypes.S h) sorted) at 1.
      rewrite filter_app, length_app, (length_filter_all _ _ Hbelow), length_take. lia.
    + rewrite <- (take_drop h sorted) at 1.
      rewrite filter_app, length_app, (length_filter_all _ _ Habove), length_drop. lia.
Qed.

Lemma odd_median_is_central_witness :
  exists m,
    returned (call_getMedian (map float_of_int [3; 1; 2; 7]) 3) = Some m /\
    In m (take (Z.to_nat 3) (map float_of_int [3; 1; 2; 7])) /\
    (Forall (fun x => is_nan x = false) (take (Z.to_nat 3) (map float_of_int [3; 1; 2; 7])) ->
     3 < 2 * Z.of_nat (length (filter (fun x => fle x m = true)
                                 (take (Z.to_nat 3) (map float_of_int [3; 1; 2; 7])))) /\
     3 < 2 * Z.of_nat (length (filter (fun x => fle m x = true)
                                 (take (Z.to_nat 3) (map float_of_int [3; 1; 2; 7]))))).
Proof.
  apply (odd_median_is_central (map float_of_int [3; 1; 2; 7]) 3); [simpl; lia | reflexivity].
Defined.

(** ** The sort of [getMedian] as a function of the array *)

Lemma seqZ_snoc (lo i : Z) : lo <= i -> seqZ lo (i + 1 - lo) = seqZ lo (i - lo) ++ [i].
Proof.
  intros Hle. replace (i + 1 - lo) with ((i - lo) + 1) by lia.
  rewrite seqZ_app by lia. f_equal.
  replace (lo + (i - lo)) with i by lia.
  rewrite seqZ_cons, seqZ_nil by lia. reflexivity.
Qed.

Lemma for_range_cells (L : nat) (step : Z -> list float -> list float) (lo hi : Z)
    (body : Z -> M tsmem unit) (m : tsmem) :
  length (cells m) = L ->
  (forall i c, lo <= i < hi -> length c = L -> length (step i c) = L) ->
  (forall i t, lo <= i < hi -> length (cells t) = L ->
     exists t', body i t = Done tt t' /\ cells t' = step i (cells t)) ->
  exists m',
    for_range lo hi body m = Done tt m' /\
    cells m' = fold_left (fun acc i => step i acc) (seqZ lo (hi - lo)) (cells m) /\
    length (cells m') = L.
Proof.
  intros Hlen Hstep Hbody.
  destruct (Z_le_gt_dec lo hi) as [Hle | Hgt].
  - destruct (for_range_invariant
                (fun i t => length (cells t) = L /\
                            cells t = fold_left (fun acc i => step i acc)
                                        (seqZ lo (i - lo)) (cells m))
                lo hi body m) as (m' & Hrun & Hl & Hc).
    + exact Hle.
    + split; [exact Hlen |]. rewrite Z.sub_diag. reflexivity.
    + intros i t Hi [Hl Hc]. destruct (Hbody i t Hi Hl) as (t' & Hrun & Hc').
      exists t'. split; [exact Hrun |]. split.
      * rewrite Hc'. apply Hstep; assumption.
      * rewrite Hc', Hc, seqZ_snoc, fold_left_app by lia. reflexivity.
    + exists m'. repeat split; assumption.
  - exists m. rewrite for_range_empty, seqZ_nil by lia. repeat split; assumption.
Qed.

Lemma exchange_row_length (a : list float) (i lo hi : Z) :
  length (exchange_row a i lo hi) = length a.
Proof.
  unfold exchange_row. generalize (seqZ lo (hi - lo)). intros js. revert a.
  induction js as [| j js IH]; intros a; [reflexivity |].
  simpl. rewrite IH. apply exchange_length.
Qed.

Lemma getMedian_sort_cells (n : Z) (m : tsmem) :
  0 <= n <= Z.of_nat (length (cells m)) ->
  exists m', getMedian_sort n m = Done tt m' /\ cells m' = exchange_sort (cells m) n.
Proof.
  intros Hn. unfold getMedian_sort, exchange_sort.
  destruct (for_range_cells (length (cells m))
              (fun i c => exchange_row c i (i + 1) (n - 1 + 1)) 0 (n - 1)
              (fun i => for_range (i + 1) (n - 1 + 1) (fun j => getMedian_exchange i j)) m)
    as (m' & Hrun & Hc & _).
  - reflexivity.
  - intros i c _ Hc. rewrite exchange_row_length. exact Hc.
  - intros i t Hi Hl.
    destruct (for_range_cells (length (cells m))
                (fun j c => exchange c (Z.to_nat i) (Z.to_nat j)) (i + 1) (n - 1 + 1)
                (fun j => getMedian_exchange i j) t)
      as (t' & Hrun & Hc & _).
    + exact Hl.
    + intros j c _ Hc. rewrite exchange_length. exact Hc.
    + intros j u Hj Hu.
      destruct (getMedian_exchange_run i j u) as (log & Hrun & _); [lia | lia |].
      eexists. split; [exact Hrun | reflexivity].
    + exists t'. split; [exact Hrun | exact Hc].
  - exists m'. split; [exact Hrun |]. rewrite Z.sub_0_r in Hc. exact Hc.
Qed.

Lemma getMedian_cells (n : Z) (m m' : tsmem) :
  getMedian_sort n m = Done tt m' -> cells (final (getMedian n m)) = cells m'.
Proof.
  intros Hsort. unfold getMedian, bind. rewrite Hsort.
  destruct (Z.rem n 2 =? 0); unfold bind, ts_read.
  - destruct (aread (cells m') (Z.quot n 2 - 1)); [| reflexivity]. simpl.
    destruct (aread (cells m') (Z.quot n 2)); reflexivity.
  - destruct (aread (cells m') (Z.quot n 2)); reflexivity.
Qed.

(** The call of [getMedian] as a function of the array. *)
Lemma getMedian_exchange_sort (a : list float) (n : Z) :
  1 <= n <= Z.of_nat (length a) ->
  exists log,
    call_getMedian a n
    = Done (middle (exchange_sort a n) n) (mkTs (exchange_sort a n) log).
Proof.
  intros Hn. destruct (getMedian_run a n Hn) as (a' & log & Hrun & _).
  destruct (getMedian_sort_cells n (mkTs a [])) as (m' & Hsort & Hc); [simpl; lia |].
  pose proof (getMedian_cells n _ _ Hsort) as Hcells.
  unfold call_getMedian in Hrun. rewrite Hrun in Hcells. simpl in Hcells, Hc.
  exists log. unfold call_getMedian. rewrite Hrun, <- Hc, <- Hcells. reflexivity.
Qed.

Lemma exchange_frame (l rest : list float) (i j : nat) :
  (i < length l)%nat -> (j < length l)%nat ->
  exchange (l ++ rest) i j = exchange l i j ++ rest.
Proof.
  intros Hi Hj. unfold exchange. rewrite !lookup_app_l by assumption.
  destruct (l !! i) as [x |]; [| reflexivity].
  destruct (l !! j) as [y |]; [| reflexivity].
  destruct (fgt x y); [| reflexivity].
  rewrite insert_app_l by assumption.
  rewrite insert_app_l by (rewrite length_insert; assumption). reflexivity.
Qed.

Lemma fold_left_frame {A} (f : list float -> A -> list float) (P : A -> Prop)
    (L : nat) (rest : list float) (xs : list A) :
  (forall c x, P x -> length c = L ->
     f (c ++ rest) x = f c x ++ rest /\ length (f c x) = L) ->
  Forall P xs ->
  forall c, length c = L ->
    fold_left f xs (c ++ rest) = fold_left f xs c ++ rest /\
    length (fold_left f xs c) = L.
Proof.
  intros Hf Hxs. induction Hxs as [| x xs Hx _ IH]; intros c Hc.
  - split; [reflexivity | exact Hc].
  - simpl. destruct (Hf c x Hx Hc) as [Heq Hlen]. rewrite Heq. apply IH. exact Hlen.
Qed.

Lemma exchange_sort_frame (l rest : list float) (n : Z) :
  n <= Z.of_nat (length l) ->
  exchange_sort (l ++ rest) n = exchange_sort l n ++ rest /\
  length (exchange_sort l n) = length l.
Proof.
  intros Hn. unfold exchange_sort.
  apply (fold_left_frame _ (fun i => 0 <= i < n - 1) (length l)); [| | reflexivity].
  - intros c i Hi Hc. unfold exchange_row.
    apply (fold_left_frame _ (fun j => 0 <= j < n) (length l)); [| | exact Hc].
    + intros c' j Hj Hc'. split; [| rewrite exchange_length; exact Hc'].
      apply exchange_frame; lia.
    + apply Forall_forall. intros j Hj. apply elem_of_seqZ in Hj. lia.
  - apply Forall_forall. intros i Hi. apply elem_of_seqZ in Hi. lia.
Qed.

Lemma middle_frame (l rest : list float) (n : Z) :
  1 <= n <= Z.of_nat (length l) -> middle (l ++ rest) n = middle l n.
Proof.
  intros Hn. unfold middle.
  assert (Hhalf : 0 <= n / 2 < n) by (split; [apply Z.div_pos | apply Z.div_lt]; lia).
  rewrite !app_nth1 by lia. reflexivity.
Qed.

Lemma getMedian_prefix (l rest : list float) (n : Z) :
  0 <= n <= Z.of_nat (length l) ->
  returned (call_getMedian (l ++ rest) n) = returned (call_getMedian l n) /\
  cells (final (call_getMedian (l ++ rest) n)) = cells (final (call_getMedian l n)) ++ rest.
Proof.
  intros Hn. destruct (Z.eq_dec n 0) as [-> | Hpos].
  - rewrite !getMedian_empty. split; reflexivity.
  - destruct (getMedian_exchange_sort l n) as (log & ->); [lia |].
    destruct (getMedian_exchange_sort (l ++ rest) n) as (log' & ->).
    { rewrite length_app. lia. }
    destruct (exchange_sort_frame l rest n) as [-> Hlen]; [lia |].
    simpl. rewrite middle_frame by lia. split; reflexivity.
Qed.

(** X9. [getMedian] works on the first [n] elements only: what follows them
    in the array has no influence on the median and is left as it is. *)
Theorem getMedian_frame (l rest : list float) (n : Z) :
  0 <= n <= Z.of_nat (length l) ->
  returned (call_getMedian (l ++ rest) n) = returned (call_getMedian l n) /\
  cells (final (call_getMedian (l ++ rest) n)) = cells (final (call_getMedian l n)) ++ rest.
Proof. apply getMedian_prefix. Qed.

Lemma getMedian_frame_witness :
  returned (call_getMedian (map float_of_int [3; 1; 2] ++ map float_of_int [0; 9]) 3)
  = returned (call_getMedian (map float_of_int [3; 1; 2]) 3) /\
  cells (final (call_getMedian (map float_of_int [3; 1; 2] ++ map float_of_int [0; 9]) 3))
  = cells (final (call_getMedian (map float_of_int [3; 1; 2]) 3)) ++ map float_of_int [0; 9].
Proof.
  apply (getMedian_frame (map float_of_int [3; 1; 2]) (map float_of_int [0; 9]) 3).
  simpl. lia.
Defined.

Lemma sorted_lookup {A} (R : relation A) (l : list A) (p q : nat) (x y : A) :
  StronglySorted R l -> (p < q)%nat -> l !! p = Some x -> l !! q = Some y -> R x y.
Proof.
  intros Hsorted Hpq Hx Hy. rewrite <- (take_drop q l) in Hsorted.
  apply (StronglySorted_app_1_elem_of _ _ _ _ _ Hsorted).
  - apply (list_elem_of_lookup_2 _ p). rewrite lookup_take_lt by assumption. exact Hx.
  - apply (list_elem_of_lookup_2 _ O). rewrite lookup_drop, Nat.add_0_r. exact Hy.
Qed.

Lemma exchange_ascending (a : list float) (n i j : nat) :
  ascending (take n a) -> Forall (fun x => is_nan x = false) (take n a) ->
  (i < j < n)%nat -> exchange a i j = a.
Proof.
  intros Hasc Hnan Hij. unfold exchange.
  destruct (a !! i) as [x |] eqn:Hx; [| reflexivity].
  destruct (a !! j) as [y |] eqn:Hy; [| reflexivity].
  assert (Hxt : take n a !! i = Some x) by (rewrite lookup_take_lt by lia; exact Hx).
  assert (Hyt : take n a !! j = Some y) by (rewrite lookup_take_lt by lia; exact Hy).
  assert (Hle : key_le (key x) (key y)).
  { apply (sorted_lookup _ _ i j x y Hasc); [lia | assumption | assumption]. }
  apply fgt_false in Hle.
  - rewrite Hle. reflexivity.
  - exact (Forall_lookup_1 _ _ _ _ Hnan Hxt).
  - exact (Forall_lookup_1 _ _ _ _ Hnan Hyt).
Qed.

Lemma fold_left_fixed {A C} (f : C -> A -> C) (xs : list A) (c : C) :
  (forall x, x ∈ xs -> f c x = c) -> fold_left f xs c = c.
Proof.
  induction xs as [| x xs IH]; intros Hf; [reflexivity |].
  simpl. rewrite Hf by left. apply IH. intros y Hy. apply Hf. right. exact Hy.
Qed.

Lemma exchange_sort_ascending (a : list float) (n : Z) :
  ascending (take (Z.to_nat n) a) ->
  Forall (fun x => is_nan x = false) (take (Z.to_nat n) a) ->
  exchange_sort a n = a.
Proof.
  intros Hasc Hnan. unfold exchange_sort. apply fold_left_fixed.
  intros i Hi. apply elem_of_seqZ in Hi. unfold exchange_row. apply fold_left_fixed.
  intros j Hj. apply elem_of_seqZ in Hj.
  apply (exchange_ascending a (Z.to_nat n)); [assumption | assumption | lia].
Qed.

(** X10. Without NaN among the first [n] elements, [getMedian] leaves them
    in ascending order, and a second call on the array it left returns the
    same median and changes nothing. *)
Theorem getMedian_again (TS : list float) (n : Z) :
  1 <= n <= Z.of_nat (length TS) ->
  Forall (fun x => is_nan x = false) (take (Z.to_nat n) TS) ->
  exists m a log log',
    call_getMedian TS n = Done m (mkTs a log) /\
    StronglySorted (fun x y => fle x y = true) (take (Z.to_nat n) a) /\
    call_getMedian a n = Done m (mkTs a log').
Proof.
  intros Hn Hnan.
  destruct (getMedian_run TS n Hn) as (a & log & Hrun & _ & Hlen & Hperm & _ & Hasc).
  assert (Hnana : Forall (fun x => is_nan x = false) (take (Z.to_nat n) a))
    by (rewrite Hperm; exact Hnan).
  destruct (getMedian_exchange_sort a n) as (log' & Hagain); [lia |].
  rewrite (exchange_sort_ascending a n (Hasc Hnan) Hnana) in Hagain.
  exists (middle a n), a, log, log'. split; [exact Hrun |].
  split; [apply ascending_fle; [exact Hnana | exact (Hasc Hnan)] | exact Hagain].
Qed.

Lemma getMedian_again_witness :
  exists m a log log',
    call_getMedian (map float_of_int [3; 1; 2; 7]) 3 = Done m (mkTs a log) /\
    StronglySorted (fun x y => fle x y = true) (take (Z.to_nat 3) a) /\
    call_getMedian a 3 = Done m (mkTs a log').
Proof.
  apply (getMedian_again (map float_of_int [3; 1; 2; 7]) 3); [simpl; lia |].
  vm_compute. repeat constructor.
Defined.

(** ** The Theil-Sen estimate of a window with two light values *)

(** C2 fails as stated for any vectors: on twelve equal light values no
    slope is collected and the engine stops in its first median call (the
    read of [slopes[-1]]), so it yields no estimate. *)
Lemma theil_sen_on_any_vectors_fails : ~ theil_sen_on_any_vectors.
Proof.
  intros Hany.
  destruct (Hany flat_state) as (s' & Hrun & _); try reflexivity.
  destruct (estimate_flat_window flat_state (float_of_int 5)) as (s'' & Hfault & _);
    try reflexivity.
  rewrite Hfault in Hrun. discriminate.
Qed.

(** C2. Given two parallel 12-element vectors in which two light values
    differ, the engine runs to its end.  It collects the slope
    [(temp[j]-temp[i])/(light[j]-light[i])] of every pair [i < j] with
    [light[i] != light[j]], at least one and at most 66 of them, and takes
    their median, whatever the rest of [slopes] holds; with the median slope
    it computes [offset[i] = temp[i] - slope*light[i]] for the 12 indices,
    takes their median, and yields [slope*light[i] + offset] as estimates;
    the two vectors are left as they are.  For light = 1..12 and
    temp = 2*light the median slope is 2.0, the median offset is 0.0 and the
    estimates are the temperatures. *)
Theorem theil_sen_estimate (s : state) :
  length (B s) = 12%nat -> length (T s) = 12%nat -> length (slopes s) = 144%nat ->
  length (offsets s) = 12%nat -> length (EstT s) = 12%nat ->
  (exists i j, 0 <= i < j /\ j < 12 /\
     fne (nth (Z.to_nat i) (B s) zero) (nth (Z.to_nat j) (B s) zero) = true) ->
  (exists s',
     estimate s = Done tt s' /\
     B s' = B s /\ T s' = T s /\
     slopes_count s' = Z.of_nat (length (pair_slopes (B s) (T s))) /\
     1 <= slopes_count s' <= 66 /\
     returned (call_getMedian (pair_slopes (B s) (T s)) (slopes_count s'))
       = Some (median_slope s') /\
     returned (call_getMedian (offsets_of (median_slope s') (B s) (T s)) 12)
       = Some (median_offset s') /\
     EstT s' = predicted (median_slope s') (median_offset s') (B s)) /\
  (exists s',
     estimate sample_state = Done tt s' /\
     slopes_count s' = 66 /\
     median_slope s' = float_of_int 2 /\
     median_offset s' = float_of_int 0 /\
     EstT s' = T sample_state).
Proof.
  intros HB HT HS HO HE (i & j & Hij & Hj & Hdiffer).
  split; [| eexists; vm_compute; auto 10].
  assert (Hne : pair_slopes (B s) (T s) <> []).
  { intros Hnil. apply pair_slopes_nil in Hnil.
    rewrite (Hnil i j Hij Hj) in Hdiffer. discriminate. }
  rewrite (estimate_run s HB HT HS HO HE). cbv zeta.
  pose proof (length_pair_slopes (B s) (T s)) as Hlen.
  set (sl := pair_slopes (B s) (T s)) in *.
  assert (Hpos : (1 <= length sl)%nat) by (destruct sl; [contradiction | simpl; lia]).
  destruct (getMedian_prefix sl (drop (length sl) (slopes s)) (Z.of_nat (length sl)))
    as [Hsame _]; [lia |].
  destruct (getMedian_run (sl ++ drop (length sl) (slopes s)) (Z.of_nat (length sl)))
    as (a & log & Hrun & _).
  { rewrite length_app, length_drop. lia. }
  rewrite Hrun in Hsame |- *. simpl in Hsame.
  set (slope := middle a (Z.of_nat (length sl))) in *.
  destruct (getMedian_run (offsets_of slope (B s) (T s)) 12)
    as (a' & log' & Hrun' & _).
  { rewrite length_offsets_of by assumption. lia. }
  rewrite Hrun'. eexists. split; [reflexivity |].
  destruct s. unfold with_estimate, with_median_slope. unfold_setters.
  simpl in sl. fold sl.
  split; [reflexivity |]. split; [reflexivity |]. split; [reflexivity |].
  split; [lia |]. split; [symmetry; exact Hsame |].
  split; [rewrite Hrun'; reflexivity | reflexivity].
Qed.

Lemma theil_sen_estimate_witness :
  (exists s',
     estimate sample_state = Done tt s' /\
     B s' = B sample_state /\ T s' = T sample_state /\
     slopes_count s' = Z.of_nat (length (pair_slopes (B sample_state) (T sample_state))) /\
     1 <= slopes_count s' <= 66 /\
     returned (call_getMedian (pair_slopes (B sample_state) (T sample_state))
                 (slopes_count s'))
       = Some (median_slope s') /\
     returned (call_getMedian
                 (offsets_of (median_slope s') (B sample_state) (T sample_state)) 12)
       = Some (median_offset s') /\
     EstT s' = predicted (median_slope s') (median_offset s') (B sample_state)) /\
  (exists s',
     estimate sample_state = Done tt s' /\
     slopes_count s' = 66 /\
     median_slope s' = float_of_int 2 /\
     median_offset s' = float_of_int 0 /\
     EstT s' = T sample_state).
Proof.
  apply (theil_sen_estimate sample_state); try reflexivity.
  exists 0, 1. split; [lia |]. split; [lia |]. vm_compute. reflexivity.
Defined.

(** ** What the reports print *)

Lemma report_measurement_calls (s : state) :
  length (B s) = 12%nat ->
  0 <= AggrElementsCount s <= Z.of_nat (length (X s)) ->
  report_measurement s
  = Done tt (appended s
               (Printf measurement_header [AInt k]
                :: array_calls "B" (B s)
                ++ Printf ("StdDev = %d.%03u" ++ nl) (fixed_args (StdDev s))
                :: aggregation_calls (AggrElementsCount s)
                ++ array_calls "X" (take (Z.to_nat (AggrElementsCount s)) (X s))
                ++ [Printf nl []])).
Proof.
  intros HB HX. unfold report_measurement.
  rewrite (bind_done _ _ _ _ _ (printf_run _ _ _)).
  rewrite (bind_done _ _ _ _ _
             (printArray_calls "B" B 12 (appended s [Printf measurement_header [AInt k]])
                ltac:(intros o t; destruct t; reflexivity)
                ltac:(destruct s; simpl in *; lia))).
  rewrite appended_appended.
  unfold bind at 1. rewrite bind_get, printf_run, appended_appended.
  match goal with
  | |- bind _ _ ?t = _ =>
      assert (Hstep : forall rest : M state unit,
                 bind (s0 <- get ;;
                       if AggrElementsCount s0 =? 1 then printf "Aggregation = 12-into-1" []
                       else if AggrElementsCount s0 =? 3 then printf "Aggregation = 4-into-1" []
                       else if AggrElementsCount s0 =? 12
                            then printf "Aggregation = 1-into-1 (No Aggregation)" []
                            else ret tt) (fun _ => rest) t
                 = rest (appended t (aggregation_calls (AggrElementsCount s))))
  end.
  { intros rest. unfold bind at 1. rewrite bind_get.
    replace (AggrElementsCount (appended s _)) with (AggrElementsCount s)
      by (destruct s; reflexivity).
    unfold aggregation_calls. repeat destruct (_ =? _); try reflexivity.
    unfold ret. rewrite appended_nil. reflexivity. }
  rewrite Hstep, appended_appended. clear Hstep.
  unfold bind at 1. rewrite bind_get.
  replace (AggrElementsCount (appended s _)) with (AggrElementsCount s)
    by (destruct s; reflexivity).
  match goal with
  | |- context [printArray "X" X _ ?t] =>
      rewrite (printArray_calls "X" X (AggrElementsCount s) t
                 ltac:(intros o t0; destruct t0; reflexivity)
                 ltac:(destruct s; simpl in *; lia))
  end.
  rewrite printf_run, !appended_appended.
  replace (B (appended s _)) with (B s) by (destruct s; reflexivity).
  replace (X (appended s _)) with (X s) by (destruct s; reflexivity).
  replace (StdDev (appended s _)) with (StdDev s) by (destruct s; reflexivity).
  rewrite (take_ge (B s)) by (rewrite HB; simpl; lia).
  f_equal. f_equal. simpl. rewrite <- !app_assoc. simpl. reflexivity.
Qed.

Lemma measurement_calls_run (s : state) :
  length (B s) = 12%nat -> length (X s) = 12%nat ->
  exists s', measurement s = Done tt s' /\ out s' = out s ++ measurement_calls (B s).
Proof.
  intros HB HX. unfold measurement.
  rewrite (bind_done _ _ _ _ _ (standard_deviation_run s HB)).
  rewrite <- (bind_assoc choose_aggregation (fun _ => aggregate) (fun _ => report_measurement)).
  match goal with
  | |- context [bind _ _ ?t] =>
      assert (HB1 : length (B t) = 12%nat) by (destruct s; exact HB);
      assert (HX1 : length (X t) = 12%nat) by (destruct s; exact HX);
      rewrite (bind_done _ _ _ _ _ (choose_aggregate_run t HB1 HX1))
  end.
  clear HB1 HX1.
  match goal with
  | |- context [report_measurement ?t] => rewrite (report_measurement_calls t)
  end.
  2: { destruct s. unfold_setters. repeat destruct (flt _ _); exact HB. }
  2: { destruct s. unfold_setters. repeat destruct (flt _ _); simpl;
         rewrite ?length_insert; lia. }
  eexists. split; [reflexivity |].
  destruct s as [rc b t ? ? ? sd ? x ? ? ? ? ? ? o]. unfold appended. unfold_setters.
  simpl in HB, HX. unfold measurement_calls.
  destruct (flt (dispersion b) (float_of_int 100)).
  - unfold_setters. f_equal. explode x HX. reflexivity.
  - destruct (flt (dispersion b) (float_of_int 1000)).
    + unfold_setters. f_equal. explode x HX. reflexivity.
    + unfold_setters. f_equal. rewrite take_ge by (rewrite HB; simpl; lia). reflexivity.
Qed.

(** X11. The measurement block runs to its end on a window of twelve values
    and prints the header, the window [B], the standard deviation, the
    aggregation that was chosen and the aggregated values [X]: one mean, three
    means of four, or the twelve values.  What it prints depends on the light
    window only. *)
Theorem measurement_prints (s : state) :
  length (B s) = 12%nat -> length (X s) = 12%nat ->
  exists s', measurement s = Done tt s' /\ out s' = out s ++ measurement_calls (B s).
Proof. apply measurement_calls_run. Qed.

Lemma measurement_prints_witness :
  exists s',
    measurement sample_state = Done tt s' /\
    out s' = out sample_state ++ measurement_calls (B sample_state).
Proof. apply (measurement_prints sample_state); reflexivity. Defined.

Lemma report_regression_calls (s : state) :
  length (B s) = 12%nat -> length (T s) = 12%nat -> length (EstT s) = 12%nat ->
  report_regression s
  = Done tt (appended s (regression_report (B s) (T s) (median_slope s) (median_offset s)
                           (EstT s))).
Proof.
  intros HB HT HE. unfold report_regression.
  repeat (rewrite (bind_done _ _ _ _ _ (printf_run _ _ _)), ?appended_appended).
  match goal with
  | |- context [bind (printArray "B" B 12) _ ?t] =>
      rewrite (bind_done _ _ _ _ _
                 (printArray_calls "B" B 12 t
                    ltac:(intros o t0; destruct t0; reflexivity)
                    ltac:(destruct s; simpl in *; lia)))
  end.
  rewrite appended_appended.
  rewrite (bind_done _ _ _ _ _ (printf_run _ _ _)), appended_appended.
  match goal with
  | |- context [bind (printArray "T" T 12) _ ?t] =>
      rewrite (bind_done _ _ _ _ _
                 (printArray_calls "T" T 12 t
                    ltac:(intros o t0; destruct t0; reflexivity)
                    ltac:(destruct s; simpl in *; lia)))
  end.
  rewrite appended_appended.
  do 3 (unfold bind at 1; rewrite bind_get, printf_run, appended_appended).
  rewrite (bind_done _ _ _ _ _ (printf_run _ _ _)), appended_appended.
  match goal with
  | |- context [bind (printArray "EstT" EstT 12) _ ?t] =>
      rewrite (bind_done _ _ _ _ _
                 (printArray_calls "EstT" EstT 12 t
                    ltac:(intros o t0; destruct t0; reflexivity)
                    ltac:(destruct s; simpl in *; lia)))
  end.
  rewrite appended_appended, printf_run, appended_appended.
  replace (B (appended s _)) with (B s) by (destruct s; reflexivity).
  replace (T (appended s _)) with (T s) by (destruct s; reflexivity).
  replace (EstT (appended s _)) with (EstT s) by (destruct s; reflexivity).
  replace (median_slope (appended s _)) with (median_slope s) by (destruct s; reflexivity).
  replace (median_offset (appended s _)) with (median_offset s) by (destruct s; reflexivity).
  rewrite (take_ge (B s)), (take_ge (T s)), (take_ge (EstT s))
    by (rewrite ?HB, ?HT, ?HE; simpl; lia).
  f_equal. f_equal. unfold regression_report. rewrite <- !app_assoc. reflexivity.
Qed.

Lemma median_value_run (l : list float) (m : float) (ts : tsmem) :
  call_getMedian l (Z.of_nat (length l)) = Done m ts -> median_value l = m.
Proof. intros Hrun. unfold median_value. rewrite Hrun. reflexivity. Qed.

Lemma regression_calls_run (s : state) :
  well_formed s ->
  pair_slopes (B s) (T s) <> [] ->
  exists s',
    regression s = Done tt s' /\
    out s' = out s ++ regression_calls (B s) (T s) /\
    median_slope s' = theil_sen_slope (B s) (T s) /\
    median_offset s' = theil_sen_offset (B s) (T s) /\
    EstT s' = predicted (theil_sen_slope (B s) (T s)) (theil_sen_offset (B s) (T s)) (B s).
Proof.
  intros (HB & HT & HX & HS & HO & HE) Hne. unfold regression, bind at 1.
  rewrite (estimate_run s HB HT HS HO HE). cbv zeta.
  pose proof (length_pair_slopes (B s) (T s)) as Hlen.
  unfold theil_sen_offset, regression_calls, theil_sen_offset, theil_sen_slope.
  set (sl := pair_slopes (B s) (T s)) in *.
  assert (Hpos : (1 <= length sl)%nat) by (destruct sl; [contradiction | simpl; lia]).
  destruct (getMedian_prefix sl (drop (length sl) (slopes s)) (Z.of_nat (length sl)))
    as [Hsame _]; [lia |].
  destruct (getMedian_run (sl ++ drop (length sl) (slopes s)) (Z.of_nat (length sl)))
    as (a & log & Hrun & _ & Hlena & _).
  { rewrite length_app, length_drop. lia. }
  rewrite Hrun in Hsame |- *.
  assert (Hslope : median_value sl = middle a (Z.of_nat (length sl))).
  { unfold median_value. rewrite <- Hsame. reflexivity. }
  rewrite Hslope. set (slope := middle a (Z.of_nat (length sl))) in *.
  destruct (getMedian_run (offsets_of slope (B s) (T s)) 12)
    as (a' & log' & Hrun' & _ & Hlena' & _).
  { rewrite length_offsets_of by assumption. lia. }
  rewrite Hrun'.
  assert (Hoffset : median_value (offsets_of slope (B s) (T s)) = middle a' 12).
  { apply (median_value_run _ _ (mkTs a' log')).
    rewrite length_offsets_of by assumption. exact Hrun'. }
  rewrite Hoffset. set (offset := middle a' 12) in *.
  match goal with
  | |- context [report_regression ?t] => rewrite (report_regression_calls t)
  end.
  2: { destruct s; exact HB. }
  2: { destruct s; exact HT. }
  2: { destruct s. unfold with_estimate, predicted. unfold_setters.
       rewrite length_map. exact HB. }
  eexists. split; [reflexivity |].
  destruct s. unfold appended, with_estimate, with_median_slope. unfold_setters.
  repeat split; reflexivity.
Qed.

(** X12. When two light values of the window differ, the regression block
    runs to its end; the slope, the offset and the estimated temperatures it
    stores, and the report it prints, depend on the two windows only, not on
    what the buffers [slopes] and [offsets] held before. *)
Theorem regression_prints (s : state) :
  well_formed s ->
  pair_slopes (B s) (T s) <> [] ->
  exists s',
    regression s = Done tt s' /\
    out s' = out s ++ regression_calls (B s) (T s) /\
    median_slope s' = theil_sen_slope (B s) (T s) /\
    median_offset s' = theil_sen_offset (B s) (T s) /\
    EstT s' = predicted (theil_sen_slope (B s) (T s)) (theil_sen_offset (B s) (T s)) (B s).
Proof. apply regression_calls_run. Qed.

Lemma regression_prints_witness :
  exists s',
    regression sample_state = Done tt s' /\
    out s' = out sample_state ++ regression_calls (B sample_state) (T sample_state) /\
    median_slope s' = theil_sen_slope (B sample_state) (T sample_state) /\
    median_offset s' = theil_sen_offset (B sample_state) (T sample_state) /\
    EstT s' = predicted (theil_sen_slope (B sample_state) (T sample_state))
                (theil_sen_offset (B sample_state) (T sample_state)) (B sample_state).
Proof.
  apply (regression_prints sample_state).
  - unfold well_formed. repeat split; reflexivity.
  - vm_compute. discriminate.
Defined.

(** ** The output of a run *)

Lemma sensor_reading_step_calls (s s' : state) (lightADC tempADC : Z) :
  well_formed s ->
  sensor_reading_step lightADC tempADC s = Done tt s' ->
  out s' = out s ++ sample_calls (lightADC, tempADC)
           ++ (if (readcount s' =? 6) || (readcount s' =? 12)
               then measurement_calls (B s') else [])
           ++ (if readcount s' =? 12 then regression_calls (B s') (T s') else []).
Proof.
  intros Hwf Hstep.
  destruct (sampled_fields s lightADC tempADC Hwf) as (_ & _ & Hwf2 & _).
  assert (Hout2 : out (sampled s lightADC tempADC) = out s ++ sample_calls (lightADC, tempADC)).
  { unfold sampled, advanced. destruct s. destruct (_ <? _); reflexivity. }
  unfold sensor_reading_step in Hstep. cbv zeta in Hstep.
  rewrite (sample_explicit s lightADC tempADC _ Hwf) in Hstep.
  set (s2 := sampled s lightADC tempADC) in *. clearbody s2.
  assert (Hwf2' := Hwf2). destruct Hwf2' as (HBl & HTl & HXl & HSl & HOl & HEl).
  unfold bind at 1 in Hstep. rewrite bind_get in Hstep.
  change k with 6 in Hstep. change (2 * 6) with 12 in Hstep.
  destruct ((readcount s2 =? 6) || (readcount s2 =? 12)) eqn:Hdue.
  - destruct (measurement_run s2 HBl HXl)
      as (s3 & new3 & Hrun3 & _ & _ & Hrc3 & HB3 & HT3 & HX3 & HS3 & HO3 & HE3).
    destruct (measurement_calls_run s2 HBl HXl) as (s3' & Hrun3' & Hout3).
    assert (s3' = s3) by congruence. subst s3'.
    rewrite Hrun3, bind_get in Hstep.
    assert (Hwf3 : well_formed s3).
    { unfold well_formed. rewrite HB3, HT3, HX3, HS3, HO3, HE3. auto 10. }
    destruct (readcount s3 =? 12) eqn:H12.
    + pose proof (regression_run s3 Hwf3) as Hreg. rewrite Hstep in Hreg.
      destruct Hreg as (Hne & _ & Hrc4 & HB4 & HT4 & _).
      destruct (regression_calls_run s3 Hwf3 Hne) as (s4 & Hrun4 & Hout4 & _).
      assert (s4 = s') by congruence. subst s4.
      rewrite Hrc3 in H12.
      rewrite Hrc4, Hrc3, Hdue, H12, HB4, HT4, Hout4, Hout3, Hout2, HB3, HT3.
      rewrite <- !app_assoc. reflexivity.
    + injection Hstep as <-.
      rewrite Hrc3 in H12.
      rewrite Hrc3, Hdue, H12, Hout3, Hout2, HB3, app_nil_r, <- !app_assoc. reflexivity.
  - unfold ret at 1 in Hstep. rewrite bind_get in Hstep.
    destruct (readcount s2 =? 12) eqn:H12.
    + rewrite orb_true_r in Hdue. discriminate.
    + injection Hstep as <-. rewrite H12, Hdue, Hout2, !app_nil_r. reflexivity.
Qed.

Lemma flat_map_ext_in {A C} (f g : A -> list C) (l : list A) :
  (forall x, In x l -> f x = g x) -> flat_map f l = flat_map g l.
Proof.
  induction l as [| x l IH]; intros Hfg; [reflexivity |].
  simpl. rewrite (Hfg x) by (left; reflexivity). rewrite IH; [reflexivity |].
  intros y Hy. apply Hfg. right. exact Hy.
Qed.

Lemma calls_at_snoc (readings : list (Z * Z)) (r : Z * Z) (i : nat) :
  (1 <= i <= length readings)%nat -> calls_at (readings ++ [r]) i = calls_at readings i.
Proof.
  intros Hi. unfold calls_at.
  rewrite lookup_app_l by lia. rewrite take_app_le by lia. reflexivity.
Qed.

Lemma process_calls_snoc (readings : list (Z * Z)) (r : Z * Z) :
  process_calls (readings ++ [r])
  = process_calls readings
    ++ sample_calls r
    ++ report_calls (Z.of_nat (length readings) + 1) (light_window (readings ++ [r]))
         (temperature_window (readings ++ [r])).
Proof.
  unfold process_calls. rewrite length_app. simpl length.
  rewrite seq_app, flat_map_app. f_equal.
  - apply flat_map_ext_in. intros i Hi. apply in_seq in Hi.
    apply calls_at_snoc. lia.
  - change (seq (1 + length readings) 1) with [(1 + length readings)%nat].
    cbn [flat_map]. rewrite app_nil_r. unfold calls_at.
    replace (1 + length readings - 1)%nat with (length readings) by lia.
    rewrite lookup_app_r by lia. rewrite Nat.sub_diag. cbn [lookup list_lookup].
    rewrite take_ge by (rewrite length_app; simpl; lia).
    replace (Z.of_nat (1 + length readings)) with (Z.of_nat (length readings) + 1) by lia.
    reflexivity.
Qed.

Lemma process_calls_run (readings : list (Z * Z)) (s : state) :
  sensor_reading_process readings = Done tt s ->
  out s = process_calls readings.
Proof.
  revert s. induction readings as [| r readings IH] using rev_ind; intros s Hrun.
  - injection Hrun as <-. reflexivity.
  - pose proof (run_window _ _ Hrun) as [HB HT].
    pose proof (run_readcount _ _ Hrun ltac:(intros Hnil; destruct readings; discriminate))
      as Hrc.
    apply step_of_snoc in Hrun as (s1 & Hrun1 & Hstep).
    assert (Hwf1 : well_formed s1) by (apply reachable_well_formed; exists readings; exact Hrun1).
    destruct r as [l t]. simpl in Hstep.
    rewrite (sensor_reading_step_calls s1 s l t Hwf1 Hstep), (IH s1 Hrun1).
    rewrite process_calls_snoc. unfold report_calls.
    rewrite length_app in Hrc. simpl length in Hrc.
    set (n := Z.of_nat (length readings)) in *.
    replace (Z.of_nat (length readings + 1) - 1) with n in Hrc by lia.
    assert (H6 : (readcount s =? 6) = ((n + 1) mod 12 =? 6)).
    { rewrite Hrc. destruct (Z.eqb_spec (n mod 12 + 1) 6), (Z.eqb_spec ((n + 1) mod 12) 6);
        try reflexivity; exfalso; Z.div_mod_to_equations; lia. }
    assert (H12 : (readcount s =? 12) = ((n + 1) mod 12 =? 0)).
    { rewrite Hrc. destruct (Z.eqb_spec (n mod 12 + 1) 12), (Z.eqb_spec ((n + 1) mod 12) 0);
        try reflexivity; exfalso; Z.div_mod_to_equations; lia. }
    rewrite H6, H12, HB, HT. reflexivity.
Qed.

(** X13. The output of a run is a function of the readings: at every sample
    the two values read are printed, at the samples 6, 12, 18, ... the
    measurement report of the last twelve light values, and at the samples
    12, 24, ... the regression report of the last twelve readings. *)
Theorem process_prints (readings : list (Z * Z)) (s : state) :
  sensor_reading_process readings = Done tt s ->
  out s = process_calls readings.
Proof. apply process_calls_run. Qed.

Lemma process_prints_witness :
  out (final (sensor_reading_process (map (fun i => (100 * i, 900 + 5 * i)) (seqZ 1 13))))
  = process_calls (map (fun i => (100 * i, 900 + 5 * i)) (seqZ 1 13)).
Proof.
  apply (process_prints (map (fun i => (100 * i, 900 + 5 * i)) (seqZ 1 13))).
  vm_compute. reflexivity.
Defined.

(** ** Light values that do not change *)

Lemma flt_fne (x y : float) : flt x y = true -> fne x y = true /\ fne y x = true.
Proof.
  intros Hlt. apply flt_true in Hlt as (Hx & Hy & Hlt).
  with_strategy transparent [fne] (unfold fne, SFeqb).
  rewrite (SFcompare_key x y Hx Hy), (SFcompare_key y x Hy Hx).
  pose proof (key_compare_spec (key x) (key y)) as Hxy.
  pose proof (key_compare_spec (key y) (key x)) as Hyx.
  destruct (key_compare (key x) (key y)), (key_compare (key y) (key x));
    try (split; reflexivity); exfalso;
    try rewrite Hxy in *; try rewrite Hyx in *; unfold key_lt in *; lia.
Qed.

Lemma getLight_differs (a b : Z) :
  0 <= a <= 4095 -> 0 <= b <= 4095 ->
  fne (getLight a) (getLight b) = false <-> a = b.
Proof.
  intros Ha Hb. split.
  - intros Hne. destruct (Z.lt_trichotomy a b) as [Hlt | [Heq | Hgt]]; [| exact Heq |].
    + assert (Hflt : flt (getLight a) (getLight b) = true).
      { apply (increasing_from_steps getLight 4095); try lia.
        intros raw Hraw. exact (proj1 (calibration_step raw Hraw)). }
      apply flt_fne in Hflt as [Hab _]. congruence.
    + assert (Hflt : flt (getLight b) (getLight a) = true).
      { apply (increasing_from_steps getLight 4095); try lia.
        intros raw Hraw. exact (proj1 (calibration_step raw Hraw)). }
      apply flt_fne in Hflt as [_ Hba]. congruence.
  - intros <-. apply fne_same.
    destruct (calibration_range a Ha) as (Hle & _). apply fle_true in Hle. tauto.
Qed.

Lemma light_window_full (readings : list (Z * Z)) :
  (12 <= length readings)%nat ->
  light_window readings
  = map (fun r => getLight r.1) (take 12 (drop (length readings - 12) readings)).
Proof.
  intros Hlen. unfold light_window.
  rewrite drop_app_ge by (rewrite length_replicate; lia).
  rewrite length_replicate, skipn_map.
  rewrite take_ge by (rewrite length_drop; lia). reflexivity.
Qed.

Lemma flat_window_same_light (block : list (Z * Z)) :
  length block = 12%nat ->
  Forall (fun r => 0 <= r.1 <= 4095) block ->
  flat_window (map (fun r => getLight r.1) block) <-> same_light block.
Proof.
  intros Hlen Hdom. unfold flat_window, same_light.
  assert (Hnth : forall i, (i < 12)%nat ->
            exists r, block !! i = Some r /\ 0 <= r.1 <= 4095 /\
                      nth i (map (fun r => getLight r.1) block) zero = getLight r.1).
  { intros i Hi. destruct (lookup_lt_is_Some_2 block i) as [r Hr]; [lia |].
    exists r. split; [exact Hr |]. split; [exact (Forall_lookup_1 _ _ _ _ Hdom Hr) |].
    apply nth_lookup_Some. rewrite list_lookup_fmap, Hr. reflexivity. }
  split.
  - intros Hflat r r' Hr Hr'.
    apply list_elem_of_In, list_elem_of_lookup in Hr as [p Hp].
    apply list_elem_of_In, list_elem_of_lookup in Hr' as [q Hq].
    pose proof (lookup_lt_Some _ _ _ Hp) as Hpl. pose proof (lookup_lt_Some _ _ _ Hq) as Hql.
    destruct (Hnth p ltac:(lia)) as (rp & Hrp & Hdp & Hnp).
    destruct (Hnth q ltac:(lia)) as (rq & Hrq & Hdq & Hnq).
    assert (rp = r) by congruence. assert (rq = r') by congruence. subst rp rq.
    destruct (Nat.lt_trichotomy p q) as [Hlt | [Heq | Hgt]].
    + specialize (Hflat (Z.of_nat p) (Z.of_nat q) ltac:(lia) ltac:(lia)).
      rewrite !Nat2Z.id, Hnp, Hnq in Hflat.
      apply (getLight_differs r.1 r'.1 Hdp Hdq). exact Hflat.
    + subst q. congruence.
    + specialize (Hflat (Z.of_nat q) (Z.of_nat p) ltac:(lia) ltac:(lia)).
      rewrite !Nat2Z.id, Hnp, Hnq in Hflat.
      symmetry. apply (getLight_differs r'.1 r.1 Hdq Hdp). exact Hflat.
  - intros Hsame i j Hij Hj.
    destruct (Hnth (Z.to_nat i) ltac:(lia)) as (ri & Hri & Hdi & Hni).
    destruct (Hnth (Z.to_nat j) ltac:(lia)) as (rj & Hrj & Hdj & Hnj).
    rewrite Hni, Hnj. apply getLight_differs; [assumption | assumption |].
    apply Hsame; apply list_elem_of_In; eapply list_elem_of_lookup_2; eassumption.
Qed.

(** X14. With light values of the 12-bit converter, the process stops
    exactly when one of the blocks of twelve consecutive samples that end at
    the samples 12, 24, 36, ... has twelve equal light values. *)
Theorem process_stops_on_constant_light (readings : list (Z * Z)) :
  Forall (fun r => 0 <= r.1 <= 4095) readings ->
  returned (sensor_reading_process readings) = None <->
  exists j : nat,
    (1 <= j)%nat /\ (12 * j <= length readings)%nat /\
    same_light (take 12 (drop (12 * j - 12) readings)).
Proof.
  intros Hdom. rewrite process_stops_at.
  assert (Hblock : forall k : nat, (12 <= k <= length readings)%nat ->
            flat_window (light_window (take k readings)) <->
            same_light (take 12 (drop (k - 12) readings))).
  { intros k Hk. rewrite light_window_full by (rewrite length_take; lia).
    rewrite length_take, Nat.min_l by lia.
    assert (Heq : take 12 (drop (k - 12) (take k readings))
                  = take 12 (drop (k - 12) readings)).
    { rewrite !take_drop_commute, take_take. f_equal. f_equal. lia. }
    rewrite Heq. apply flat_window_same_light.
    - rewrite length_take, length_drop. lia.
    - apply Forall_take, Forall_drop. exact Hdom. }
  split.
  - intros (k & Hk & Hmod & Hflat).
    exists (k / 12)%nat.
    assert (Hk12 : k = (12 * (k / 12))%nat).
    { apply Nat2Z.inj. rewrite Nat2Z.inj_mul, Nat2Z.inj_div. simpl Z.of_nat.
      revert Hmod. Z.div_mod_to_equations. lia. }
    split; [lia |]. split; [lia |].
    rewrite <- Hk12. apply Hblock; [lia | exact Hflat].
  - intros (j & Hj & Hlen & Hsame).
    exists (12 * j)%nat. split; [lia |]. split.
    + rewrite Nat2Z.inj_mul. simpl Z.of_nat. rewrite Z.mul_comm. apply Z.mod_mul. lia.
    + apply Hblock; [lia | exact Hsame].
Qed.

Lemma process_stops_on_constant_light_witness :
  returned (sensor_reading_process (replicate 12 (100, 978))) = None <->
  exists j : nat,
    (1 <= j)%nat /\ (12 * j <= length (replicate 12 (100, 978)))%nat /\
    same_light (take 12 (drop (12 * j - 12) (replicate 12 (100, 978)))).
Proof.
  apply (process_stops_on_constant_light (replicate 12 (100, 978))).
  simpl. repeat (constructor; [simpl; lia |]). constructor.
Defined.

(** ** The buffers of the regression *)

(** X15. The regression sorts its buffers in place: when it is done, the
    slopes that were collected are at the front of [slopes] as a permutation,
    the rest of [slopes] is as before, and [offsets] holds a permutation of
    the twelve offsets; both are in ascending order unless a NaN is among
    them. *)
Theorem regression_sorts_buffers (s : state) :
  well_formed s ->
  pair_slopes (B s) (T s) <> [] ->
  exists s',
    regression s = Done tt s' /\
    let collected := pair_slopes (B s) (T s) in
    let n := length collected in
    let computed := offsets_of (median_slope s') (B s) (T s) in
    slopes_count s' = Z.of_nat n /\
    take n (slopes s') ≡ₚ collected /\
    drop n (slopes s') = drop n (slopes s) /\
    offsets s' ≡ₚ computed /\
    (Forall (fun x => is_nan x = false) collected ->
     StronglySorted (fun x y => fle x y = true) (take n (slopes s'))) /\
    (Forall (fun x => is_nan x = false) computed ->
     StronglySorted (fun x y => fle x y = true) (offsets s')).
Proof.
  intros (HB & HT & HX & HS & HO & HE) Hne. unfold regression, bind at 1.
  rewrite (estimate_run s HB HT HS HO HE). cbv zeta.
  pose proof (length_pair_slopes (B s) (T s)) as Hlen.
  set (sl := pair_slopes (B s) (T s)) in *.
  assert (Hpos : (1 <= length sl)%nat) by (destruct sl; [contradiction | simpl; lia]).
  destruct (getMedian_run (sl ++ drop (length sl) (slopes s)) (Z.of_nat (length sl)))
    as (a & log & Hrun & _ & Hlena & Hperm & Hdrop & Hasc).
  { rewrite length_app, length_drop. lia. }
  rewrite Hrun. rewrite Nat2Z.id in Hperm, Hdrop, Hasc.
  rewrite take_app_length in Hperm, Hasc. rewrite drop_app_length in Hdrop.
  set (slope := middle a (Z.of_nat (length sl))) in *.
  destruct (getMedian_run (offsets_of slope (B s) (T s)) 12)
    as (a' & log' & Hrun' & _ & Hlena' & Hperm' & _ & Hasc').
  { rewrite length_offsets_of by assumption. lia. }
  rewrite Hrun'.
  pose proof (length_offsets_of slope (B s) (T s) HB HT) as Hlo.
  rewrite Hlo in Hlena'.
  rewrite !take_ge in Hperm', Hasc' by (rewrite ?Hlena', ?Hlo; simpl; lia).
  match goal with
  | |- context [report_regression ?t] => rewrite (report_regression_calls t)
  end.
  2: { destruct s; exact HB. }
  2: { destruct s; exact HT. }
  2: { destruct s. unfold with_estimate, predicted. unfold_setters.
       rewrite length_map. exact HB. }
  eexists. split; [reflexivity |].
  destruct s. unfold appended, with_estimate, with_median_slope. unfold_setters.
  cbn [cells]. simpl in sl. fold sl.
  split; [reflexivity |]. split; [exact Hperm |]. split; [exact Hdrop |].
  split; [exact Hperm' |]. split.
  - intros Hnan. apply ascending_fle; [rewrite Hperm; exact Hnan | exact (Hasc Hnan)].
  - intros Hnan. apply ascending_fle; [rewrite Hperm'; exact Hnan | exact (Hasc' Hnan)].
Qed.

Lemma regression_sorts_buffers_witness :
  exists s',
    regression sample_state = Done tt s' /\
    let collected := pair_slopes (B sample_state) (T sample_state) in
    let n := length collected in
    let computed := offsets_of (median_slope s') (B sample_state) (T sample_state) in
    slopes_count s' = Z.of_nat n /\
    take n (slopes s') ≡ₚ collected /\
    drop n (slopes s') = drop n (slopes sample_state) /\
    offsets s' ≡ₚ computed /\
    (Forall (fun x => is_nan x = false) collected ->
     StronglySorted (fun x y => fle x y = true) (take n (slopes s'))) /\
    (Forall (fun x => is_nan x = false) computed ->
     StronglySorted (fun x y => fle x y = true) (offsets s')).
Proof.
  apply (regression_sorts_buffers sample_state).
  - unfold well_formed. repeat split; reflexivity.
  - vm_compute. discriminate.
Defined.

(** ** The output of a run that stops *)

Lemma sensor_reading_step_stops (s s' : state) (lightADC tempADC : Z) (e : error) :
  well_formed s ->
  sensor_reading_step lightADC tempADC s = Fault e s' ->
  e = OutOfBounds (-1) /\
  out s' = out s ++ sample_calls (lightADC, tempADC) ++ measurement_calls (B s').
Proof.
  intros Hwf Hstep.
  destruct (sampled_fields s lightADC tempADC Hwf) as (_ & _ & Hwf2 & _).
  assert (Hout2 : out (sampled s lightADC tempADC) = out s ++ sample_calls (lightADC, tempADC)).
  { unfold sampled, advanced. destruct s. destruct (_ <? _); reflexivity. }
  unfold sensor_reading_step in Hstep. cbv zeta in Hstep.
  rewrite (sample_explicit s lightADC tempADC _ Hwf) in Hstep.
  set (s2 := sampled s lightADC tempADC) in *. clearbody s2.
  assert (Hwf2' := Hwf2). destruct Hwf2' as (HBl & HTl & HXl & HSl & HOl & HEl).
  unfold bind at 1 in Hstep. rewrite bind_get in Hstep.
  change k with 6 in Hstep. change (2 * 6) with 12 in Hstep.
  destruct (readcount s2 =? 12) eqn:H12.
  - rewrite orb_true_r in Hstep.
    destruct (measurement_run s2 HBl HXl)
      as (s3 & new3 & Hrun3 & _ & _ & Hrc3 & HB3 & HT3 & HX3 & HS3 & HO3 & HE3).
    destruct (measurement_calls_run s2 HBl HXl) as (s3' & Hrun3' & Hout3).
    assert (s3' = s3) by congruence. subst s3'.
    rewrite Hrun3, bind_get, Hrc3, H12 in Hstep.
    assert (Hwf3 : well_formed s3).
    { unfold well_formed. rewrite HB3, HT3, HX3, HS3, HO3, HE3. auto 10. }
    pose proof (regression_run s3 Hwf3) as Hreg. rewrite Hstep in Hreg.
    destruct Hreg as (_ & -> & Hout4 & _ & HB4 & _).
    split; [reflexivity |].
    rewrite Hout4, Hout3, Hout2, HB4, HB3, <- app_assoc. reflexivity.
  - rewrite orb_false_r in Hstep.
    destruct (readcount s2 =? 6).
    + destruct (measurement_run s2 HBl HXl) as (s3 & new3 & Hrun3 & _ & _ & Hrc3 & _).
      rewrite Hrun3, bind_get, Hrc3, H12 in Hstep. discriminate.
    + unfold ret at 1 in Hstep. rewrite bind_get, H12 in Hstep. discriminate.
Qed.

(** X16. When the process stops at a sample, it has printed the values read
    at that sample and the measurement report of the window, and nothing of
    the regression report; the error is the read of [slopes[-1]]. *)
Theorem stopped_run_output (readings : list (Z * Z)) (r : Z * Z) (s1 : state) :
  sensor_reading_process readings = Done tt s1 ->
  returned (sensor_reading_process (readings ++ [r])) = None ->
  exists s,
    sensor_reading_process (readings ++ [r]) = Fault (OutOfBounds (-1)) s /\
    out s = process_calls readings ++ sample_calls r
            ++ measurement_calls (light_window (readings ++ [r])).
Proof.
  intros Hrun1 Hstop.
  assert (Hwf1 : well_formed s1) by (apply reachable_well_formed; exists readings; exact Hrun1).
  pose proof (process_calls_run readings s1 Hrun1) as Hout1.
  destruct (run_window readings s1 Hrun1) as [HB1 _].
  pose proof (sensor_reading_step_window s1 r.1 r.2 Hwf1) as Hwin. cbv zeta in Hwin.
  destruct Hwin as (HB & _ & _).
  unfold sensor_reading_process in *. rewrite run_from_snoc, Hrun1 in Hstop |- *.
  destruct (sensor_reading_step r.1 r.2 s1) as [[] s2 | e s2] eqn:Hstep; [discriminate |].
  destruct (sensor_reading_step_stops s1 s2 r.1 r.2 e Hwf1 Hstep) as [-> Hout].
  exists s2. split; [reflexivity |].
  simpl in HB. rewrite Hout, Hout1, HB, HB1. destruct r as [l t]. simpl.
  unfold light_window at 2. rewrite (window_snoc (fun r => getLight r.1)). reflexivity.
Qed.

Lemma stopped_run_output_witness :
  exists s,
    sensor_reading_process (replicate 11 (100, 978) ++ [(100, 978)])
    = Fault (OutOfBounds (-1)) s /\
    out s = process_calls (replicate 11 (100, 978)) ++ sample_calls (100, 978)
            ++ measurement_calls (light_window (replicate 11 (100, 978) ++ [(100, 978)])).
Proof.
  apply (stopped_run_output (replicate 11 (100, 978)) (100, 978)
           (final (sensor_reading_process (replicate 11 (100, 978))))).
  - vm_compute. reflexivity.
  - vm_compute. reflexivity.
Defined.
